(** * strapi-plugin-io: sanitizer, populate normalizer, commit scheduler,
      query builder and emission coordinator

    A shallow embedding of
      - [server/src/services/sanitize.js]   (removeSensitiveFields, sanitizeRaw)
      - [server/src/bootstrap/lifecycle.js] (getTransactionCtx,
        scheduleAfterTransaction, normalizePopulate, fetchWithPopulate,
        bootstrapLifecycles, buildEventQuery)
    together with the properties stated about them.

    Conventions of the embedding.
      - A JavaScript value is a [JSValue]: the JSON-shaped values the store
        hands to the hooks.  Numbers are integers ([Z]): [JNum n] stands
        for the double nearest to [n].  Functions, symbols, dates, fractions
        and non-finite numbers are outside the model, and so is an array
        that carries named properties.
      - An object is the list of its own enumerable string-keyed properties
        in insertion order (the engine's reordering of integer-like keys is
        not modelled; no statement below depends on property order).
        [result[key] = v] is [set_prop].
      - Code that can throw returns a [Completion].
      - Closures handed to [setTimeout] / [onCommit] are defunctionalised
        ([Task]); the host (store read API, channel, module loader) is a
        record of oracles ([Host]).
      - The event object belongs to the store, which may write to it after
        the hook has returned.  An [Event] is the object as the hook
        receives it; what a deferred callback finds in [event.result] when
        it reads it is the host's [later_result]. *)

From Stdlib Require Import List String Ascii Bool ZArith Lia Arith DecimalString.
Import ListNotations.
Open Scope string_scope.
Open Scope list_scope.

Set Implicit Arguments.
Set Warnings "-register-all".
Unset Elimination Schemes.

(* ===================================================================== *)
(** ** JavaScript values                                                   *)
(* ===================================================================== *)

Inductive JSValue : Type :=
| JUndefined
| JNull
| JBool (b : bool)
| JNum (n : Z)
| JStr (s : string)
| JArr (items : list JSValue)
| JObj (props : list (string * JSValue)).
Set Elimination Schemes.

(** Induction principle that reaches inside arrays and objects. *)
Section JSValue_induction.
Variable P : JSValue -> Prop.
Hypothesis Hundef : P JUndefined.
Hypothesis Hnull : P JNull.
Hypothesis Hbool : forall b, P (JBool b).
Hypothesis Hnum : forall n, P (JNum n).
Hypothesis Hstr : forall s, P (JStr s).
Hypothesis Harr : forall items, Forall P items -> P (JArr items).
Hypothesis Hobj : forall props, Forall (fun kv => P (snd kv)) props -> P (JObj props).

Fixpoint JSValue_deep_ind (v : JSValue) : P v :=
  match v with
  | JUndefined => Hundef
  | JNull => Hnull
  | JBool b => Hbool b
  | JNum n => Hnum n
  | JStr s => Hstr s
  | JArr items =>
      Harr ((fix go (l : list JSValue) : Forall P l :=
               match l with
               | [] => Forall_nil P
               | x :: l' => Forall_cons x (JSValue_deep_ind x) (go l')
               end) items)
  | JObj props =>
      Hobj ((fix go (l : list (string * JSValue))
              : Forall (fun kv => P (snd kv)) l :=
               match l with
               | [] => Forall_nil _
               | kv :: l' =>
                   Forall_cons kv (JSValue_deep_ind (snd kv)) (go l')
               end) props)
  end.
End JSValue_induction.

(** [!v] is [negb (truthy v)]. *)
Definition truthy (v : JSValue) : bool :=
  match v with
  | JUndefined | JNull => false
  | JBool b => b
  | JNum n => negb (n =? 0)%Z
  | JStr s => negb (s =? EmptyString)
  | JArr _ | JObj _ => true
  end.

(** [typeof v === 'object'] (true of [null] as well). *)
Definition typeof_object (v : JSValue) : bool :=
  match v with
  | JNull | JArr _ | JObj _ => true
  | _ => false
  end.

(** [Array.isArray v]. *)
Definition isArray (v : JSValue) : bool :=
  match v with JArr _ => true | _ => false end.

(** A value that is neither an object nor an array. *)
Definition is_primitive (v : JSValue) : bool :=
  match v with JArr _ | JObj _ => false | _ => true end.

(** Own property lookup in a property list. *)
Fixpoint own_prop (k : string) (props : list (string * JSValue)) : option JSValue :=
  match props with
  | [] => None
  | (k', v) :: rest => if k' =? k then Some v else own_prop k rest
  end.

Fixpoint assign_prop (k : string) (v : JSValue) (props : list (string * JSValue))
  : list (string * JSValue) :=
  match props with
  | [] => [(k, v)]
  | (k', v') :: rest =>
      if k' =? k then (k, v) :: rest else (k', v') :: assign_prop k v rest
  end.

(** [obj[k] = v] on an ordinary object: the value of an existing property is
    replaced in place, a new property is appended.  Assigning to
    [__proto__] goes to the accessor inherited from [Object.prototype] and
    creates no own property. *)
Definition set_prop (k : string) (v : JSValue) (props : list (string * JSValue))
  : list (string * JSValue) :=
  if k =? "__proto__" then props else assign_prop k v props.

(** Every object, at every depth, has at most one property per key. *)
Fixpoint NoDupb (l : list string) : bool :=
  match l with
  | [] => true
  | x :: l' => negb (existsb (String.eqb x) l') && NoDupb l'
  end.

Fixpoint well_formed (v : JSValue) : bool :=
  match v with
  | JArr items => forallb well_formed items
  | JObj props =>
      NoDupb (map fst props) && forallb (fun kv => well_formed (snd kv)) props
  | _ => true
  end.

(** Key [K] names a property of some object inside [v], at any depth. *)
Fixpoint has_key (K : string) (v : JSValue) : bool :=
  match v with
  | JArr items => existsb (has_key K) items
  | JObj props => existsb (fun kv => (fst kv =? K) || has_key K (snd kv)) props
  | _ => false
  end.

(** Paths into a value: property names and array indices. *)
Inductive Seg : Type :=
| Key (k : string)
| Idx (i : nat).

Fixpoint lookup (p : list Seg) (v : JSValue) : option JSValue :=
  match p with
  | [] => Some v
  | Key k :: p' =>
      match v with
      | JObj props =>
          match own_prop k props with
          | Some x => lookup p' x
          | None => None
          end
      | _ => None
      end
  | Idx i :: p' =>
      match v with
      | JArr items =>
          match nth_error items i with
          | Some x => lookup p' x
          | None => None
          end
      | _ => None
      end
  end.

(* ===================================================================== *)
(** ** Strings                                                             *)
(* ===================================================================== *)

(** [s.includes(sub)]: [sub] occurs in [s] as a contiguous substring. *)
Fixpoint includes (s sub : string) : bool :=
  String.prefix sub s ||
  match s with
  | EmptyString => false
  | String _ s' => includes s' sub
  end.

(** ASCII case folding, the instance of [toLowerCase] used in examples. *)
Definition ascii_lower (c : ascii) : ascii :=
  let n := nat_of_ascii c in
  if ((65 <=? n) && (n <=? 90))%nat then ascii_of_nat (n + 32) else c.

Fixpoint ascii_toLowerCase (s : string) : string :=
  match s with
  | EmptyString => EmptyString
  | String c s' => String (ascii_lower c) (ascii_toLowerCase s')
  end.

(* ===================================================================== *)
(** ** services/sanitize.js                                                *)
(* ===================================================================== *)

Definition DEFAULT_SENSITIVE_FIELDS : list string :=
  [ "password"; "resetPasswordToken"; "confirmationToken"; "refreshToken";
    "accessToken"; "secret"; "apiKey"; "api_key"; "privateKey";
    "private_key"; "token"; "salt"; "hash" ].

Section Sanitizer.
(** [String.prototype.toLowerCase]; the results below hold for whatever
    case mapping the runtime implements. *)
Variable toLowerCase : string -> string.

(** [sensitiveFields.some(sf => lowerKey === sf.toLowerCase()
                               || lowerKey.includes(sf.toLowerCase()))] *)
Definition is_sensitive (key : string) (sensitiveFields : list string) : bool :=
  let lowerKey := toLowerCase key in
  existsb (fun sf => (lowerKey =? toLowerCase sf)
                     || includes lowerKey (toLowerCase sf))
          sensitiveFields.

Fixpoint removeSensitiveFields (data : JSValue) (sensitiveFields : list string)
  : JSValue :=
  if negb (truthy data) || negb (typeof_object data) then data
  else
    match data with
    | JArr items =>
        JArr (map (fun item => removeSensitiveFields item sensitiveFields) items)
    | JObj props =>
        JObj (fold_left
                (fun result kv =>
                   let key := fst kv in
                   let value := snd kv in
                   if is_sensitive key sensitiveFields then result
                   else if truthy value && typeof_object value
                        then set_prop key (removeSensitiveFields value sensitiveFields) result
                        else set_prop key value result)
                props [])
    | _ => data
    end.

(** One iteration of the [for (const [key, value] of Object.entries(data))]
    loop of [removeSensitiveFields], on its own. *)
Definition sanitize_entry (sensitiveFields : list string)
           (result : list (string * JSValue)) (kv : string * JSValue)
  : list (string * JSValue) :=
  if is_sensitive (fst kv) sensitiveFields then result
  else if truthy (snd kv) && typeof_object (snd kv)
       then set_prop (fst kv) (removeSensitiveFields (snd kv) sensitiveFields) result
       else set_prop (fst kv) (snd kv) result.

(** [getSensitiveFields()], with the configured
    [plugin.io.sensitiveFields] as [customFields]. *)
Definition getSensitiveFields (customFields : list string) : list string :=
  DEFAULT_SENSITIVE_FIELDS ++ customFields.

Definition sanitizeRaw (customFields : list string) (data : JSValue) : JSValue :=
  removeSensitiveFields data (getSensitiveFields customFields).
End Sanitizer.

(* ===================================================================== *)
(** ** Completions, property access, JSON                                  *)
(* ===================================================================== *)

Inductive ErrorKind : Type := TypeError | SyntaxError | HostError.

(** A thrown error; [message] is what [error.message] reads. *)
Record JSError : Type := { kind : ErrorKind; message : string }.

Inductive Completion (A : Type) : Type :=
| Normal (a : A)
| Throw (e : JSError).
Arguments Throw {A} e.

Definition is_throw {A} (c : Completion A) : bool :=
  match c with Throw _ => true | Normal _ => false end.

Definition cbind {A B} (c : Completion A) (f : A -> Completion B) : Completion B :=
  match c with
  | Normal a => f a
  | Throw e => Throw e
  end.

Declare Scope completion_scope.
Delimit Scope completion_scope with completion.
Notation "x <- c ;; k" := (cbind c (fun x => k))
  (at level 61, c at next level, right associativity) : completion_scope.

(** [v.k] for a data property [k].  Reading a property of [null] or
    [undefined] throws; primitives and arrays have none of the data
    properties the code reads ([where], [limit], [count], [ids], [id],
    [documentId], [params], [uid], [actions], [populate]). *)
Definition get (v : JSValue) (k : string) : Completion JSValue :=
  match v with
  | JUndefined | JNull =>
      Throw {| kind := TypeError;
               message := "Cannot read properties of " ++
                          (match v with JNull => "null" | _ => "undefined" end) ++
                          " (reading '" ++ k ++ "')" |}
  | JObj props =>
      Normal (match own_prop k props with Some x => x | None => JUndefined end)
  | _ => Normal JUndefined
  end.

(** [v?.k] *)
Definition get_opt (v : JSValue) (k : string) : JSValue :=
  match v with
  | JObj props => match own_prop k props with Some x => x | None => JUndefined end
  | _ => JUndefined
  end.

(** [v.k = x] in strict mode, returning the updated [v].  An array that
    carries a named property is outside the model ([JArr] holds the elements
    only): the [JArr] case keeps the elements, and what is stated below
    about a [put] leaves arrays out. *)
Definition put (v : JSValue) (k : string) (x : JSValue) : Completion JSValue :=
  match v with
  | JObj props => Normal (JObj (set_prop k x props))
  | JArr _ => Normal v
  | JUndefined | JNull =>
      Throw {| kind := TypeError;
               message := "Cannot set properties of " ++
                          (match v with JNull => "null" | _ => "undefined" end) ++
                          " (setting '" ++ k ++ "')" |}
  | _ =>
      Throw {| kind := TypeError;
               message := "Cannot create property '" ++ k ++ "'" |}
  end.

(** [a || b] *)
Definition js_or (a b : JSValue) : JSValue := if truthy a then a else b.

(** [String(n)] for a number.  Up to [2^53] every integer is a double and
    is printed in full.  Beyond, the number is the double nearest to the
    integer (ties to even), and what is printed is the decimal with the
    fewest significant digits that still reads back as that double: in
    plain notation up to 21 digits, as [d.ddde+x] from there on, and
    [Infinity] from [2^1024] on. *)
Definition decimal (n : Z) : string := NilZero.string_of_int (Z.to_int n).

Definition double_of (a : Z) : Z :=
  (if a <? 2 ^ 53 then a
   else
     let e := Z.log2 a - 52 in
     let q := Z.shiftr a e in
     let r := a - Z.shiftl q e in
     let half := Z.shiftl 1 (e - 1) in
     let q := if r <? half then q
              else if half <? r then q + 1
                   else if Z.even q then q else q + 1 in
     Z.shiftl q e)%Z.

Definition digits (a : Z) : Z := Z.of_nat (String.length (decimal a)).

(** The decimal with [k] significant digits nearest to the double [x], when
    it reads back as [x]. *)
Definition with_digits (x k : Z) : option Z :=
  (let p := 10 ^ (digits x - k) in
   let lo := (x / p) * p in
   let hi := lo + p in
   match double_of lo =? x, double_of hi =? x with
   | true, true =>
       if x - lo <? hi - x then Some lo
       else if hi - x <? x - lo then Some hi
            else if Z.even (x / p) then Some lo else Some hi
   | true, false => Some lo
   | false, true => Some hi
   | false, false => None
   end)%Z.

Fixpoint shortest_from (x k : Z) (fuel : nat) : Z :=
  match fuel with
  | O => x
  | S fuel =>
      if (digits x <? k)%Z then x
      else match with_digits x k with
           | Some v => v
           | None => shortest_from x (k + 1)%Z fuel
           end
  end.

(** Seventeen significant digits tell any two doubles apart. *)
Definition shortest (x : Z) : Z := shortest_from x 1%Z 17.

Fixpoint strip_zeros (rev_digits : list ascii) : list ascii :=
  match rev_digits with
  | "0"%char :: rest => strip_zeros rest
  | _ => rev_digits
  end.

Definition exponent_form (v : Z) : string :=
  let ds := list_ascii_of_string (decimal v) in
  let exponent := decimal (Z.of_nat (List.length ds) - 1)%Z in
  match rev (strip_zeros (rev ds)) with
  | [] => "0"
  | [d] => String d ("e+" ++ exponent)
  | d :: rest => String d ("." ++ string_of_list_ascii rest ++ "e+" ++ exponent)
  end.

Definition magnitude_to_string (a : Z) : string :=
  if (a <? 2 ^ 53)%Z then decimal a
  else
    let x := double_of a in
    if (2 ^ 1024 <=? x)%Z then "Infinity"
    else
      let v := shortest x in
      if (digits v <=? 21)%Z then decimal v else exponent_form v.

Definition number_to_string (n : Z) : string :=
  if (n <? 0)%Z then "-" ++ magnitude_to_string (- n)%Z else magnitude_to_string n.

(** [String(v)], as used by template literals and property keys. *)
Fixpoint to_string (v : JSValue) : string :=
  match v with
  | JUndefined => "undefined"
  | JNull => "null"
  | JBool b => if b then "true" else "false"
  | JNum n => number_to_string n
  | JStr s => s
  | JArr items =>
      String.concat ","
        (map (fun x => match x with
                       | JUndefined | JNull => EmptyString
                       | _ => to_string x
                       end) items)
  | JObj _ => "[object Object]"
  end.

(** What [JSON.stringify] keeps of a value nested inside another one:
    properties holding [undefined] are dropped, [undefined] array elements
    become [null]. *)
Fixpoint jsonify (v : JSValue) : JSValue :=
  match v with
  | JUndefined => JNull
  | JArr items => JArr (map jsonify items)
  | JObj props =>
      JObj (flat_map (fun kv => match snd kv with
                                | JUndefined => []
                                | _ => [(fst kv, jsonify (snd kv))]
                                end) props)
  | _ => v
  end.

(** [JSON.parse(JSON.stringify(v))]: [JSON.stringify(undefined)] is
    [undefined], which [JSON.parse] rejects. *)
Definition json_clone (v : JSValue) : Completion JSValue :=
  match v with
  | JUndefined =>
      Throw {| kind := SyntaxError; message := "undefined is not valid JSON" |}
  | _ => Normal (jsonify v)
  end.

(* ===================================================================== *)
(** ** bootstrap/lifecycle.js: populate normalizer and query builder       *)
(* ===================================================================== *)

(** [normalizePopulate(config)].  The array case is
    [config.reduce((acc, field) => { acc[field] = true; return acc; }, {})]. *)
Definition normalizePopulate (config : JSValue) : JSValue :=
  match config with
  | JStr "*" | JBool true => JStr "*"
  | JArr fields =>
      JObj (fold_left (fun acc field => set_prop (to_string field) (JBool true) acc)
                      fields [])
  | JObj _ => config
  | _ => JUndefined
  end.

(** [event.model], and the [modelInfo] objects copied from it. *)
Record ModelInfo : Type := { singularName : string; model_uid : string }.

(** A lifecycle event as the store passes it to a hook.  [state] is the
    per-event state bag, always an object. *)
Record Event : Type := {
  action : string;
  model : ModelInfo;
  params : JSValue;
  result : JSValue;
  state : list (string * JSValue)
}.

Definition with_state (event : Event) (st : list (string * JSValue)) : Event :=
  {| action := action event; model := model event; params := params event;
     result := result event; state := st |}.

(** [buildEventQuery({ event })] *)
Definition buildEventQuery (event : Event) : Completion JSValue :=
  (let query := [] in
   where_ <- get (params event) "where" ;;
   let query := if truthy where_ then set_prop "filters" where_ query else query in
   query <- (if truthy (get_opt (result event) "count")
             then Normal (set_prop "limit" (get_opt (result event) "count") query)
             else limit <- get (params event) "limit" ;;
                  Normal (if truthy limit then set_prop "limit" limit query
                          else query)) ;;
   if action event =? "afterCreateMany"
   then ids <- get (result event) "ids" ;;
        Normal (JObj (set_prop "filters" (JObj [("id", ids)]) query))
   else if action event =? "beforeUpdate"
        then Normal (JObj (set_prop "fields" (JArr [JStr "id"]) query))
        else Normal (JObj query))%completion.

(* ===================================================================== *)
(** ** bootstrap/lifecycle.js: commit scheduler                            *)
(* ===================================================================== *)

(** The object held by the module-level variable [transactionCtx]: the
    store's transaction context, or the no-op fallback
    [{ get: () => null, onCommit: () => {} }]. *)
Inductive TxCtx : Type := StoreTxCtx | NoopTxCtx.

Section Scheduler.
(** The callbacks being scheduled; the scheduler never looks inside. *)
Variable Callback : Type.

(** [runner = () => setTimeout(callback, delay)].  Every call of
    [scheduleAfterTransaction] creates a fresh closure; [runner_id] is
    its identity. *)
Record Runner : Type := {
  runner_id : nat;
  runner_callback : Callback;
  runner_delay : nat
}.

Record Timer : Type := { due : nat; timer_id : nat; timer_callback : Callback }.

Record Run : Type := { ran_at : nat; run_id : nat; run_callback : Callback }.

(** The scheduler and its surroundings:
    - [transactionCtx]: the module variable ([None] is [null]);
    - [activeTx]: the store's ambient transaction, with the commit
      listeners registered on it ([None]: no transaction is active);
    - [timers]: pending [setTimeout]s, ordered by expiry;
    - [clock]: milliseconds; [nextId]: closure identities handed out;
    - [console]: lines written by [console.warn];
    - [ran]: the callbacks that have run, oldest first. *)
Record World : Type := {
  transactionCtx : option TxCtx;
  activeTx : option (list Runner);
  timers : list Timer;
  clock : nat;
  nextId : nat;
  console : list string;
  ran : list Run
}.

Definition initial_world : World :=
  {| transactionCtx := None; activeTx := None; timers := []; clock := 0;
     nextId := 0; console := []; ran := [] |}.

Definition set_transactionCtx (c : option TxCtx) (w : World) : World :=
  {| transactionCtx := c; activeTx := activeTx w; timers := timers w;
     clock := clock w; nextId := nextId w; console := console w; ran := ran w |}.

Definition set_activeTx (tx : option (list Runner)) (w : World) : World :=
  {| transactionCtx := transactionCtx w; activeTx := tx; timers := timers w;
     clock := clock w; nextId := nextId w; console := console w; ran := ran w |}.

Definition set_timers (ts : list Timer) (w : World) : World :=
  {| transactionCtx := transactionCtx w; activeTx := activeTx w; timers := ts;
     clock := clock w; nextId := nextId w; console := console w; ran := ran w |}.

Definition set_clock (t : nat) (w : World) : World :=
  {| transactionCtx := transactionCtx w; activeTx := activeTx w;
     timers := timers w; clock := t; nextId := nextId w;
     console := console w; ran := ran w |}.

Definition set_nextId (n : nat) (w : World) : World :=
  {| transactionCtx := transactionCtx w; activeTx := activeTx w;
     timers := timers w; clock := clock w; nextId := n;
     console := console w; ran := ran w |}.

Definition set_console (c : list string) (w : World) : World :=
  {| transactionCtx := transactionCtx w; activeTx := activeTx w;
     timers := timers w; clock := clock w; nextId := nextId w;
     console := c; ran := ran w |}.

Definition set_ran (r : list Run) (w : World) : World :=
  {| transactionCtx := transactionCtx w; activeTx := activeTx w;
     timers := timers w; clock := clock w; nextId := nextId w;
     console := console w; ran := r |}.

(** The timer queue is kept in expiry order; timers with equal expiry
    keep their insertion order. *)
Fixpoint insert_timer (t : Timer) (q : list Timer) : list Timer :=
  match q with
  | [] => [t]
  | x :: q' => if (due x <=? due t)%nat then x :: insert_timer t q' else t :: q
  end.

(** [setTimeout(callback, delay)] *)
Definition setTimeout (id : nat) (callback : Callback) (delay : nat) (w : World)
  : World :=
  set_timers (insert_timer {| due := clock w + delay; timer_id := id;
                              timer_callback := callback |} (timers w)) w.

Definition run_runner (r : Runner) (w : World) : World :=
  setTimeout (runner_id r) (runner_callback r) (runner_delay r) w.

(** Modelled from the spec: the store's transaction context
    ([@strapi/database]) is not part of the repository; its contract is
    [get() -> activeTxOrNull] and [onCommit(callback) -> void], a commit
    listener running only if and when the transaction commits.

    [ctx.get()], as a truth value. *)
Definition ctx_get (ctx : TxCtx) (w : World) : bool :=
  match ctx with
  | StoreTxCtx => match activeTx w with Some _ => true | None => false end
  | NoopTxCtx => false
  end.

(** [ctx.onCommit(runner)] *)
Definition ctx_onCommit (ctx : TxCtx) (r : Runner) (w : World) : World :=
  match ctx with
  | StoreTxCtx =>
      match activeTx w with
      | Some listeners => set_activeTx (Some (listeners ++ [r])) w
      | None => w
      end
  | NoopTxCtx => w
  end.

(** The line [console.warn] writes when the module cannot be loaded (the
    loader's error message follows it). *)
Definition tx_warning : string :=
  "[@strapi-community/plugin-io] Unable to access transaction context:".

(** [getTransactionCtx()]; [txModule] tells whether
    [require('@strapi/database/dist/transaction-context')] succeeds. *)
Definition getTransactionCtx (txModule : bool) (w : World) : TxCtx * World :=
  match transactionCtx w with
  | Some ctx => (ctx, w)
  | None =>
      if txModule
      then (StoreTxCtx, set_transactionCtx (Some StoreTxCtx) w)
      else (NoopTxCtx,
            set_transactionCtx (Some NoopTxCtx)
              (set_console (console w ++ [tx_warning]) w))
  end.

(** [scheduleAfterTransaction(callback, delay)] *)
Definition scheduleAfterTransaction (txModule : bool)
           (callback : Callback) (delay : nat) (w : World) : World :=
  let runner := {| runner_id := nextId w; runner_callback := callback;
                   runner_delay := delay |} in
  let w := set_nextId (S (nextId w)) w in
  let (ctx, w) := getTransactionCtx txModule w in
  if ctx_get ctx w then ctx_onCommit ctx runner w else run_runner runner w.

(** *** The store's transactions and the event loop

    Modelled from the spec: [begin], [commit] and [rollback] are the
    store's side of the transaction-context contract; [elapse] and [turn]
    are the runtime's clock and timer phase.  One transaction is open at a
    time. *)

Definition begin (w : World) : World :=
  match activeTx w with
  | None => set_activeTx (Some []) w
  | Some _ => w
  end.

(** Commit: the transaction ends, then its commit listeners are called
    in registration order. *)
Definition commit (w : World) : World :=
  match activeTx w with
  | Some listeners =>
      fold_left (fun w r => run_runner r w) listeners (set_activeTx None w)
  | None => w
  end.

(** Rollback: the transaction ends and its commit listeners are dropped. *)
Definition rollback (w : World) : World := set_activeTx None w.

Definition elapse (d : nat) (w : World) : World := set_clock (clock w + d) w.

Definition expired (now : nat) (t : Timer) : bool := (due t <=? now)%nat.

(** One turn of the event loop: every expired timer fires. *)
Definition turn (w : World) : World :=
  let fired := filter (expired (clock w)) (timers w) in
  set_ran (ran w ++ map (fun t => {| ran_at := clock w; run_id := timer_id t;
                                     run_callback := timer_callback t |}) fired)
    (set_timers (filter (fun t => negb (expired (clock w) t)) (timers w)) w).

Inductive Step : Type :=
| Begin
| Commit
| Rollback
| Elapse (d : nat)
| Turn
| Schedule (callback : Callback) (delay : nat).

Definition step (txModule : bool) (w : World) (s : Step) : World :=
  match s with
  | Begin => begin w
  | Commit => commit w
  | Rollback => rollback w
  | Elapse d => elapse d w
  | Turn => turn w
  | Schedule callback delay => scheduleAfterTransaction txModule callback delay w
  end.

Definition run (txModule : bool) (steps : list Step) (w : World) : World :=
  fold_left (step txModule) steps w.

(** Counting one closure in the queues. *)
Definition count_timers (id : nat) (w : World) : nat :=
  List.length (filter (fun t => timer_id t =? id)%nat (timers w)).

Definition count_listeners (id : nat) (w : World) : nat :=
  match activeTx w with
  | Some listeners => List.length (filter (fun r => runner_id r =? id)%nat listeners)
  | None => 0
  end.

Definition count_ran (id : nat) (w : World) : nat :=
  List.length (filter (fun r => run_id r =? id)%nat (ran w)).

Definition count_schedules (steps : list Step) : nat :=
  List.length (filter (fun s => match s with Schedule _ _ => true | _ => false end) steps).

Definition listeners_of (w : World) : list Runner :=
  match activeTx w with Some l => l | None => [] end.

(** Identities in use are below [nextId]. *)
Definition ids_fresh (w : World) : Prop :=
  Forall (fun t => timer_id t < nextId w) (timers w) /\
  Forall (fun r => runner_id r < nextId w) (listeners_of w) /\
  Forall (fun r => run_id r < nextId w) (ran w).

(** Every pending timer and every past run of closure [id] is of
    [callback], the timer expiring at [t0] and the run not before [t0]. *)
Definition timely (id : nat) (callback : Callback) (t0 : nat) (w : World) : Prop :=
  (forall t, In t (timers w) -> timer_id t = id ->
             due t = t0 /\ timer_callback t = callback) /\
  (forall r, In r (ran w) -> run_id r = id ->
             t0 <= ran_at r /\ run_callback r = callback).

(** Steps during which an open transaction stays open. *)
Definition keeps_tx_open (steps : list Step) : bool :=
  forallb (fun s => match s with Commit | Rollback => false | _ => true end) steps.

(** Closure [id] sits on the open transaction's commit listeners, once,
    and nowhere else. *)
Definition waiting (id : nat) (callback : Callback) (delay : nat) (w : World) : Prop :=
  id < nextId w /\
  count_timers id w = 0 /\ count_ran id w = 0 /\ count_listeners id w = 1 /\
  (forall r, In r (listeners_of w) -> runner_id r = id ->
             runner_callback r = callback /\ runner_delay r = delay).

(** [transactionCtx] is still [null]: [getTransactionCtx] has not been
    called yet. *)
Definition ctx_unset (w : World) : bool :=
  match transactionCtx w with None => true | Some _ => false end.

(** The transaction context can be had: it is cached, or the module
    loads. *)
Definition ctx_obtainable (txModule : bool) (w : World) : Prop :=
  transactionCtx w = Some StoreTxCtx \/ (transactionCtx w = None /\ txModule = true).
End Scheduler.

(* ===================================================================== *)
(** ** bootstrap/lifecycle.js: emission coordinator                        *)
(* ===================================================================== *)

Inductive Level : Type := Debug | Warn | Error.

(** One call of [strapi.log.<level>(text, detail)]. *)
Record LogEntry : Type := { level : Level; text : string; detail : option string }.

(** The argument of [strapi.$io.emit]. *)
Record Envelope : Type := {
  env_event : string;
  env_schema : ModelInfo;
  env_data : JSValue
}.

(** The argument of [strapi.$io.raw]. *)
Record RawMessage : Type := { raw_event : string; raw_data : JSValue }.

(** What the coordinator does to the outside, in order. *)
Inductive Effect : Type :=
| Logged (entry : LogEntry)
| FindOne (uid documentId populate : JSValue)
| FindMany (uid query : JSValue)
| Emit (envelope : Envelope)
| Raw (msg : RawMessage).

(** Modelled from the spec: the collaborators, as oracles.  Whether the
    transaction-context module loads; what the store's read API
    ([strapi.documents(uid).findOne] / [findMany]) answers, a failure being
    a thrown error; whether the channel ([strapi.$io.emit], [strapi.$io.raw])
    throws; and what the store has left in [event.result] when a deferred
    callback reads it, for the event object a hook received as [event]
    (the store owns that object and may have written to it since). *)
Record Host : Type := {
  txModule : bool;
  findOne : JSValue -> JSValue -> JSValue -> Completion JSValue;
  findMany : JSValue -> JSValue -> Completion JSValue;
  io_emit : Envelope -> Completion unit;
  io_raw : RawMessage -> Completion unit;
  later_result : Event -> JSValue
}.

(** Code with effects that may throw: the effects so far and how it ended. *)
Definition Act (A : Type) : Type := (list Effect * Completion A)%type.

Definition ret {A} (a : A) : Act A := ([], Normal a).

Definition bind {A B} (m : Act A) (k : A -> Act B) : Act B :=
  match m with
  | (t, Normal a) => let (t', r) := k a in (t ++ t', r)
  | (t, Throw e) => (t, Throw e)
  end.

Definition lift {A} (c : Completion A) : Act A := ([], c).

(** A call to a collaborator: recorded, then completes as the oracle says. *)
Definition call {A} (e : Effect) (c : Completion A) : Act A := ([e], c).

Definition log (l : Level) (t : string) (d : option string) : Act unit :=
  ([Logged {| level := l; text := t; detail := d |}], Normal tt).

(** [try { m } catch (error) { handler error }] *)
Definition try_catch {A} (m : Act A) (handler : JSError -> Act A) : Act A :=
  match m with
  | (t, Throw e) => let (t', r) := handler e in (t ++ t', r)
  | (t, Normal a) => (t, Normal a)
  end.

Declare Scope act_scope.
Delimit Scope act_scope with act.
Notation "x <- c ;; k" := (bind c (fun x => k))
  (at level 61, c at next level, right associativity) : act_scope.
Notation "c ;;; k" := (bind c (fun _ => k))
  (at level 61, right associativity) : act_scope.

(** [items.forEach(f)] *)
Fixpoint for_each {A} (items : list A) (f : A -> Act unit) : Act unit :=
  match items with
  | [] => ret tt
  | x :: rest => (f x ;;; for_each rest f)%act
  end.

(** [populateConfig !== undefined] *)
Definition hasPopulate (populateConfig : JSValue) : bool :=
  match populateConfig with JUndefined => false | _ => true end.

(** [fetchWithPopulate(strapi, uid, documentId, populateConfig)] *)
Definition fetchWithPopulate (h : Host) (uid documentId populateConfig : JSValue)
  : Act JSValue :=
  if negb (truthy documentId)
  then (log Debug ("[socket.io] Cannot fetch without documentId for " ++ to_string uid)
            None ;;;
        ret JNull)%act
  else
    try_catch
      (let populate := normalizePopulate populateConfig in
       result <- call (FindOne uid documentId populate)
                      (findOne h uid documentId populate) ;;
       ret result)%act
      (fun error =>
         log Debug ("[socket.io] Error fetching with populate for " ++ to_string uid ++ ":")
             (Some (message error)) ;;;
         ret JNull)%act.

(** The closures handed to [scheduleAfterTransaction], with the variables
    they capture.  [event] is captured by reference and stands for the
    event object: the callback reads [event.result] when it runs, which is
    the host's [later_result] for that object. *)
Inductive Task : Type :=
| CreateTask (uid populateConfig documentId : JSValue) (modelInfo : ModelInfo)
             (event : Event)
| CreateManyTask (uid clonedQuery : JSValue) (modelInfo : ModelInfo)
| UpdateTask (uid populateConfig documentId : JSValue) (modelInfo : ModelInfo)
             (event : Event)
| UpdateManyTask (uid query : JSValue) (modelInfo : ModelInfo)
| DeleteTask (uid deleteData : JSValue) (modelInfo : ModelInfo).

(** The [try] block of the [afterCreate] and [afterUpdate] callbacks (the
    two differ in [eventType] only).  [JSON.parse(JSON.stringify(event.result))]
    is evaluated here, in the callback. *)
Definition emit_single (h : Host) (eventType : string)
           (uid populateConfig documentId : JSValue) (modelInfo : ModelInfo)
           (event : Event) : Act unit :=
  (data <- (if hasPopulate populateConfig && truthy documentId
            then data <- fetchWithPopulate h uid documentId populateConfig ;;
                 if negb (truthy data)
                 then lift (json_clone (later_result h event))
                 else ret data
            else lift (json_clone (later_result h event))) ;;
   let envelope := {| env_event := eventType; env_schema := modelInfo;
                      env_data := data |} in
   call (Emit envelope) (io_emit h envelope))%act.

(** The [try] block of the [afterCreateMany] and [afterUpdateMany]
    callbacks. *)
Definition emit_many (h : Host) (eventType : string) (uid query : JSValue)
           (modelInfo : ModelInfo) : Act unit :=
  (records <- call (FindMany uid query) (findMany h uid query) ;;
   match records with
   | JArr rows =>
       for_each rows
         (fun r =>
            let envelope :=
              {| env_event := eventType;
                 env_schema := {| singularName := singularName modelInfo;
                                  model_uid := model_uid modelInfo |};
                 env_data := r |} in
            call (Emit envelope) (io_emit h envelope))
   | _ => lift (Throw {| kind := TypeError;
                         message := "records.forEach is not a function" |})
   end)%act.

(** Running a scheduled callback. *)
Definition task_body (h : Host) (t : Task) : Act unit :=
  match t with
  | CreateTask uid populateConfig documentId modelInfo event =>
      try_catch (emit_single h "create" uid populateConfig documentId modelInfo event)
        (fun error =>
           log Error ("[socket.io] Could not emit create event for " ++ to_string uid ++ ":")
               (Some (message error)))
  | CreateManyTask uid clonedQuery modelInfo =>
      try_catch (emit_many h "create" uid clonedQuery modelInfo)
        (fun error =>
           log Debug ("[socket.io] Could not fetch records in afterCreateMany for "
                      ++ to_string uid ++ ":")
               (Some (message error)))
  | UpdateTask uid populateConfig documentId modelInfo event =>
      try_catch (emit_single h "update" uid populateConfig documentId modelInfo event)
        (fun error =>
           log Debug ("[socket.io] Could not emit update event for " ++ to_string uid ++ ":")
               (Some (message error)))
  | UpdateManyTask uid query modelInfo =>
      try_catch (emit_many h "update" uid query modelInfo)
        (fun error =>
           log Debug ("[socket.io] Could not fetch records in afterUpdateMany for "
                      ++ to_string uid ++ ":")
               (Some (message error)))
  | DeleteTask uid deleteData modelInfo =>
      try_catch
        (let eventType := "delete" in
         let eventName := (singularName modelInfo ++ ":" ++ eventType)%string in
         let msg := {| raw_event := eventName; raw_data := deleteData |} in
         call (Raw msg) (io_raw h msg))
        (fun error =>
           log Error ("[socket.io] Could not emit delete event for " ++ to_string uid ++ ":")
               (Some (message error)))
  end.

Definition run_task (h : Host) (t : Task) : list Effect := fst (task_body h t).

(** The effects of everything that has run so far. *)
Definition published (h : Host) (w : World Task) : list Effect :=
  flat_map (fun r => run_task h (run_callback r)) (ran w).

(** What a hook handler leaves behind: how its promise settled, what it
    did before returning, the scheduler afterwards, and the event's state
    bag afterwards. *)
Record HookResult : Type := {
  completion : Completion unit;
  immediate : list Effect;
  world_after : World Task;
  state_after : list (string * JSValue)
}.

Definition Handler : Type := Event -> World Task -> HookResult.

Definition rejected (event : Event) (w : World Task) (e : JSError) : HookResult :=
  {| completion := Throw e; immediate := []; world_after := w;
     state_after := state event |}.

Definition skipped (event : Event) (w : World Task) (effects : list Effect)
  : HookResult :=
  {| completion := Normal tt; immediate := effects; world_after := w;
     state_after := state event |}.

Definition scheduled (h : Host) (event : Event) (w : World Task)
           (t : Task) (delay : nat) : HookResult :=
  {| completion := Normal tt; immediate := [];
     world_after := scheduleAfterTransaction (txModule h) t delay w;
     state_after := state event |}.

Definition no_result_data (hook : string) (uid : JSValue) : list Effect :=
  [Logged {| level := Debug;
             text := "[socket.io] No result data in " ++ hook ++ " for " ++ to_string uid;
             detail := None |}].

(** [subscriber.afterCreate] *)
Definition afterCreate (h : Host) (uid populateConfig : JSValue) : Handler :=
  fun event w =>
    if negb (truthy (result event))
    then skipped event w (no_result_data "afterCreate" uid)
    else
      let documentId := get_opt (result event) "documentId" in
      let modelInfo := {| singularName := singularName (model event);
                          model_uid := model_uid (model event) |} in
      scheduled h event w
        (CreateTask uid populateConfig documentId modelInfo event)
        (if hasPopulate populateConfig then 50 else 0).

(** [subscriber.afterCreateMany] *)
Definition afterCreateMany (h : Host) (uid populateConfig : JSValue) : Handler :=
  fun event w =>
    match buildEventQuery event with
    | Throw e => rejected event w e
    | Normal query =>
        match get query "filters" with
        | Throw e => rejected event w e
        | Normal filters =>
            if truthy filters
            then
              match json_clone query with
              | Throw e => rejected event w e
              | Normal clonedQuery =>
                  let modelInfo := {| singularName := singularName (model event);
                                      model_uid := model_uid (model event) |} in
                  match (if hasPopulate populateConfig
                         then put clonedQuery "populate" (normalizePopulate populateConfig)
                         else Normal clonedQuery) with
                  | Throw e => rejected event w e
                  | Normal clonedQuery =>
                      scheduled h event w (CreateManyTask uid clonedQuery modelInfo) 50
                  end
              end
            else skipped event w []
        end
    end.

(** [subscriber.afterUpdate] *)
Definition afterUpdate (h : Host) (uid populateConfig : JSValue) : Handler :=
  fun event w =>
    if negb (truthy (result event))
    then skipped event w (no_result_data "afterUpdate" uid)
    else
      let documentId := get_opt (result event) "documentId" in
      let modelInfo := {| singularName := singularName (model event);
                          model_uid := model_uid (model event) |} in
      scheduled h event w
        (UpdateTask uid populateConfig documentId modelInfo event)
        (if hasPopulate populateConfig then 50 else 0).

(** [subscriber.beforeUpdateMany] *)
Definition beforeUpdateMany (h : Host) (uid populateConfig : JSValue) : Handler :=
  fun event w =>
    let st := state event in
    let st := if negb (truthy (get_opt (JObj st) "io"))
              then set_prop "io" (JObj []) st
              else st in
    match put (get_opt (JObj st) "io") "params" (params event) with
    | Throw e =>
        {| completion := Throw e; immediate := []; world_after := w;
           state_after := st |}
    | Normal io =>
        {| completion := Normal tt; immediate := []; world_after := w;
           state_after := set_prop "io" io st |}
    end.

(** [subscriber.afterUpdateMany] *)
Definition afterUpdateMany (h : Host) (uid populateConfig : JSValue) : Handler :=
  fun event w =>
    let params := get_opt (get_opt (JObj (state event)) "io") "params" in
    if negb (truthy params) || negb (truthy (get_opt params "where"))
    then skipped event w []
    else
      match json_clone (get_opt params "where") with
      | Throw e => rejected event w e
      | Normal clonedWhere =>
          let modelInfo := {| singularName := singularName (model event);
                              model_uid := model_uid (model event) |} in
          let query := [("filters", clonedWhere)] in
          let query := if hasPopulate populateConfig
                       then set_prop "populate" (normalizePopulate populateConfig) query
                       else query in
          scheduled h event w (UpdateManyTask uid (JObj query) modelInfo) 50
      end.

(** [subscriber.afterDelete] *)
Definition afterDelete (h : Host) (uid populateConfig : JSValue) : Handler :=
  fun event w =>
    if negb (truthy (result event))
    then skipped event w (no_result_data "afterDelete" uid)
    else
      let deleteData :=
        JObj [("id", js_or (get_opt (result event) "id")
                           (get_opt (result event) "documentId"));
              ("documentId", js_or (get_opt (result event) "documentId")
                                   (get_opt (result event) "id"))] in
      let modelInfo := {| singularName := singularName (model event);
                          model_uid := model_uid (model event) |} in
      scheduled h event w (DeleteTask uid deleteData modelInfo) 100.

(** The object passed to [strapi.db.lifecycles.subscribe]. *)
Record Subscriber : Type := {
  models : list JSValue;
  hooks : list (string * Handler)
}.

Fixpoint hook_of (name : string) (hs : list (string * Handler)) : option Handler :=
  match hs with
  | [] => None
  | (n, f) :: rest => if n =? name then Some f else hook_of name rest
  end.

(** [!ct.actions || ct.actions.includes(name)].  [includes] exists on
    arrays and strings only. *)
Definition action_enabled (actions : JSValue) (name : string) : Completion bool :=
  if negb (truthy actions) then Normal true
  else
    match actions with
    | JArr items =>
        Normal (existsb (fun x => match x with JStr s => s =? name | _ => false end)
                        items)
    | JStr s => Normal (includes s name)
    | _ => Throw {| kind := TypeError;
                    message := "ct.actions.includes is not a function" |}
    end.

(** The body of the [forEach] in [bootstrapLifecycles], up to the call of
    [subscribe]. *)
Definition subscriber_for (h : Host) (ct : JSValue) : Completion Subscriber :=
  (ct_uid <- get ct "uid" ;;
   let uid := if truthy ct_uid then ct_uid else ct in
   populateConfig <- get ct "populate" ;;
   let hs := [] in
   actions <- get ct "actions" ;;
   on_create <- action_enabled actions "create" ;;
   let hs := if on_create : bool
             then hs ++ [("afterCreate", afterCreate h uid populateConfig);
                         ("afterCreateMany", afterCreateMany h uid populateConfig)]
             else hs in
   on_update <- action_enabled actions "update" ;;
   let hs := if on_update : bool
             then hs ++ [("afterUpdate", afterUpdate h uid populateConfig);
                         ("beforeUpdateMany", beforeUpdateMany h uid populateConfig);
                         ("afterUpdateMany", afterUpdateMany h uid populateConfig)]
             else hs in
   on_delete <- action_enabled actions "delete" ;;
   let hs := if on_delete : bool
             then hs ++ [("afterDelete", afterDelete h uid populateConfig)]
             else hs in
   Normal {| models := [uid]; hooks := hs |})%completion.

(** [bootstrapLifecycles({ strapi })]: the subscribers registered, in
    order, and how the [forEach] ended. *)
Fixpoint bootstrapLifecycles (h : Host) (contentTypes : list JSValue)
  : list Subscriber * Completion unit :=
  match contentTypes with
  | [] => ([], Normal tt)
  | ct :: rest =>
      match subscriber_for h ct with
      | Throw e => ([], Throw e)
      | Normal s =>
          let (subs, c) := bootstrapLifecycles h rest in (s :: subs, c)
      end
  end.

(** Modelled from the spec: the store firing a lifecycle event at a
    subscriber.  The handler named by the event's action is called when
    the subscriber has one and listens to the event's model. *)
Definition fire (s : Subscriber) (event : Event) (w : World Task) : HookResult :=
  if existsb (fun m => match m with
                       | JStr u => u =? model_uid (model event)
                       | _ => false
                       end) (models s)
  then match hook_of (action event) (hooks s) with
       | Some handler => handler event w
       | None => skipped event w []
       end
  else skipped event w [].

(* ===================================================================== *)
(** ** Observing effects; the statements as the specification words them   *)
(* ===================================================================== *)

Definition is_log (e : Effect) : bool :=
  match e with Logged _ => true | _ => false end.

(** The calls made to the store's read API and to the channel. *)
Definition calls (effects : list Effect) : list Effect :=
  filter (fun e => negb (is_log e)) effects.

(** The queries handed to [findMany]. *)
Definition queries (effects : list Effect) : list JSValue :=
  flat_map (fun e => match e with FindMany _ q => [q] | _ => [] end) effects.

(** The callbacks waiting in the timer queue. *)
Definition pending_tasks (w : World Task) : list Task :=
  map (@timer_callback Task) (timers w).

(** [{ singularName: event.model.singularName, uid: event.model.uid }] *)
Definition modelInfo_of (event : Event) : ModelInfo :=
  {| singularName := singularName (model event);
     model_uid := model_uid (model event) |}.

(** A re-fetch that threw or returned nothing. *)
Definition refetch_failed (c : Completion JSValue) : bool :=
  match c with
  | Throw _ => true
  | Normal v => negb (truthy v)
  end.

(** Values [JSON.stringify] renders in full: no [undefined] inside. *)
Fixpoint json_data (v : JSValue) : bool :=
  match v with
  | JUndefined => false
  | JArr items => forallb json_data items
  | JObj props => forallb (fun kv => json_data (snd kv)) props
  | _ => true
  end.

(** A property that is present on an object, whatever its value. *)
Definition present (v : JSValue) (k : string) : option JSValue :=
  match v with
  | JObj props => own_prop k props
  | _ => None
  end.

(** The limit rule in the words of the specification: the result count
    when present, otherwise the caller's limit when present, otherwise
    no limit. *)
Definition limit_as_stated (event : Event) : option JSValue :=
  match present (result event) "count" with
  | Some c => Some c
  | None => present (params event) "limit"
  end.

(** [query.populate = normalizePopulate(populateConfig)] when a populate
    is configured. *)
Definition with_populate (populateConfig query : JSValue) : Completion JSValue :=
  if hasPopulate populateConfig
  then put query "populate" (normalizePopulate populateConfig)
  else Normal query.

(** The read-back query of a bulk event in the words of the
    specification: the query builder's query for the event, with the
    normalized populate added when configured. *)
Definition read_back_as_stated (populateConfig : JSValue) (event : Event)
  : Completion JSValue :=
  (query <- buildEventQuery event ;; with_populate populateConfig query)%completion.

(* ===================================================================== *)
(** ** Sample inputs                                                       *)
(* ===================================================================== *)

Definition sample_fields : list string := getSensitiveFields ["ssn"].

Definition sample_payload : JSValue :=
  JObj [("id", JNum 7);
        ("user", JObj [("name", JStr "ada");
                       ("passwordHash", JStr "x");
                       ("sessions", JArr [JObj [("user_Token", JStr "t");
                                                ("ip", JNull)]])])].
Definition article : ModelInfo :=
  {| singularName := "article"; model_uid := "api::article.article" |}.

(** A bulk update that matched nothing, called with a limit of 5. *)
Definition zero_count_event : Event :=
  {| action := "afterUpdateMany"; model := article;
     params := JObj [("where", JObj [("draft", JBool true)]); ("limit", JNum 5)];
     result := JObj [("count", JNum 0)];
     state := [] |}.

(** A bulk create of two rows. *)
Definition bulk_create_event : Event :=
  {| action := "afterCreateMany"; model := article;
     params := JObj [("data", JArr [JObj [("title", JStr "a")];
                                    JObj [("title", JStr "b")]])];
     result := JObj [("count", JNum 2); ("ids", JArr [JNum 11; JNum 12])];
     state := [] |}.

(** A bulk update of two rows. *)
Definition bulk_update_event : Event :=
  {| action := "afterUpdateMany"; model := article;
     params := JObj [("where", JObj [("draft", JBool true)]);
                     ("data", JObj [("draft", JBool false)])];
     result := JObj [("count", JNum 2)];
     state := [] |}.

Definition article_rows : list JSValue :=
  [JObj [("id", JNum 11); ("documentId", JStr "d11"); ("title", JStr "a")];
   JObj [("id", JNum 12); ("documentId", JStr "d12"); ("title", JStr "b")]].

(** A host whose transaction context loads, whose [findMany] answers two
    rows, whose [findOne] throws, whose channel accepts everything, and
    whose store leaves the event as the hook received it. *)
Definition sample_host : Host :=
  {| txModule := true;
     findOne := fun _ _ _ => Throw {| kind := HostError; message := "connection lost" |};
     findMany := fun _ _ => Normal (JArr article_rows);
     io_emit := fun _ => Normal tt;
     io_raw := fun _ => Normal tt;
     later_result := result |}.

(** The same host, without a transaction-context module. *)
Definition bare_host : Host :=
  {| txModule := false;
     findOne := findOne sample_host;
     findMany := findMany sample_host;
     io_emit := io_emit sample_host;
     io_raw := io_raw sample_host;
     later_result := result |}.

(** A single-record write of an article. *)
Definition article_result : JSValue :=
  JObj [("id", JNum 11); ("documentId", JStr "d11"); ("title", JStr "a");
        ("password", JStr "p")].

Definition update_event : Event :=
  {| action := "afterUpdate"; model := article;
     params := JObj [("data", JObj [("title", JStr "a")])];
     result := article_result;
     state := [] |}.

Definition delete_event : Event :=
  {| action := "afterDelete"; model := article;
     params := JObj [("where", JObj [("id", JNum 11)])];
     result := article_result;
     state := [] |}.
(** A bulk-create event that carries no result. *)
Definition bulk_create_without_result (m : ModelInfo)
           (p st : list (string * JSValue)) (r : JSValue) : Event :=
  {| action := "afterCreateMany"; model := m; params := JObj p;
     result := r; state := st |}.
(** [{ uid: 'api::article.article', actions: ['delete'] }] *)
Definition delete_only_content_type : JSValue :=
  JObj [("uid", JStr "api::article.article"); ("actions", JArr [JStr "delete"])].

(** A bulk delete of the drafts. *)
Definition bulk_delete_event : Event :=
  {| action := "afterDeleteMany"; model := article;
     params := JObj [("where", JObj [("draft", JBool true)])];
     result := JObj [("count", JNum 2)];
     state := [] |}.
(** The bulk update, as [afterUpdateMany] receives it: with the state bag
    left by [beforeUpdateMany]. *)
Definition captured_bulk_update_event : Event :=
  with_state bulk_update_event
    (state_after (beforeUpdateMany sample_host (JStr "api::article.article")
                                   JUndefined bulk_update_event
                                   (initial_world Task))).
(** A world in which a transaction has just been opened. *)
Definition open_tx_world : World string := begin (initial_world string).

(* ===================================================================== *)
(** ** services/sanitize.js: the schema-aware entry point                  *)
(* ===================================================================== *)

Section SanitizerOutput.
Variable toLowerCase : string -> string.

(** [output({ schema, data, options })].  [contentAPI] is
    [sanitize?.contentAPI?.output] of [@strapi/utils]: [None] when it is
    missing, otherwise what it answers, a failure being a thrown error.
    The result is what was logged and the sanitized data. *)
Definition output
           (contentAPI : option (JSValue -> JSValue -> JSValue -> Completion JSValue))
           (customFields : list string) (schema data options : JSValue)
  : list Effect * JSValue :=
  let attempt :=
    match contentAPI with
    | Some sanitizer =>
        match sanitizer data schema options with
        | Normal sanitizedData => ([], sanitizedData)
        | Throw error =>
            ([Logged {| level := Debug;
                        text := "[socket.io] Content API sanitization failed: "
                                ++ message error;
                        detail := None |}],
             data)
        end
    | None => ([], data)
    end in
  let sensitiveFields := getSensitiveFields customFields in
  (fst attempt, removeSensitiveFields toLowerCase (snd attempt) sensitiveFields).

(** A value the sanitizer has nothing to do on: distinct keys in every
    object, none of them sensitive, none of them [__proto__]. *)
Fixpoint clean (fields : list string) (v : JSValue) : bool :=
  match v with
  | JArr items => forallb (clean fields) items
  | JObj props =>
      NoDupb (map fst props) &&
      forallb (fun kv => negb (is_sensitive toLowerCase (fst kv) fields)
                         && negb (fst kv =? "__proto__")
                         && clean fields (snd kv)) props
  | _ => true
  end.
End SanitizerOutput.

(* ===================================================================== *)
(** ** config/schema.js                                                    *)
(* ===================================================================== *)

(** The values a schema accepts.  [z.literal] compares with [===],
    [z.string] accepts every string, [z.array(t)] an array whose elements
    [t] accepts, [z.record(z.any())] any plain object, [z.union] a value
    one of its members accepts, [.optional()] also [undefined] (a missing
    key), [z.object] an object whose listed keys are accepted. *)

Definition z_string (v : JSValue) : bool :=
  match v with JStr _ => true | _ => false end.

Definition z_array (t : JSValue -> bool) (v : JSValue) : bool :=
  match v with JArr items => forallb t items | _ => false end.

Definition z_optional (t : JSValue -> bool) (v : JSValue) : bool :=
  match v with JUndefined => true | _ => t v end.

(** [ContentTypeAction = z.enum(['create', 'update', 'delete'])] *)
Definition ContentTypeAction (v : JSValue) : bool :=
  match v with
  | JStr s => (s =? "create") || (s =? "update") || (s =? "delete")
  | _ => false
  end.

(** [PopulateConfig = z.union([z.literal('*'), z.literal(true),
                               z.array(z.string()), z.record(z.any())])] *)
Definition PopulateConfig (v : JSValue) : bool :=
  match v with
  | JStr s => s =? "*"
  | JBool b => b
  | JArr _ => z_array z_string v
  | JObj _ => true
  | _ => false
  end.

(** [ContentType = z.object({ uid: z.string(),
                              actions: z.array(ContentTypeAction).optional(),
                              populate: PopulateConfig.optional() })] *)
Definition ContentType (v : JSValue) : bool :=
  match v with
  | JObj _ =>
      z_string (get_opt v "uid")
      && z_optional (z_array ContentTypeAction) (get_opt v "actions")
      && z_optional PopulateConfig (get_opt v "populate")
  | _ => false
  end.

(** [contentTypes: z.array(z.union([z.string(), ContentType]))] *)
Definition contentTypes_schema (contentTypes : list JSValue) : bool :=
  forallb (fun ct => z_string ct || ContentType ct) contentTypes.

(* ===================================================================== *)
(** ** Further observations and sample inputs                              *)
(* ===================================================================== *)

(** The envelopes handed to [strapi.$io.emit]. *)
Definition emitted (effects : list Effect) : list Envelope :=
  flat_map (fun e => match e with Emit envelope => [envelope] | _ => [] end) effects.

(** The log entries written. *)
Definition logs (effects : list Effect) : list LogEntry :=
  flat_map (fun e => match e with Logged entry => [entry] | _ => [] end) effects.

(** The fallback of a single-record callback in the words of the
    specification: the failed re-fetch is logged, and one envelope is
    published, carrying a deep clone of the result the hook captured. *)
Definition fallback_as_stated (eventType : string) (event : Event)
           (effects : list Effect) : Prop :=
  logs effects <> [] /\
  emitted effects =
    [{| env_event := eventType; env_schema := modelInfo_of event;
        env_data := jsonify (result event) |}].

(** [null] or [undefined]. *)
Definition nullish (v : JSValue) : bool :=
  match v with JUndefined | JNull => true | _ => false end.

(** A content-API sanitizer that always fails. *)
Definition failing_contentAPI : JSValue -> JSValue -> JSValue -> Completion JSValue :=
  fun _ _ _ => Throw {| kind := HostError; message := "no schema" |}.

(** A host whose channel rejects the row titled ["b"]. *)
Definition picky_host : Host :=
  {| txModule := true;
     findOne := fun _ _ _ => Normal article_result;
     findMany := fun _ _ => Normal (JArr article_rows);
     io_emit := fun envelope =>
                  match get_opt (env_data envelope) "title" with
                  | JStr "b" => Throw {| kind := HostError; message := "closed" |}
                  | _ => Normal tt
                  end;
     io_raw := fun _ => Normal tt;
     later_result := result |}.

(** A bulk create whose result reports a count and no ids, called with a
    [where] of its own. *)
Definition count_only_create_event : Event :=
  {| action := "afterCreateMany"; model := article;
     params := JObj [("where", JObj [("draft", JBool true)])];
     result := JObj [("count", JNum 2)];
     state := [] |}.

(** A host whose channel rejects everything. *)
Definition rejecting_host : Host :=
  {| txModule := true;
     findOne := findOne sample_host;
     findMany := findMany sample_host;
     io_emit := fun _ => Throw {| kind := HostError; message := "closed" |};
     io_raw := fun _ => Throw {| kind := HostError; message := "closed" |};
     later_result := result |}.

(** The picky host, with a store that answers the given rows. *)
Definition host_answering (rows : list JSValue) : Host :=
  {| txModule := true;
     findOne := findOne picky_host;
     findMany := fun _ _ => Normal (JArr rows);
     io_emit := io_emit picky_host;
     io_raw := io_raw picky_host;
     later_result := result |}.


(** A host whose store finds no record to re-fetch. *)
Definition empty_handed_host : Host :=
  {| txModule := true;
     findOne := fun _ _ _ => Normal JNull;
     findMany := findMany sample_host;
     io_emit := fun _ => Normal tt;
     io_raw := fun _ => Normal tt;
     later_result := result |}.

(** What the store has made of the article by the time the callback runs. *)
Definition rewritten_result : JSValue :=
  JObj [("id", JNum 11); ("documentId", JStr "d11"); ("title", JStr "z")].

(** The sample host, with a store that has written to the event after the
    hook returned. *)
Definition rewriting_host : Host :=
  {| txModule := true;
     findOne := findOne sample_host;
     findMany := findMany sample_host;
     io_emit := fun _ => Normal tt;
     io_raw := fun _ => Normal tt;
     later_result := fun _ => rewritten_result |}.

(** The rewriting host, with a store that answers the re-fetch and a
    channel that rejects everything. *)
Definition rewriting_picky_host : Host :=
  {| txModule := true;
     findOne := findOne picky_host;
     findMany := findMany picky_host;
     io_emit := fun _ => Throw {| kind := HostError; message := "closed" |};
     io_raw := io_raw picky_host;
     later_result := fun _ => rewritten_result |}.

(** The sample host, with a store that has taken the result off the event
    after the hook returned. *)
Definition clearing_host : Host :=
  {| txModule := true;
     findOne := findOne sample_host;
     findMany := findMany sample_host;
     io_emit := fun _ => Normal tt;
     io_raw := fun _ => Normal tt;
     later_result := fun _ => JUndefined |}.

(** A host whose store cannot be read. *)
Definition offline_host : Host :=
  {| txModule := true;
     findOne := findOne sample_host;
     findMany := fun _ _ => Throw {| kind := HostError; message := "offline" |};
     io_emit := fun _ => Normal tt;
     io_raw := fun _ => Normal tt;
     later_result := result |}.

(* ===================================================================== *)
(** * Properties                                                           *)
(* ===================================================================== *)

(** ** Strings and property lists *)

Lemma prefix_app (sub s : string) :
  String.prefix sub s = true <-> exists post, s = (sub ++ post)%string.
Proof.
  revert s; induction sub as [|c sub IH]; intros s; simpl.
  - split; [intros _; exists s; reflexivity | intros _; destruct s; reflexivity].
  - destruct s as [|d s]; simpl.
    + split; [discriminate | intros [post H]; discriminate].
    + destruct (Ascii.ascii_dec c d) as [->|Hne].
      * rewrite IH. split; intros [post H]; exists post.
        -- now rewrite H.
        -- now inversion H.
      * split; [discriminate|].
        intros [post H]; inversion H; congruence.
Qed.

(** [includes] decides "occurs as a substring". *)
Lemma includes_spec (s sub : string) :
  includes s sub = true <-> exists pre post, s = (pre ++ sub ++ post)%string.
Proof.
  induction s as [|c s IH].
  - change (includes EmptyString sub) with (String.prefix sub EmptyString || false).
    rewrite orb_false_r, prefix_app. split.
    + intros [post H]. exists EmptyString, post. exact H.
    + intros [pre [post H]]. destruct pre; simpl in H.
      * now exists post.
      * discriminate.
  - change (includes (String c s) sub)
      with (String.prefix sub (String c s) || includes s sub).
    rewrite orb_true_iff, prefix_app, IH. split.
    + intros [[post H] | [pre [post H]]].
      * exists EmptyString, post. exact H.
      * exists (String c pre), post. simpl. now rewrite H.
    + intros [pre [post H]]. destruct pre as [|d pre]; simpl in H.
      * left. now exists post.
      * right. inversion H. now exists pre, post.
Qed.

Lemma own_prop_assign_same k v props :
  own_prop k (assign_prop k v props) = Some v.
Proof.
  induction props as [|[k' v'] rest IH]; simpl.
  - now rewrite String.eqb_refl.
  - destruct (k' =? k) eqn:E; simpl.
    + now rewrite String.eqb_refl.
    + now rewrite E.
Qed.

Lemma own_prop_assign_other k k0 v props :
  k0 <> k -> own_prop k (assign_prop k0 v props) = own_prop k props.
Proof.
  intros Hne. induction props as [|[k' v'] rest IH]; simpl.
  - destruct (k0 =? k) eqn:E; [apply String.eqb_eq in E; congruence | reflexivity].
  - destruct (k' =? k0) eqn:E; simpl.
    + apply String.eqb_eq in E; subst k'.
      destruct (k0 =? k) eqn:E'; [apply String.eqb_eq in E'; congruence | reflexivity].
    + now rewrite IH.
Qed.

Lemma Forall_assign_prop (Q : string * JSValue -> Prop) k v props :
  Forall Q props -> Q (k, v) -> Forall Q (assign_prop k v props).
Proof.
  intros HF HQ. induction HF as [|[k' v'] rest Hx HF IH]; simpl.
  - constructor; [exact HQ | constructor].
  - destruct (k' =? k); constructor; auto.
Qed.

Lemma Forall_set_prop (Q : string * JSValue -> Prop) k v props :
  Forall Q props -> Q (k, v) -> Forall Q (set_prop k v props).
Proof.
  intros HF HQ. unfold set_prop. destruct (k =? "__proto__"); auto using Forall_assign_prop.
Qed.

Lemma own_prop_notin k (props : list (string * JSValue)) :
  existsb (String.eqb k) (map fst props) = false -> own_prop k props = None.
Proof.
  induction props as [|[k' v'] rest IH]; simpl; [reflexivity|].
  rewrite orb_false_iff. intros [H1 H2].
  rewrite String.eqb_sym, H1. auto.
Qed.

(** ** Sanitizer *)

Section SanitizerProperties.
Variable toLowerCase : string -> string.
Variable fields : list string.

Lemma sanitize_obj props :
  removeSensitiveFields toLowerCase (JObj props) fields =
  JObj (fold_left (sanitize_entry toLowerCase fields) props []).
Proof. reflexivity. Qed.

Lemma sanitize_arr items :
  removeSensitiveFields toLowerCase (JArr items) fields =
  JArr (map (fun item => removeSensitiveFields toLowerCase item fields) items).
Proof. reflexivity. Qed.

Lemma sanitize_primitive v :
  is_primitive v = true -> removeSensitiveFields toLowerCase v fields = v.
Proof.
  destruct v; simpl; try discriminate; intros _;
    repeat match goal with |- context [if ?c then _ else _] => destruct c end;
    reflexivity.
Qed.

(** The inner test [value && typeof value === 'object'] only skips values
    that the recursive call would return as they are. *)
Lemma sanitize_entry_value v :
  (if truthy v && typeof_object v
   then removeSensitiveFields toLowerCase v fields else v) =
  removeSensitiveFields toLowerCase v fields.
Proof.
  destruct v; simpl;
    repeat match goal with |- context [if ?c then _ else _] => destruct c end;
    reflexivity.
Qed.

Lemma sanitize_entry_eq result kv :
  sanitize_entry toLowerCase fields result kv =
  if is_sensitive toLowerCase (fst kv) fields then result
  else set_prop (fst kv) (removeSensitiveFields toLowerCase (snd kv) fields) result.
Proof.
  unfold sanitize_entry. destruct (is_sensitive toLowerCase (fst kv) fields); [reflexivity|].
  rewrite <- (sanitize_entry_value (snd kv)).
  destruct (truthy (snd kv) && typeof_object (snd kv)); reflexivity.
Qed.

Lemma is_sensitive_intro K F :
  In F fields ->
  (toLowerCase K = toLowerCase F \/
   exists pre post, toLowerCase K = (pre ++ toLowerCase F ++ post)%string) ->
  is_sensitive toLowerCase K fields = true.
Proof.
  intros HIn HK. unfold is_sensitive. apply existsb_exists.
  exists F. split; [exact HIn|]. apply orb_true_iff.
  destruct HK as [Heq | Hsub].
  - left. now apply String.eqb_eq.
  - right. now apply includes_spec.
Qed.

Lemma fold_sanitize_entry_Forall (Q : string * JSValue -> Prop) props acc :
  Forall Q acc ->
  Forall (fun kv => is_sensitive toLowerCase (fst kv) fields = false ->
                    Q (fst kv, removeSensitiveFields toLowerCase (snd kv) fields))
         props ->
  Forall Q (fold_left (sanitize_entry toLowerCase fields) props acc).
Proof.
  revert acc. induction props as [|kv rest IH]; intros acc Hacc Hprops; simpl.
  - exact Hacc.
  - inversion Hprops as [|? ? Hkv Hrest]; subst.
    apply IH; [|exact Hrest].
    rewrite sanitize_entry_eq.
    destruct (is_sensitive toLowerCase (fst kv) fields) eqn:E; [exact Hacc|].
    apply Forall_set_prop; auto.
Qed.

(** No sensitive key survives, at any depth. *)
Lemma sanitize_removes K :
  is_sensitive toLowerCase K fields = true ->
  forall P, has_key K (removeSensitiveFields toLowerCase P fields) = false.
Proof.
  intros HK P. induction P as [| | | | |items IH|props IH] using JSValue_deep_ind;
    try (rewrite sanitize_primitive by reflexivity; reflexivity).
  - rewrite sanitize_arr. simpl.
    induction IH as [|x rest Hx _ IHrest]; simpl; [reflexivity|].
    now rewrite Hx, IHrest.
  - rewrite sanitize_obj. simpl.
    assert (HF : Forall (fun kv => (fst kv =? K) || has_key K (snd kv) = false)
                        (fold_left (sanitize_entry toLowerCase fields) props [])).
    { apply fold_sanitize_entry_Forall; [constructor|].
      eapply Forall_impl; [|exact IH].
      intros [k v] Hv Hk; simpl in *. rewrite Hv, orb_false_r.
      destruct (k =? K) eqn:E; [|reflexivity].
      apply String.eqb_eq in E; subst k. congruence. }
    induction HF as [|x rest Hx _ IHrest]; simpl; [reflexivity|].
    now rewrite Hx, IHrest.
Qed.

(** Own properties of a sanitized object, for an object with distinct keys. *)
Lemma fold_sanitize_entry_own_prop k props acc :
  NoDupb (map fst props) = true ->
  own_prop k (fold_left (sanitize_entry toLowerCase fields) props acc) =
  match own_prop k props with
  | Some v => if is_sensitive toLowerCase k fields || (k =? "__proto__")
              then own_prop k acc
              else Some (removeSensitiveFields toLowerCase v fields)
  | None => own_prop k acc
  end.
Proof.
  revert acc. induction props as [|[k0 v0] rest IH]; intros acc Hnd; simpl.
  - reflexivity.
  - simpl in Hnd. apply andb_true_iff in Hnd. destruct Hnd as [Hnotin Hnd].
    apply negb_true_iff in Hnotin.
    rewrite (IH _ Hnd), sanitize_entry_eq. simpl.
    destruct (k0 =? k) eqn:E.
    + apply String.eqb_eq in E; subst k0.
      rewrite (own_prop_notin k rest Hnotin).
      destruct (is_sensitive toLowerCase k fields); simpl; [reflexivity|].
      unfold set_prop. destruct (k =? "__proto__"); [reflexivity|].
      apply own_prop_assign_same.
    + assert (Hne : k0 <> k) by (intros ->; rewrite String.eqb_refl in E; discriminate).
      assert (Hacc : own_prop k (if is_sensitive toLowerCase k0 fields then acc
                                 else set_prop k0 (removeSensitiveFields toLowerCase v0 fields) acc)
                     = own_prop k acc).
      { destruct (is_sensitive toLowerCase k0 fields); [reflexivity|].
        unfold set_prop. destruct (k0 =? "__proto__"); [reflexivity|].
        now apply own_prop_assign_other. }
      now rewrite Hacc.
Qed.

Lemma own_prop_well_formed k props x :
  forallb (fun kv => well_formed (snd kv)) props = true ->
  own_prop k props = Some x -> well_formed x = true.
Proof.
  induction props as [|[k' v'] rest IH]; simpl; [discriminate|].
  intros Hall Ek. apply andb_true_iff in Hall. destruct Hall as [Hv Hrest].
  destruct (k' =? k).
  - inversion Ek; subst. exact Hv.
  - now apply IH.
Qed.

(** Whatever is found in the output sits at the same place in the input,
    and is the sanitized form of what was there. *)
Lemma sanitize_lookup p :
  forall P v', well_formed P = true ->
    lookup p (removeSensitiveFields toLowerCase P fields) = Some v' ->
    exists v, lookup p P = Some v /\ v' = removeSensitiveFields toLowerCase v fields.
Proof.
  induction p as [|seg p IH]; intros P v' Hwf Hl.
  - simpl in Hl. inversion Hl. exists P. split; reflexivity.
  - destruct P as [| | | | |items|props];
      try (rewrite sanitize_primitive in Hl by reflexivity;
           destruct seg; simpl in Hl; discriminate).
    + rewrite sanitize_arr in Hl. destruct seg as [k|i]; simpl in Hl; [discriminate|].
      rewrite nth_error_map in Hl.
      destruct (nth_error items i) as [x|] eqn:En; simpl in Hl; [|discriminate].
      simpl in Hwf. rewrite forallb_forall in Hwf.
      destruct (IH x v' (Hwf x (nth_error_In _ _ En)) Hl) as [v [H1 H2]].
      exists v. simpl. rewrite En. auto.
    + rewrite sanitize_obj in Hl. destruct seg as [k|i]; simpl in Hl; [|discriminate].
      simpl in Hwf. apply andb_true_iff in Hwf. destruct Hwf as [Hnd Hall].
      rewrite (fold_sanitize_entry_own_prop k props [] Hnd) in Hl.
      destruct (own_prop k props) as [x|] eqn:Ek; simpl in Hl; [|discriminate].
      destruct (is_sensitive toLowerCase k fields || (k =? "__proto__")); [discriminate|].
      destruct (IH x v' (own_prop_well_formed k props Hall Ek) Hl) as [v [H1 H2]].
      exists v. simpl. rewrite Ek. auto.
Qed.
End SanitizerProperties.

(** C1.  For every payload, whatever its nesting of objects and arrays, and
    every fragment [F] of the sensitive-field set: a key [K] whose lowercase
    form equals lowercase [F] or contains it as a substring occurs nowhere
    in [removeSensitiveFields P fields], at any depth.  Every value found in
    the output sits at the same path in the input and is that input value,
    sanitized in turn; when the input value is not an object or array it is
    the very same value.  Values that are neither objects nor arrays
    ([null] and [undefined] included) are returned unchanged. *)
Theorem removeSensitiveFields_removes_and_preserves
        (toLowerCase : string -> string) (fields : list string) :
  (forall P F K,
      In F fields ->
      (toLowerCase K = toLowerCase F \/
       exists pre post, toLowerCase K = (pre ++ toLowerCase F ++ post)%string) ->
      has_key K (removeSensitiveFields toLowerCase P fields) = false) /\
  (forall P p v',
      well_formed P = true ->
      lookup p (removeSensitiveFields toLowerCase P fields) = Some v' ->
      exists v, lookup p P = Some v /\
                v' = removeSensitiveFields toLowerCase v fields /\
                (is_primitive v = true -> v' = v)) /\
  (forall v, is_primitive v = true ->
             removeSensitiveFields toLowerCase v fields = v).
Proof.
  split; [|split].
  - intros P F K HIn HK. apply sanitize_removes.
    now apply is_sensitive_intro with (F := F).
  - intros P p v' Hwf Hl.
    destruct (sanitize_lookup toLowerCase fields p P Hwf Hl) as [v [H1 H2]].
    exists v. repeat split; auto.
    intros Hp. rewrite H2. now apply sanitize_primitive.
  - intros v Hp. now apply sanitize_primitive.
Qed.

Lemma removeSensitiveFields_removes_and_preserves_witness :
  has_key "passwordHash"
          (removeSensitiveFields ascii_toLowerCase sample_payload sample_fields) = false /\
  has_key "user_Token"
          (removeSensitiveFields ascii_toLowerCase sample_payload sample_fields) = false /\
  (exists v, lookup [Key "user"; Key "sessions"; Idx 0; Key "ip"] sample_payload = Some v /\
             JNull = removeSensitiveFields ascii_toLowerCase v sample_fields /\
             (is_primitive v = true -> JNull = v)) /\
  removeSensitiveFields ascii_toLowerCase JUndefined sample_fields = JUndefined.
Proof.
  pose proof (removeSensitiveFields_removes_and_preserves ascii_toLowerCase sample_fields)
    as [Hremoved [Hkept Hprim]].
  split; [|split; [|split]].
  - apply (Hremoved sample_payload "password" "passwordHash").
    + vm_compute. auto.
    + right. exists EmptyString, "hash". reflexivity.
  - apply (Hremoved sample_payload "token" "user_Token").
    + vm_compute. tauto.
    + right. exists "user_", EmptyString. reflexivity.
  - apply (Hkept sample_payload [Key "user"; Key "sessions"; Idx 0; Key "ip"] JNull).
    + reflexivity.
    + reflexivity.
  - apply Hprim. reflexivity.
Defined.

(** ** Populate normalizer *)

Lemma own_prop_In k v props : own_prop k props = Some v -> In (k, v) props.
Proof.
  induction props as [|[k' v'] rest IH]; simpl; [discriminate|].
  destruct (k' =? k) eqn:E.
  - intros H; inversion H; subst. apply String.eqb_eq in E; subst. now left.
  - intros H. right. auto.
Qed.

Lemma own_prop_set_prop_same k v props :
  k <> "__proto__" -> own_prop k (set_prop k v props) = Some v.
Proof.
  intros Hk. unfold set_prop.
  destruct (k =? "__proto__") eqn:E; [apply String.eqb_eq in E; congruence|].
  apply own_prop_assign_same.
Qed.

Lemma own_prop_set_prop_other k k0 v props :
  k0 <> k -> own_prop k (set_prop k0 v props) = own_prop k props.
Proof.
  intros Hk. unfold set_prop.
  destruct (k0 =? "__proto__"); [reflexivity|]. now apply own_prop_assign_other.
Qed.

Lemma In_set_prop k v n x props :
  In (k, v) (set_prop n x props) -> (k = n /\ v = x) \/ In (k, v) props.
Proof.
  unfold set_prop. destruct (n =? "__proto__"); [now right|].
  induction props as [|[k' v'] rest IH]; simpl.
  - intros [H|[]]. inversion H; subst. now left.
  - destruct (k' =? n).
    + intros [H|H]; [inversion H; subst; now left | right; now right].
    + intros [H|H]; [right; now left|].
      destruct (IH H) as [H'|H']; [now left | right; now right].
Qed.

(** The reducer of [normalizePopulate] over an array of field names. *)
Lemma populate_reduce_values names : forall acc k v,
  Forall (fun kv => snd kv = JBool true) acc ->
  own_prop k (fold_left (fun acc field => set_prop (to_string field) (JBool true) acc)
                        (map JStr names) acc) = Some v ->
  v = JBool true /\ (In k names \/ In (k, v) acc).
Proof.
  induction names as [|n names IH]; intros acc k v Hacc Hk; simpl in *.
  - apply own_prop_In in Hk. rewrite Forall_forall in Hacc.
    split; [exact (Hacc _ Hk) | now right].
  - apply IH in Hk.
    + destruct Hk as [Hv [Hin | Hin]]; split; auto.
      apply In_set_prop in Hin. destruct Hin as [[-> _]|Hin]; [left; now left | now right].
    + apply Forall_set_prop; [exact Hacc | reflexivity].
Qed.

Lemma populate_reduce_member names : forall acc k,
  k <> "__proto__" ->
  In k names \/ own_prop k acc = Some (JBool true) ->
  own_prop k (fold_left (fun acc field => set_prop (to_string field) (JBool true) acc)
                        (map JStr names) acc) = Some (JBool true).
Proof.
  induction names as [|n names IH]; intros acc k Hk H; simpl in *.
  - destruct H as [[]|H]. exact H.
  - apply IH; [exact Hk|].
    destruct H as [[->|Hin]|Hacc].
    + right. now apply own_prop_set_prop_same.
    + now left.
    + right. destruct (String.eqb_spec n k) as [->|Hne].
      * now apply own_prop_set_prop_same.
      * now rewrite own_prop_set_prop_other.
Qed.

(** C9.  [normalizePopulate] is a total function of its argument alone:
    ['*'] and [true] give the wildcard ['*']; an array of field names gives
    the object holding exactly those names, each mapped to [true] (so
    [['a','b']] gives [{a: true, b: true}]); an object is returned as it is;
    every other value ([undefined], [42] and the empty string among them)
    gives [undefined]. *)
Theorem normalizePopulate_cases :
  normalizePopulate (JStr "*") = JStr "*" /\
  normalizePopulate (JBool true) = JStr "*" /\
  normalizePopulate (JArr [JStr "a"; JStr "b"]) =
    JObj [("a", JBool true); ("b", JBool true)] /\
  (forall names : list string,
      exists props,
        normalizePopulate (JArr (map JStr names)) = JObj props /\
        (forall k v, own_prop k props = Some v -> v = JBool true /\ In k names) /\
        (forall k, In k names -> k <> "__proto__" ->
                   own_prop k props = Some (JBool true))) /\
  (forall props, normalizePopulate (JObj props) = JObj props) /\
  normalizePopulate (JObj [("a", JObj [("fields", JArr [JStr "x"])])]) =
    JObj [("a", JObj [("fields", JArr [JStr "x"])])] /\
  normalizePopulate JUndefined = JUndefined /\
  normalizePopulate (JNum 42) = JUndefined /\
  normalizePopulate (JStr EmptyString) = JUndefined /\
  (forall v, v <> JStr "*" -> v <> JBool true -> isArray v = false ->
             (forall props, v <> JObj props) ->
             normalizePopulate v = JUndefined).
Proof.
  repeat match goal with |- _ /\ _ => split end; try reflexivity.
  - intros names. eexists. split; [reflexivity|]. split.
    + intros k v Hk. apply populate_reduce_values in Hk; [|constructor].
      destruct Hk as [Hv [Hin|Hin]]; [auto | destruct Hin].
    + intros k Hin Hk. apply populate_reduce_member; auto.
  - intros v Hstar Htrue Harr Hobj.
    destruct v as [| |b|n|s|items|props]; try reflexivity.
    + destruct b; [congruence | reflexivity].
    + unfold normalizePopulate.
      destruct (String.eqb_spec s "*") as [->|Hne]; [congruence|].
      destruct s as [|c s]; [reflexivity|].
      destruct s as [|c' s].
      * destruct (Ascii.ascii_dec c "*"%char) as [->|Hc]; [congruence|].
        destruct c as [[] [] [] [] [] [] [] []]; try reflexivity. congruence.
      * destruct c as [[] [] [] [] [] [] [] []]; reflexivity.
    + discriminate.
    + exfalso. now apply (Hobj props).
Qed.

Lemma normalizePopulate_cases_witness :
  (exists props,
      normalizePopulate (JArr (map JStr ["author"; "category"])) = JObj props /\
      own_prop "author" props = Some (JBool true)) /\
  normalizePopulate JNull = JUndefined.
Proof.
  destruct normalizePopulate_cases
    as [_ [_ [_ [Hnames [_ [_ [_ [_ [_ Hother]]]]]]]]].
  split.
  - destruct (Hnames ["author"; "category"]) as [props [Heq [_ Hmem]]].
    exists props. split; [exact Heq|].
    apply Hmem; [simpl; auto | discriminate].
  - apply Hother; try discriminate. reflexivity.
Defined.

(** ** Query builder *)

Lemma get_defined v k :
  v <> JUndefined -> v <> JNull -> get v k = Normal (get_opt v k).
Proof. destruct v; intros H1 H2; try reflexivity; congruence. Qed.

(** C7, as the code has it.  For every event whose [params] is there (not
    [null] or [undefined]) and whose [result] is there when the action is
    ['afterCreateMany'], [buildEventQuery] returns a query in which: the
    limit is [result.count] when that is truthy (present and not zero),
    otherwise [params.limit] when that is truthy, otherwise absent; the
    filters are [{ id: result.ids }] when the action is ['afterCreateMany'],
    otherwise [params.where] when that is truthy, otherwise absent; the
    fields are [['id']] when the action is ['beforeUpdate'], otherwise
    absent; and there is no other property. *)
Theorem buildEventQuery_rules (event : Event) :
  params event <> JUndefined -> params event <> JNull ->
  (action event = "afterCreateMany" ->
   result event <> JUndefined /\ result event <> JNull) ->
  exists q,
    buildEventQuery event = Normal (JObj q) /\
    own_prop "filters" q =
      (if action event =? "afterCreateMany"
       then Some (JObj [("id", get_opt (result event) "ids")])
       else if truthy (get_opt (params event) "where")
            then Some (get_opt (params event) "where")
            else None) /\
    own_prop "limit" q =
      (if truthy (get_opt (result event) "count")
       then Some (get_opt (result event) "count")
       else if truthy (get_opt (params event) "limit")
            then Some (get_opt (params event) "limit")
            else None) /\
    own_prop "fields" q =
      (if action event =? "afterCreateMany" then None
       else if action event =? "beforeUpdate" then Some (JArr [JStr "id"])
            else None) /\
    (forall k, k <> "filters" -> k <> "limit" -> k <> "fields" ->
               own_prop k q = None).
Proof.
  intros Hp1 Hp2 Hres. unfold buildEventQuery.
  rewrite !(get_defined _ Hp1 Hp2). cbn [cbind].
  destruct (truthy (get_opt (params event) "where")) eqn:Ewhere;
    destruct (truthy (get_opt (result event) "count")) eqn:Ecount;
    cbn [cbind];
    try (destruct (truthy (get_opt (params event) "limit")) eqn:Elimit);
    destruct (action event =? "afterCreateMany") eqn:Ecreate;
    try (apply String.eqb_eq in Ecreate; destruct (Hres Ecreate) as [Hr1 Hr2];
         rewrite (get_defined _ Hr1 Hr2); cbn [cbind]);
    try (destruct (action event =? "beforeUpdate") eqn:Eupdate);
    eexists; (split; [reflexivity|]);
    repeat split; try reflexivity;
    intros k Hk1 Hk2 Hk3;
    rewrite ?own_prop_set_prop_other by congruence; reflexivity.
Qed.

Lemma buildEventQuery_rules_witness :
  exists q,
    buildEventQuery bulk_create_event = Normal (JObj q) /\
    own_prop "filters" q = Some (JObj [("id", JArr [JNum 11; JNum 12])]) /\
    own_prop "limit" q = Some (JNum 2) /\
    own_prop "fields" q = None.
Proof.
  destruct (buildEventQuery_rules bulk_create_event)
    as [q [Hq [Hfilters [Hlimit [Hfields _]]]]].
  - discriminate.
  - discriminate.
  - intros _. split; discriminate.
  - exists q. repeat split; assumption.
Defined.

(** C7, as stated, fails: a result count that is present but zero is
    passed over in favour of the caller's limit. *)
Lemma buildEventQuery_limit_counterexample :
  exists q,
    buildEventQuery zero_count_event = Normal (JObj q) /\
    limit_as_stated zero_count_event = Some (JNum 0) /\
    own_prop "limit" q = Some (JNum 5) /\
    own_prop "limit" q <> limit_as_stated zero_count_event.
Proof.
  eexists. split; [reflexivity|]. split; [reflexivity|]. split; [reflexivity|].
  discriminate.
Qed.

(** ** Hook handlers and missing results *)

Lemma buildEventQuery_throws_without_result a m p r st :
  a = "afterCreateMany" -> r = JNull \/ r = JUndefined ->
  is_throw (buildEventQuery {| action := a; model := m; params := JObj p;
                               result := r; state := st |}) = true.
Proof.
  intros -> Hr. unfold buildEventQuery. cbn.
  destruct Hr as [-> | ->]; cbn;
    destruct (truthy match own_prop "where" p with Some x => x | None => JUndefined end);
    destruct (truthy match own_prop "limit" p with Some x => x | None => JUndefined end);
    reflexivity.
Qed.

(** C3, at the input where the code departs from it.  An [afterCreateMany]
    event whose result is [null] (or [undefined]) makes the handler reject:
    [buildEventQuery] reads [event.result.ids] unguarded.  Nothing is logged
    and nothing is scheduled.  On the same event the [afterCreate],
    [afterUpdate] and [afterDelete] handlers log at debug level and
    return. *)
Theorem afterCreateMany_rejects_missing_result
        (h : Host) (uid populateConfig : JSValue) (w : World Task)
        (m : ModelInfo) (p st : list (string * JSValue)) :
  is_throw (completion (afterCreateMany h uid populateConfig
                          (bulk_create_without_result m p st JNull) w)) = true /\
  immediate (afterCreateMany h uid populateConfig
               (bulk_create_without_result m p st JNull) w) = [] /\
  world_after (afterCreateMany h uid populateConfig
                 (bulk_create_without_result m p st JNull) w) = w /\
  is_throw (completion (afterCreateMany h uid populateConfig
                          (bulk_create_without_result m p st JUndefined) w)) = true /\
  completion (afterCreateMany h uid populateConfig
                (bulk_create_without_result m [] st JNull) w) =
    Throw {| kind := TypeError;
             message := "Cannot read properties of null (reading 'ids')" |} /\
  afterCreate h uid populateConfig (bulk_create_without_result m p st JNull) w =
    skipped (bulk_create_without_result m p st JNull) w
            (no_result_data "afterCreate" uid) /\
  afterUpdate h uid populateConfig (bulk_create_without_result m p st JNull) w =
    skipped (bulk_create_without_result m p st JNull) w
            (no_result_data "afterUpdate" uid) /\
  afterDelete h uid populateConfig (bulk_create_without_result m p st JNull) w =
    skipped (bulk_create_without_result m p st JNull) w
            (no_result_data "afterDelete" uid).
Proof.
  pose proof (@buildEventQuery_throws_without_result
                "afterCreateMany" m p JNull st eq_refl (or_introl eq_refl)) as Hnull.
  pose proof (@buildEventQuery_throws_without_result
                "afterCreateMany" m p JUndefined st eq_refl (or_intror eq_refl)) as Hundef.
  unfold afterCreateMany, bulk_create_without_result.
  repeat match goal with |- _ /\ _ => split end; try reflexivity.
  all: destruct (buildEventQuery _) as [q|e]; [discriminate | reflexivity].
Qed.

Lemma json_clone_truthy v : truthy v = true -> json_clone v = Normal (jsonify v).
Proof. destruct v; simpl; try discriminate; reflexivity. Qed.

(** The handlers that guard the result, and the bulk-update handler,
    never reject. *)
Lemma guarded_handlers_resolve h uid populateConfig event w :
  completion (afterCreate h uid populateConfig event w) = Normal tt /\
  completion (afterUpdate h uid populateConfig event w) = Normal tt /\
  completion (afterDelete h uid populateConfig event w) = Normal tt /\
  completion (afterUpdateMany h uid populateConfig event w) = Normal tt.
Proof.
  unfold afterCreate, afterUpdate, afterDelete, afterUpdateMany.
  repeat split; try (destruct (truthy (result event)); reflexivity).
  set (ps := get_opt (get_opt (JObj (state event)) "io") "params").
  destruct (truthy ps); cbn [negb orb]; [|reflexivity].
  destruct (truthy (get_opt ps "where")) eqn:E; cbn [negb]; [|reflexivity].
  rewrite (json_clone_truthy _ E). reflexivity.
Qed.

(** Before returning, a handler only logs: reads and publications happen
    in the scheduled callback. *)
Lemma handlers_publish_nothing_synchronously h uid populateConfig event w :
  calls (immediate (afterCreate h uid populateConfig event w)) = [] /\
  calls (immediate (afterCreateMany h uid populateConfig event w)) = [] /\
  calls (immediate (afterUpdate h uid populateConfig event w)) = [] /\
  calls (immediate (beforeUpdateMany h uid populateConfig event w)) = [] /\
  calls (immediate (afterUpdateMany h uid populateConfig event w)) = [] /\
  calls (immediate (afterDelete h uid populateConfig event w)) = [].
Proof.
  unfold afterCreate, afterCreateMany, afterUpdate, beforeUpdateMany,
    afterUpdateMany, afterDelete.
  repeat split;
    repeat match goal with
           | |- context [match ?c with _ => _ end] => destruct c
           end; reflexivity.
Qed.

(** A scheduled callback never throws: its body is one [try]/[catch]
    whose handler only logs. *)
Lemma task_body_resolves h t : snd (task_body h t) = Normal tt.
Proof.
  destruct t; unfold task_body, try_catch;
    match goal with |- snd (let (_, _) := ?m in _) = _ => destruct m as [tr [[]|e]] end;
    reflexivity.
Qed.

(** ** Delete *)

(** C5.  An [afterDelete] event with result data schedules one callback,
    100 ms after commit, and publishes nothing before returning.  When the
    callback runs it makes exactly one call to the outside: the raw publish
    of [{ id, documentId }] under the subject [<singularName>:delete]; it
    reads nothing back.  The payload has these two properties and no other;
    [id] is [result.id], or [result.documentId] when that is missing, and
    the other way round for [documentId].  With no transaction open, once
    100 ms have passed and the timers have fired, that call is all that has
    been published. *)
Theorem afterDelete_identity_payload
        (h : Host) (uid populateConfig : JSValue) (event : Event) (w : World Task) :
  truthy (result event) = true ->
  exists idv docv,
    afterDelete h uid populateConfig event w =
      scheduled h event w
        (DeleteTask uid (JObj [("id", idv); ("documentId", docv)])
                    {| singularName := singularName (model event);
                       model_uid := model_uid (model event) |}) 100 /\
    idv = js_or (get_opt (result event) "id") (get_opt (result event) "documentId") /\
    docv = js_or (get_opt (result event) "documentId") (get_opt (result event) "id") /\
    (present (result event) "id" = None -> idv = get_opt (result event) "documentId") /\
    (present (result event) "documentId" = None -> docv = get_opt (result event) "id") /\
    (truthy (get_opt (result event) "id") = true -> idv = get_opt (result event) "id") /\
    (truthy (get_opt (result event) "documentId") = true ->
     docv = get_opt (result event) "documentId") /\
    calls (immediate (afterDelete h uid populateConfig event w)) = [] /\
    calls (run_task h (DeleteTask uid (JObj [("id", idv); ("documentId", docv)])
                                  {| singularName := singularName (model event);
                                     model_uid := model_uid (model event) |})) =
      [Raw {| raw_event := (singularName (model event) ++ ":delete")%string;
              raw_data := JObj [("id", idv); ("documentId", docv)] |}] /\
    calls (published h
             (turn (elapse 100
                (world_after (afterDelete h uid populateConfig event
                                          (initial_world Task)))))) =
      [Raw {| raw_event := (singularName (model event) ++ ":delete")%string;
              raw_data := JObj [("id", idv); ("documentId", docv)] |}].
Proof.
  intros Hres. do 2 eexists.
  split; [unfold afterDelete; rewrite Hres; reflexivity|].
  split; [reflexivity|]. split; [reflexivity|].
  assert (Hrun : forall d mi,
             calls (run_task h (DeleteTask uid d mi)) =
             [Raw {| raw_event := (singularName mi ++ ":delete")%string;
                     raw_data := d |}]).
  { intros d mi. unfold run_task, task_body, try_catch, call.
    destruct (io_raw h _) as [[]|e]; reflexivity. }
  repeat split.
  - intros Hid. unfold js_or, get_opt, present in *.
    destruct (result event); try reflexivity. now rewrite Hid.
  - intros Hid. unfold js_or, get_opt, present in *.
    destruct (result event); try reflexivity. now rewrite Hid.
  - intros Hid. unfold js_or. now rewrite Hid.
  - intros Hid. unfold js_or. now rewrite Hid.
  - unfold afterDelete. rewrite Hres. reflexivity.
  - rewrite Hrun. reflexivity.
  - unfold afterDelete. rewrite Hres.
    unfold scheduled, world_after, scheduleAfterTransaction, getTransactionCtx,
      published.
    destruct (txModule h); cbn; rewrite app_nil_r, Hrun; reflexivity.
Qed.

Lemma afterDelete_identity_payload_witness :
  exists idv docv,
    afterDelete sample_host (JStr "api::article.article") JUndefined delete_event
                (initial_world Task) =
      scheduled sample_host delete_event (initial_world Task)
        (DeleteTask (JStr "api::article.article")
                    (JObj [("id", idv); ("documentId", docv)]) article) 100 /\
    idv = JNum 11 /\ docv = JStr "d11" /\
    calls (run_task sample_host
             (DeleteTask (JStr "api::article.article")
                         (JObj [("id", idv); ("documentId", docv)]) article)) =
      [Raw {| raw_event := "article:delete";
              raw_data := JObj [("id", idv); ("documentId", docv)] |}].
Proof.
  destruct (@afterDelete_identity_payload sample_host (JStr "api::article.article")
              JUndefined delete_event (initial_world Task) eq_refl)
    as [idv [docv [Hsched [Hid [Hdoc [_ [_ [_ [_ [_ [Hrun _]]]]]]]]]]].
  exists idv, docv. repeat split; assumption.
Defined.

(** ** Single-record re-fetch *)

Lemma jsonify_json_data v : json_data v = true -> jsonify v = v.
Proof.
  induction v as [| | | | |items IH|props IH] using JSValue_deep_ind;
    simpl; intros H; try reflexivity; try discriminate.
  - f_equal. induction IH as [|x rest Hx _ IHrest]; simpl in *; [reflexivity|].
    apply andb_true_iff in H. destruct H as [H1 H2].
    now rewrite Hx, IHrest.
  - f_equal. induction IH as [|[k x] rest Hx _ IHrest]; simpl in *; [reflexivity|].
    apply andb_true_iff in H. destruct H as [H1 H2].
    rewrite IHrest by assumption. rewrite Hx by assumption.
    destruct x; simpl in *; try reflexivity. discriminate.
Qed.

(** What a single-record callback does when the re-fetch fails. *)
Lemma emit_single_fallback h eventType uid populateConfig documentId modelInfo event
      l msg :
  hasPopulate populateConfig = true ->
  truthy documentId = true ->
  refetch_failed (findOne h uid documentId (normalizePopulate populateConfig)) = true ->
  (forall data,
      json_clone (later_result h event) = Normal data ->
      calls (fst (try_catch
                    (emit_single h eventType uid populateConfig documentId modelInfo
                                 event)
                    (fun error => log l msg (Some (message error))))) =
        [FindOne uid documentId (normalizePopulate populateConfig);
         Emit {| env_event := eventType; env_schema := modelInfo;
                 env_data := data |}]) /\
  (forall e,
      findOne h uid documentId (normalizePopulate populateConfig) = Throw e ->
      In (Logged {| level := Debug;
                    text := "[socket.io] Error fetching with populate for "
                            ++ to_string uid ++ ":";
                    detail := Some (message e) |})
         (fst (try_catch
                 (emit_single h eventType uid populateConfig documentId modelInfo
                              event)
                 (fun error => log l msg (Some (message error)))))) /\
  (forall v data,
      findOne h uid documentId (normalizePopulate populateConfig) = Normal v ->
      json_clone (later_result h event) = Normal data ->
      io_emit h {| env_event := eventType; env_schema := modelInfo;
                   env_data := data |} = Normal tt ->
      fst (try_catch
             (emit_single h eventType uid populateConfig documentId modelInfo event)
             (fun error => log l msg (Some (message error)))) =
        [FindOne uid documentId (normalizePopulate populateConfig);
         Emit {| env_event := eventType; env_schema := modelInfo;
                 env_data := data |}]) /\
  (later_result h event = JUndefined ->
   emitted (fst (try_catch
                   (emit_single h eventType uid populateConfig documentId modelInfo
                                event)
                   (fun error => log l msg (Some (message error))))) = [] /\
   In (Logged {| level := l; text := msg;
                 detail := Some "undefined is not valid JSON" |})
      (fst (try_catch
              (emit_single h eventType uid populateConfig documentId modelInfo
                           event)
              (fun error => log l msg (Some (message error)))))).
Proof.
  intros Hpop Hdoc Hfail.
  unfold emit_single, fetchWithPopulate.
  rewrite Hpop, Hdoc. cbn [andb negb].
  unfold try_catch, call, bind, ret, lift, log.
  destruct (findOne h uid documentId (normalizePopulate populateConfig)) as [v|e];
    cbn in Hfail |- *.
  - apply negb_true_iff in Hfail. rewrite Hfail. cbn.
    split; [|split; [|split]].
    + intros data ->. destruct (io_emit h _) as [[]|e']; reflexivity.
    + intros e He. discriminate.
    + intros v' data _ -> ->. reflexivity.
    + intros ->. cbn. split; [reflexivity | right; now left].
  - split; [|split; [|split]].
    + intros data ->. destruct (io_emit h _) as [[]|e']; reflexivity.
    + intros e' He'. inversion He'; subst.
      destruct (json_clone (later_result h event)) as [data|e''];
        [destruct (io_emit h _) as [[]|e3]|]; cbn; auto.
    + intros v data Hv. discriminate.
    + intros ->. cbn. split; [reflexivity | right; right; now left].
Qed.

(** C8.  For an [afterUpdate] (or [afterCreate]) event with result data,
    a populate configuration and a document id, whose re-fetch throws or
    returns nothing: the callback never throws, and it publishes one
    envelope whose data is the JSON clone of [event.result] as the callback
    finds it (that value itself when it is plain JSON data).  This is the
    result the hook received whenever the store has not written to the
    event since.  A thrown re-fetch error is logged at debug level; an
    empty answer is not logged: with a channel that accepts the envelope,
    the re-fetch and the publish are all that happens.  When the store has
    left [undefined] in [event.result], the clone fails inside the
    callback, which logs that and publishes nothing. *)
Theorem refetch_failure_publishes_result
        (h : Host) (uid populateConfig : JSValue) (event : Event) (w : World Task) :
  truthy (result event) = true ->
  hasPopulate populateConfig = true ->
  truthy (get_opt (result event) "documentId") = true ->
  refetch_failed (findOne h uid (get_opt (result event) "documentId")
                          (normalizePopulate populateConfig)) = true ->
  (afterUpdate h uid populateConfig event w =
     scheduled h event w
       (UpdateTask uid populateConfig (get_opt (result event) "documentId")
                   (modelInfo_of event) event) 50 /\
   afterCreate h uid populateConfig event w =
     scheduled h event w
       (CreateTask uid populateConfig (get_opt (result event) "documentId")
                   (modelInfo_of event) event) 50) /\
  (snd (task_body h (UpdateTask uid populateConfig
                                (get_opt (result event) "documentId")
                                (modelInfo_of event) event)) = Normal tt /\
   snd (task_body h (CreateTask uid populateConfig
                                (get_opt (result event) "documentId")
                                (modelInfo_of event) event)) = Normal tt) /\
  (forall data,
      json_clone (later_result h event) = Normal data ->
      data = jsonify (later_result h event) /\
      calls (run_task h (UpdateTask uid populateConfig
                                    (get_opt (result event) "documentId")
                                    (modelInfo_of event) event)) =
        [FindOne uid (get_opt (result event) "documentId")
                 (normalizePopulate populateConfig);
         Emit {| env_event := "update"; env_schema := modelInfo_of event;
                 env_data := data |}] /\
      calls (run_task h (CreateTask uid populateConfig
                                    (get_opt (result event) "documentId")
                                    (modelInfo_of event) event)) =
        [FindOne uid (get_opt (result event) "documentId")
                 (normalizePopulate populateConfig);
         Emit {| env_event := "create"; env_schema := modelInfo_of event;
                 env_data := data |}]) /\
  (later_result h event = result event ->
   calls (run_task h (UpdateTask uid populateConfig
                                 (get_opt (result event) "documentId")
                                 (modelInfo_of event) event)) =
     [FindOne uid (get_opt (result event) "documentId")
              (normalizePopulate populateConfig);
      Emit {| env_event := "update"; env_schema := modelInfo_of event;
              env_data := jsonify (result event) |}] /\
   calls (run_task h (CreateTask uid populateConfig
                                 (get_opt (result event) "documentId")
                                 (modelInfo_of event) event)) =
     [FindOne uid (get_opt (result event) "documentId")
              (normalizePopulate populateConfig);
      Emit {| env_event := "create"; env_schema := modelInfo_of event;
              env_data := jsonify (result event) |}]) /\
  (forall e,
      findOne h uid (get_opt (result event) "documentId")
              (normalizePopulate populateConfig) = Throw e ->
      In (Logged {| level := Debug;
                    text := "[socket.io] Error fetching with populate for "
                            ++ to_string uid ++ ":";
                    detail := Some (message e) |})
         (run_task h (UpdateTask uid populateConfig
                                 (get_opt (result event) "documentId")
                                 (modelInfo_of event) event)) /\
      In (Logged {| level := Debug;
                    text := "[socket.io] Error fetching with populate for "
                            ++ to_string uid ++ ":";
                    detail := Some (message e) |})
         (run_task h (CreateTask uid populateConfig
                                 (get_opt (result event) "documentId")
                                 (modelInfo_of event) event))) /\
  (forall v data,
      findOne h uid (get_opt (result event) "documentId")
              (normalizePopulate populateConfig) = Normal v ->
      json_clone (later_result h event) = Normal data ->
      (io_emit h {| env_event := "update"; env_schema := modelInfo_of event;
                    env_data := data |} = Normal tt ->
       run_task h (UpdateTask uid populateConfig
                              (get_opt (result event) "documentId")
                              (modelInfo_of event) event) =
         [FindOne uid (get_opt (result event) "documentId")
                  (normalizePopulate populateConfig);
          Emit {| env_event := "update"; env_schema := modelInfo_of event;
                  env_data := data |}]) /\
      (io_emit h {| env_event := "create"; env_schema := modelInfo_of event;
                    env_data := data |} = Normal tt ->
       run_task h (CreateTask uid populateConfig
                              (get_opt (result event) "documentId")
                              (modelInfo_of event) event) =
         [FindOne uid (get_opt (result event) "documentId")
                  (normalizePopulate populateConfig);
          Emit {| env_event := "create"; env_schema := modelInfo_of event;
                  env_data := data |}])) /\
  (later_result h event = JUndefined ->
   emitted (run_task h (UpdateTask uid populateConfig
                                   (get_opt (result event) "documentId")
                                   (modelInfo_of event) event)) = [] /\
   emitted (run_task h (CreateTask uid populateConfig
                                   (get_opt (result event) "documentId")
                                   (modelInfo_of event) event)) = [] /\
   In (Logged {| level := Debug;
                 text := "[socket.io] Could not emit update event for "
                         ++ to_string uid ++ ":";
                 detail := Some "undefined is not valid JSON" |})
      (run_task h (UpdateTask uid populateConfig
                              (get_opt (result event) "documentId")
                              (modelInfo_of event) event)) /\
   In (Logged {| level := Error;
                 text := "[socket.io] Could not emit create event for "
                         ++ to_string uid ++ ":";
                 detail := Some "undefined is not valid JSON" |})
      (run_task h (CreateTask uid populateConfig
                              (get_opt (result event) "documentId")
                              (modelInfo_of event) event))) /\
  (json_data (later_result h event) = true ->
   jsonify (later_result h event) = later_result h event).
Proof.
  intros Hres Hpop Hdoc Hfail.
  pose proof (fun eventType l msg =>
                @emit_single_fallback h eventType uid populateConfig
                  (get_opt (result event) "documentId") (modelInfo_of event) event
                  l msg Hpop Hdoc Hfail) as Hrun.
  destruct (Hrun "update" Debug
                 ("[socket.io] Could not emit update event for " ++ to_string uid ++ ":")%string)
    as [Hu1 [Hu2 [Hu3 Hu4]]].
  destruct (Hrun "create" Error
                 ("[socket.io] Could not emit create event for " ++ to_string uid ++ ":")%string)
    as [Hc1 [Hc2 [Hc3 Hc4]]].
  clear Hrun.
  split; [split|].
  { unfold afterUpdate. rewrite Hres, Hpop. reflexivity. }
  { unfold afterCreate. rewrite Hres, Hpop. reflexivity. }
  split; [split; apply task_body_resolves|].
  split.
  { intros data Hdata. split.
    - destruct (later_result h event); inversion Hdata; reflexivity.
    - split; [exact (Hu1 data Hdata) | exact (Hc1 data Hdata)]. }
  split.
  { intros Hsame.
    assert (Hdata : json_clone (later_result h event) = Normal (jsonify (result event)))
      by (rewrite Hsame; now apply json_clone_truthy).
    split; [exact (Hu1 _ Hdata) | exact (Hc1 _ Hdata)]. }
  split.
  { intros e He. split; [exact (Hu2 e He) | exact (Hc2 e He)]. }
  split.
  { intros v data Hv Hdata.
    split; intros Hemit; [exact (Hu3 v data Hv Hdata Hemit)
                         | exact (Hc3 v data Hv Hdata Hemit)]. }
  split.
  { intros Hgone. destruct (Hu4 Hgone) as [Hu5 Hu6].
    destruct (Hc4 Hgone) as [Hc5 Hc6]. auto. }
  apply jsonify_json_data.
Qed.

Lemma refetch_failure_publishes_result_witness :
  calls (run_task sample_host
           (UpdateTask (JStr "api::article.article") (JArr [JStr "author"])
                       (JStr "d11") article update_event)) =
    [FindOne (JStr "api::article.article") (JStr "d11")
             (JObj [("author", JBool true)]);
     Emit {| env_event := "update"; env_schema := article;
             env_data := article_result |}] /\
  calls (run_task rewriting_host
           (UpdateTask (JStr "api::article.article") (JArr [JStr "author"])
                       (JStr "d11") article update_event)) =
    [FindOne (JStr "api::article.article") (JStr "d11")
             (JObj [("author", JBool true)]);
     Emit {| env_event := "update"; env_schema := article;
             env_data := rewritten_result |}] /\
  run_task empty_handed_host
           (CreateTask (JStr "api::article.article") (JArr [JStr "author"])
                       (JStr "d11") article update_event) =
    [FindOne (JStr "api::article.article") (JStr "d11")
             (JObj [("author", JBool true)]);
     Emit {| env_event := "create"; env_schema := article;
             env_data := article_result |}] /\
  emitted (run_task clearing_host
             (UpdateTask (JStr "api::article.article") (JArr [JStr "author"])
                         (JStr "d11") article update_event)) = [].
Proof.
  destruct (@refetch_failure_publishes_result sample_host
              (JStr "api::article.article") (JArr [JStr "author"]) update_event
              (initial_world Task) eq_refl eq_refl eq_refl eq_refl)
    as [_ [_ [_ [Hsame _]]]].
  destruct (@refetch_failure_publishes_result rewriting_host
              (JStr "api::article.article") (JArr [JStr "author"]) update_event
              (initial_world Task) eq_refl eq_refl eq_refl eq_refl)
    as [_ [_ [Hlater _]]].
  destruct (@refetch_failure_publishes_result empty_handed_host
              (JStr "api::article.article") (JArr [JStr "author"]) update_event
              (initial_world Task) eq_refl eq_refl eq_refl eq_refl)
    as [_ [_ [_ [_ [_ [Hquiet _]]]]]].
  destruct (@refetch_failure_publishes_result clearing_host
              (JStr "api::article.article") (JArr [JStr "author"]) update_event
              (initial_world Task) eq_refl eq_refl eq_refl eq_refl)
    as [_ [_ [_ [_ [_ [_ [Hgone _]]]]]]].
  split; [exact (proj1 (Hsame eq_refl))|].
  split; [exact (proj1 (proj2 (Hlater rewritten_result eq_refl)))|].
  split; [exact (proj2 (Hquiet JNull article_result eq_refl eq_refl) eq_refl)|].
  exact (proj1 (Hgone eq_refl)).
Defined.

(** C8, as stated, fails twice over.  A re-fetch that finds nothing is not
    logged: the callback writes no log entry at all.  And what is published
    is the clone of [event.result] as the callback finds it: once the store
    has written to the event after the hook, the envelope carries the new
    result, not the one the hook captured. *)
Lemma refetch_fallback_counterexample :
  afterUpdate empty_handed_host (JStr "api::article.article") (JArr [JStr "author"])
              update_event (initial_world Task) =
    scheduled empty_handed_host update_event (initial_world Task)
      (UpdateTask (JStr "api::article.article") (JArr [JStr "author"])
                  (JStr "d11") article update_event) 50 /\
  refetch_failed (findOne empty_handed_host (JStr "api::article.article")
                          (JStr "d11") (JObj [("author", JBool true)])) = true /\
  logs (run_task empty_handed_host
          (UpdateTask (JStr "api::article.article") (JArr [JStr "author"])
                      (JStr "d11") article update_event)) = [] /\
  ~ fallback_as_stated "update" update_event
      (run_task empty_handed_host
         (UpdateTask (JStr "api::article.article") (JArr [JStr "author"])
                     (JStr "d11") article update_event)) /\
  afterUpdate rewriting_host (JStr "api::article.article") (JArr [JStr "author"])
              update_event (initial_world Task) =
    scheduled rewriting_host update_event (initial_world Task)
      (UpdateTask (JStr "api::article.article") (JArr [JStr "author"])
                  (JStr "d11") article update_event) 50 /\
  emitted (run_task rewriting_host
             (UpdateTask (JStr "api::article.article") (JArr [JStr "author"])
                         (JStr "d11") article update_event)) =
    [{| env_event := "update"; env_schema := article;
        env_data := rewritten_result |}] /\
  jsonify (result update_event) = article_result /\
  ~ fallback_as_stated "update" update_event
      (run_task rewriting_host
         (UpdateTask (JStr "api::article.article") (JArr [JStr "author"])
                     (JStr "d11") article update_event)).
Proof.
  split; [reflexivity|]. split; [reflexivity|]. split; [reflexivity|].
  split; [intros [Hlog _]; apply Hlog; reflexivity|].
  split; [reflexivity|]. split; [reflexivity|]. split; [reflexivity|].
  intros [_ Hsent]. vm_compute in Hsent. discriminate Hsent.
Qed.

(** ** Registered hooks *)

Lemma hook_of_In name hs : hook_of name hs <> None -> In name (map fst hs).
Proof.
  induction hs as [|[n f] rest IH]; simpl; [congruence|].
  destruct (String.eqb_spec n name); auto.
Qed.

Lemma hook_of_not_In name hs : ~ In name (map fst hs) -> hook_of name hs = None.
Proof.
  intros H. destruct (hook_of name hs) eqn:E; [|reflexivity].
  exfalso. apply H, hook_of_In. congruence.
Qed.

(** The hooks a subscriber can carry, whatever the configuration. *)
Lemma subscriber_for_hooks h ct s :
  subscriber_for h ct = Normal s ->
  incl (map fst (hooks s))
       ["afterCreate"; "afterCreateMany"; "afterUpdate"; "beforeUpdateMany";
        "afterUpdateMany"; "afterDelete"].
Proof.
  unfold subscriber_for, cbind.
  destruct (get ct "uid"); [|discriminate].
  destruct (get ct "populate"); [|discriminate].
  destruct (get ct "actions") as [actions|]; [|discriminate].
  destruct (action_enabled actions "create") as [[]|]; [| |discriminate];
    (destruct (action_enabled actions "update") as [[]|]; [| |discriminate]);
    (destruct (action_enabled actions "delete") as [[]|]; [| |discriminate]);
    intros H; inversion H; subst; cbn [hooks map fst app];
    intros x Hx; cbn [In] in Hx |- *; tauto.
Qed.

Lemma bootstrap_subscribers h contentTypes s :
  In s (fst (bootstrapLifecycles h contentTypes)) ->
  exists ct, In ct contentTypes /\ subscriber_for h ct = Normal s.
Proof.
  induction contentTypes as [|ct rest IH]; cbn; [intros []|].
  destruct (subscriber_for h ct) as [s0|e] eqn:E; [|intros []].
  destruct (bootstrapLifecycles h rest) as [subs c]. cbn in *.
  intros [<- | Hin].
  - exists ct. auto.
  - destruct (IH Hin) as [ct' [Hct' Hs]]. exists ct'. auto.
Qed.

(** C10.  Whatever the configured content types (a configuration listing
    the ['delete'] action included), no subscriber registered by
    [bootstrapLifecycles] has a [beforeDeleteMany] or an [afterDeleteMany]
    handler: its handlers are among the single and bulk create/update
    hooks and [afterDelete].  A bulk-delete event fired at such a
    subscriber therefore runs nothing, schedules nothing and publishes
    nothing. *)
Theorem no_bulk_delete_handlers
        (h : Host) (contentTypes : list JSValue) (s : Subscriber) :
  In s (fst (bootstrapLifecycles h contentTypes)) ->
  hook_of "beforeDeleteMany" (hooks s) = None /\
  hook_of "afterDeleteMany" (hooks s) = None /\
  (forall name, hook_of name (hooks s) <> None ->
     In name ["afterCreate"; "afterCreateMany"; "afterUpdate";
              "beforeUpdateMany"; "afterUpdateMany"; "afterDelete"]) /\
  (forall event w,
     action event = "beforeDeleteMany" \/ action event = "afterDeleteMany" ->
     fire s event w = skipped event w [] /\
     world_after (fire s event w) = w /\
     immediate (fire s event w) = []).
Proof.
  intros Hin. destruct (bootstrap_subscribers h contentTypes s Hin) as [ct [_ Hs]].
  pose proof (subscriber_for_hooks h ct Hs) as Hincl.
  assert (Hbefore : hook_of "beforeDeleteMany" (hooks s) = None).
  { apply hook_of_not_In. intros Hb. apply Hincl in Hb.
    cbn in Hb. intuition discriminate. }
  assert (Hafter : hook_of "afterDeleteMany" (hooks s) = None).
  { apply hook_of_not_In. intros Ha. apply Hincl in Ha.
    cbn in Ha. intuition discriminate. }
  split; [exact Hbefore|]. split; [exact Hafter|]. split.
  - intros name Hname. apply Hincl. now apply hook_of_In.
  - intros event w Hact.
    assert (Hfire : fire s event w = skipped event w []).
    { unfold fire. destruct (existsb _ (models s)); [|reflexivity].
      destruct Hact as [-> | ->]; [rewrite Hbefore | rewrite Hafter]; reflexivity. }
    rewrite Hfire. repeat split.
Qed.

Lemma no_bulk_delete_handlers_witness :
  exists s,
    In s (fst (bootstrapLifecycles sample_host
                 [JStr "api::tag.tag"; delete_only_content_type])) /\
    map fst (hooks s) = ["afterDelete"] /\
    hook_of "afterDeleteMany" (hooks s) = None /\
    fire s bulk_delete_event (initial_world Task) =
      skipped bulk_delete_event (initial_world Task) [].
Proof.
  eexists. split; [right; left; reflexivity|]. split; [reflexivity|].
  destruct (@no_bulk_delete_handlers sample_host
              [JStr "api::tag.tag"; delete_only_content_type] _
              (or_intror (or_introl eq_refl)))
    as [_ [Hafter [_ Hfire]]].
  split; [exact Hafter|].
  apply (Hfire bulk_delete_event (initial_world Task)). right. reflexivity.
Defined.

(** ** Bulk read-back *)

Lemma buildEventQuery_object event query :
  buildEventQuery event = Normal query -> exists q, query = JObj q.
Proof.
  unfold buildEventQuery, cbind.
  destruct (get (params event) "where") as [wh|]; [|discriminate].
  destruct (truthy (get_opt (result event) "count")).
  - destruct (action event =? "afterCreateMany").
    + destruct (get (result event) "ids"); [|discriminate].
      intros H; inversion H; eauto.
    + destruct (action event =? "beforeUpdate"); intros H; inversion H; eauto.
  - destruct (get (params event) "limit") as [lim|]; [|discriminate].
    destruct (action event =? "afterCreateMany").
    + destruct (get (result event) "ids"); [|discriminate].
      intros H; inversion H; eauto.
    + destruct (action event =? "beforeUpdate"); intros H; inversion H; eauto.
Qed.

Lemma truthy_get_opt v k : truthy (get_opt v k) = true -> truthy v = true.
Proof. destruct v; simpl; try discriminate; reflexivity. Qed.

Lemma for_each_emit h eventType modelInfo rows :
  (forall r, In r rows ->
     io_emit h {| env_event := eventType; env_schema := modelInfo; env_data := r |}
     = Normal tt) ->
  for_each rows
    (fun r => call (Emit {| env_event := eventType; env_schema := modelInfo;
                            env_data := r |})
                   (io_emit h {| env_event := eventType; env_schema := modelInfo;
                                 env_data := r |})) =
  (map (fun r => Emit {| env_event := eventType; env_schema := modelInfo;
                         env_data := r |}) rows, Normal tt).
Proof.
  induction rows as [|r rows IH]; intros Hok; [reflexivity|].
  cbn [for_each map]. unfold bind, call at 1.
  rewrite (Hok r (or_introl eq_refl)), IH by (intros; apply Hok; now right).
  reflexivity.
Qed.

Lemma emit_many_rows h eventType uid query modelInfo rows :
  findMany h uid query = Normal (JArr rows) ->
  (forall r, In r rows ->
     io_emit h {| env_event := eventType; env_schema := modelInfo; env_data := r |}
     = Normal tt) ->
  emit_many h eventType uid query modelInfo =
  (FindMany uid query ::
     map (fun r => Emit {| env_event := eventType; env_schema := modelInfo;
                           env_data := r |}) rows, Normal tt).
Proof.
  intros Hfind Hok. unfold emit_many, bind, call at 1. rewrite Hfind.
  destruct modelInfo as [sn mu]. cbn [singularName model_uid].
  rewrite (for_each_emit h eventType {| singularName := sn; model_uid := mu |} rows Hok).
  reflexivity.
Qed.

(** C4, as the code has it.  For [afterCreateMany], the query handed to
    [findMany] is the JSON clone of [buildEventQuery(event)] (that query
    itself when it holds no [undefined]), with the normalized populate
    added when one is configured; it is issued when the derived filters are
    truthy.  For [afterUpdateMany] the query builder is not used: the query
    is [{ filters }] with the JSON clone of the [where] that
    [beforeUpdateMany] captured in the event's state bag, plus the
    normalized populate when configured, and nothing else.  For both, when
    [findMany] answers rows and the channel accepts them, the callback
    emits exactly one envelope per row, in order. *)
Theorem bulk_read_back
        (h : Host) (uid populateConfig : JSValue) (event : Event) (w : World Task) :
  (forall query,
      buildEventQuery event = Normal query ->
      truthy (get_opt query "filters") = true ->
      exists issued,
        with_populate populateConfig (jsonify query) = Normal issued /\
        afterCreateMany h uid populateConfig event w =
          scheduled h event w (CreateManyTask uid issued (modelInfo_of event)) 50 /\
        (json_data query = true ->
         with_populate populateConfig query = Normal issued)) /\
  (own_prop "io" (state event) = None ->
   get_opt (get_opt (JObj (state_after (beforeUpdateMany h uid populateConfig event w)))
                    "io") "params" = params event) /\
  (forall captured,
      get_opt (get_opt (JObj (state event)) "io") "params" = captured ->
      truthy (get_opt captured "where") = true ->
      exists issued,
        with_populate populateConfig
          (JObj [("filters", jsonify (get_opt captured "where"))]) = Normal issued /\
        afterUpdateMany h uid populateConfig event w =
          scheduled h event w (UpdateManyTask uid issued (modelInfo_of event)) 50) /\
  (forall issued modelInfo rows,
      findMany h uid issued = Normal (JArr rows) ->
      (forall r, In r rows ->
         io_emit h {| env_event := "create"; env_schema := modelInfo; env_data := r |}
         = Normal tt) ->
      run_task h (CreateManyTask uid issued modelInfo) =
        FindMany uid issued ::
          map (fun r => Emit {| env_event := "create"; env_schema := modelInfo;
                                env_data := r |}) rows) /\
  (forall issued modelInfo rows,
      findMany h uid issued = Normal (JArr rows) ->
      (forall r, In r rows ->
         io_emit h {| env_event := "update"; env_schema := modelInfo; env_data := r |}
         = Normal tt) ->
      run_task h (UpdateManyTask uid issued modelInfo) =
        FindMany uid issued ::
          map (fun r => Emit {| env_event := "update"; env_schema := modelInfo;
                                env_data := r |}) rows).
Proof.
  repeat match goal with |- _ /\ _ => split end.
  - intros query Hq Hfilters.
    destruct (buildEventQuery_object event Hq) as [q ->].
    unfold afterCreateMany. rewrite Hq.
    change (get (JObj q) "filters") with (Normal (get_opt (JObj q) "filters")).
    cbv beta iota. rewrite Hfilters.
    change (json_clone (JObj q)) with (Normal (jsonify (JObj q))).
    cbv beta iota.
    pose proof (jsonify_json_data (JObj q)) as Hsame.
    destruct (jsonify (JObj q)) as [| | | | | |cloned] eqn:Eclone;
      try (simpl in Eclone; discriminate).
    unfold with_populate. destruct (hasPopulate populateConfig).
    + eexists. split; [reflexivity|]. split; [reflexivity|].
      intros Hdata. rewrite <- (Hsame Hdata). reflexivity.
    + eexists. split; [reflexivity|]. split; [reflexivity|].
      intros Hdata. rewrite <- (Hsame Hdata). reflexivity.
  - intros Hio. unfold beforeUpdateMany. cbn [get_opt]. rewrite Hio.
    cbn [truthy negb]. rewrite own_prop_set_prop_same by discriminate.
    cbn [put state_after get_opt].
    rewrite own_prop_set_prop_same by discriminate.
    reflexivity.
  - intros captured Hcap Hwhere.
    unfold afterUpdateMany. rewrite Hcap.
    rewrite (truthy_get_opt _ _ Hwhere), Hwhere. cbn [negb orb].
    rewrite (json_clone_truthy _ Hwhere).
    unfold with_populate. destruct (hasPopulate populateConfig);
      eexists; split; reflexivity.
  - intros issued modelInfo rows Hfind Hok.
    unfold run_task, task_body.
    rewrite (@emit_many_rows h "create" uid issued modelInfo rows Hfind Hok).
    reflexivity.
  - intros issued modelInfo rows Hfind Hok.
    unfold run_task, task_body.
    rewrite (@emit_many_rows h "update" uid issued modelInfo rows Hfind Hok).
    reflexivity.
Qed.

Lemma bulk_read_back_witness :
  (exists issued,
      afterCreateMany sample_host (JStr "api::article.article") (JStr "*")
                      bulk_create_event (initial_world Task) =
        scheduled sample_host bulk_create_event (initial_world Task)
                  (CreateManyTask (JStr "api::article.article") issued article) 50 /\
      read_back_as_stated (JStr "*") bulk_create_event = Normal issued) /\
  (exists issued,
      with_populate JUndefined
        (JObj [("filters", JObj [("draft", JBool true)])]) = Normal issued /\
      afterUpdateMany sample_host (JStr "api::article.article") JUndefined
                      captured_bulk_update_event (initial_world Task) =
        scheduled sample_host captured_bulk_update_event (initial_world Task)
                  (UpdateManyTask (JStr "api::article.article") issued article) 50) /\
  run_task sample_host
    (UpdateManyTask (JStr "api::article.article")
                    (JObj [("filters", JObj [("draft", JBool true)])]) article) =
    FindMany (JStr "api::article.article")
             (JObj [("filters", JObj [("draft", JBool true)])]) ::
      map (fun r => Emit {| env_event := "update"; env_schema := article;
                            env_data := r |}) article_rows /\
  run_task sample_host
    (CreateManyTask (JStr "api::article.article")
                    (JObj [("filters", JObj [("id", JArr [JNum 11; JNum 12])])])
                    article) =
    FindMany (JStr "api::article.article")
             (JObj [("filters", JObj [("id", JArr [JNum 11; JNum 12])])]) ::
      map (fun r => Emit {| env_event := "create"; env_schema := article;
                            env_data := r |}) article_rows /\
  get_opt (get_opt (JObj (state captured_bulk_update_event)) "io") "params" =
    params bulk_update_event.
Proof.
  split; [|split; [|split; [|split]]].
  - destruct (@bulk_read_back sample_host (JStr "api::article.article") (JStr "*")
                bulk_create_event (initial_world Task))
      as [Hcreate _].
    destruct (Hcreate _ eq_refl eq_refl) as [issued [_ [Hsched Hsame]]].
    exists issued. split; [exact Hsched|]. apply Hsame. reflexivity.
  - destruct (@bulk_read_back sample_host (JStr "api::article.article") JUndefined
                captured_bulk_update_event (initial_world Task))
      as [_ [_ [Hupdate _]]].
    apply (Hupdate _ eq_refl eq_refl).
  - destruct (@bulk_read_back sample_host (JStr "api::article.article") JUndefined
                captured_bulk_update_event (initial_world Task))
      as [_ [_ [_ [_ Hrows]]]].
    apply Hrows; [reflexivity | intros; reflexivity].
  - destruct (@bulk_read_back sample_host (JStr "api::article.article") JUndefined
                bulk_create_event (initial_world Task))
      as [_ [_ [_ [Hrows _]]]].
    apply Hrows; [reflexivity | intros; reflexivity].
  - destruct (@bulk_read_back sample_host (JStr "api::article.article") JUndefined
                bulk_update_event (initial_world Task))
      as [_ [Hcaptured _]].
    apply Hcaptured. reflexivity.
Defined.

(** C4, as stated, fails for [afterUpdateMany]: the query it hands to
    [findMany] carries the captured filters only, while the query builder's
    query for the same event also carries the limit taken from the result
    count. *)
Lemma afterUpdateMany_read_back_counterexample :
  exists issued,
    flat_map (fun t => queries (run_task sample_host t))
      (pending_tasks
         (world_after (afterUpdateMany sample_host (JStr "api::article.article")
                                       JUndefined captured_bulk_update_event
                                       (initial_world Task)))) = [issued] /\
    issued = JObj [("filters", JObj [("draft", JBool true)])] /\
    read_back_as_stated JUndefined captured_bulk_update_event =
      Normal (JObj [("filters", JObj [("draft", JBool true)]); ("limit", JNum 2)]) /\
    read_back_as_stated JUndefined captured_bulk_update_event <> Normal issued.
Proof.
  eexists. split; [reflexivity|]. split; [reflexivity|]. split; [reflexivity|].
  discriminate.
Qed.

(** ** Commit scheduler *)

Section SchedulerProperties.
Variable Callback : Type.

Lemma filter_insert_timer (P : Timer Callback -> bool) t q :
  List.length (filter P (insert_timer t q)) =
  (if P t then 1 else 0) + List.length (filter P q).
Proof.
  induction q as [|x q IH]; simpl.
  - destruct (P t); reflexivity.
  - destruct (due x <=? due t)%nat; simpl.
    + destruct (P x); simpl; rewrite IH; lia.
    + destruct (P t), (P x); simpl; lia.
Qed.

Lemma In_insert_timer (x t : Timer Callback) q :
  In x (insert_timer t q) <-> x = t \/ In x q.
Proof.
  induction q as [|y q IH]; simpl.
  - intuition.
  - destruct (due y <=? due t)%nat; simpl; rewrite ?IH; intuition.
Qed.

Lemma length_insert_timer (t : Timer Callback) q :
  List.length (insert_timer t q) = S (List.length q).
Proof.
  induction q as [|y q IH]; simpl; [reflexivity|].
  destruct (due y <=? due t)%nat; simpl; rewrite ?IH; reflexivity.
Qed.

Lemma filter_none_below (A : Type) (f : A -> nat) n (l : list A) :
  Forall (fun x => f x < n) l ->
  List.length (filter (fun x => f x =? n)%nat l) = 0.
Proof.
  induction 1 as [|x l Hx _ IH]; simpl; [reflexivity|].
  destruct (Nat.eqb_spec (f x) n); [lia | exact IH].
Qed.

Lemma filter_split_length (A : Type) (P Q : A -> bool) (l : list A) :
  List.length (filter P (filter Q l)) +
  List.length (filter P (filter (fun x => negb (Q x)) l)) =
  List.length (filter P l).
Proof.
  induction l as [|x l IH]; simpl; [reflexivity|].
  destruct (Q x); simpl; destruct (P x); simpl; lia.
Qed.

Lemma filter_split_total (A : Type) (Q : A -> bool) (l : list A) :
  List.length (filter Q l) + List.length (filter (fun x => negb (Q x)) l) =
  List.length l.
Proof.
  induction l as [|x l IH]; simpl; [reflexivity|].
  destruct (Q x); simpl; lia.
Qed.

(** What the commit listeners leave behind when they are called. *)
Lemma fold_run_runner (ls : list (Runner Callback)) : forall w,
  transactionCtx (fold_left (fun w r => run_runner r w) ls w) = transactionCtx w /\
  activeTx (fold_left (fun w r => run_runner r w) ls w) = activeTx w /\
  clock (fold_left (fun w r => run_runner r w) ls w) = clock w /\
  nextId (fold_left (fun w r => run_runner r w) ls w) = nextId w /\
  console (fold_left (fun w r => run_runner r w) ls w) = console w /\
  ran (fold_left (fun w r => run_runner r w) ls w) = ran w /\
  (forall id,
      count_timers id (fold_left (fun w r => run_runner r w) ls w) =
      count_timers id w +
      List.length (filter (fun r => runner_id r =? id)%nat ls)) /\
  List.length (timers (fold_left (fun w r => run_runner r w) ls w)) =
    List.length (timers w) + List.length ls /\
  (forall t, In t (timers (fold_left (fun w r => run_runner r w) ls w)) ->
     In t (timers w) \/
     exists r, In r ls /\
               t = {| due := clock w + runner_delay r; timer_id := runner_id r;
                      timer_callback := runner_callback r |}).
Proof.
  induction ls as [|r ls IH]; intros w; simpl.
  - repeat split; simpl; auto; lia.
  - destruct (IH (run_runner r w)) as [H1 [H2 [H3 [H4 [H5 [H6 [H7 [H8 H9]]]]]]]].
    repeat split; try (etransitivity; [eassumption | reflexivity]).
    + intros id. rewrite H7. unfold count_timers, run_runner, setTimeout. simpl.
      rewrite filter_insert_timer. simpl.
      destruct (runner_id r =? id)%nat; simpl; lia.
    + rewrite H8. unfold run_runner, setTimeout. simpl.
      rewrite length_insert_timer. lia.
    + intros t Ht. destruct (H9 t Ht) as [Hin | [r' [Hr' Heq]]].
      * unfold run_runner, setTimeout in Hin. simpl in Hin.
        apply In_insert_timer in Hin. destruct Hin as [-> | Hin]; [|now left].
        right. exists r. split; [now left | reflexivity].
      * right. exists r'. split; [now right | exact Heq].
Qed.

(** The two outcomes of [scheduleAfterTransaction]: the runner is put on
    the open transaction's commit listeners, or it is run at once and
    leaves a timer. *)
Lemma schedule_cases txModule (callback : Callback) delay w :
  nextId (scheduleAfterTransaction txModule callback delay w) = S (nextId w) /\
  clock (scheduleAfterTransaction txModule callback delay w) = clock w /\
  ran (scheduleAfterTransaction txModule callback delay w) = ran w /\
  ((exists ls,
       activeTx w = Some ls /\ ctx_obtainable txModule w /\
       activeTx (scheduleAfterTransaction txModule callback delay w) =
         Some (ls ++ [{| runner_id := nextId w; runner_callback := callback;
                         runner_delay := delay |}]) /\
       timers (scheduleAfterTransaction txModule callback delay w) = timers w) \/
   ((activeTx w = None \/ ~ ctx_obtainable txModule w) /\
    activeTx (scheduleAfterTransaction txModule callback delay w) = activeTx w /\
    timers (scheduleAfterTransaction txModule callback delay w) =
      insert_timer {| due := clock w + delay; timer_id := nextId w;
                      timer_callback := callback |} (timers w))).
Proof.
  unfold scheduleAfterTransaction, getTransactionCtx, ctx_obtainable.
  destruct (transactionCtx w) as [[]|] eqn:Ectx; [| |destruct txModule];
    cbn; rewrite ?Ectx;
    destruct (activeTx w) as [ls|] eqn:Etx; cbn; rewrite ?Etx; cbn;
    repeat split;
    solve [ left; exists ls; repeat split; auto
          | right; repeat split; auto;
            right; intros [H|[H1 H2]]; discriminate ].
Qed.

Lemma filter_length_zero (A : Type) (f : A -> bool) (l : list A) :
  List.length (filter f l) = 0 <-> (forall x, In x l -> f x = false).
Proof.
  induction l as [|y l IH]; simpl.
  - split; [intros _ x [] | reflexivity].
  - destruct (f y) eqn:E; simpl.
    + split; [discriminate|]. intros H. specialize (H y (or_introl eq_refl)). congruence.
    + rewrite IH. split.
      * intros H x [<-|Hx]; auto.
      * intros H x Hx. apply H. now right.
Qed.

Lemma count_ran_map id (now : nat) (l : list (Timer Callback)) :
  List.length
    (filter (fun r => run_id r =? id)%nat
       (map (fun t => {| ran_at := now; run_id := timer_id t;
                         run_callback := timer_callback t |}) l)) =
  List.length (filter (fun t => timer_id t =? id)%nat l).
Proof.
  induction l as [|t l IH]; simpl; [reflexivity|].
  destruct (timer_id t =? id)%nat; simpl; rewrite IH; reflexivity.
Qed.

(** For a closure that is on no commit listener list, no step creates or
    loses a run: what is pending stays pending or runs. *)
Lemma step_counts txModule (w : World Callback) s id :
  id < nextId w -> count_listeners id w = 0 ->
  id < nextId (step txModule w s) /\
  count_listeners id (step txModule w s) = 0 /\
  count_timers id (step txModule w s) + count_ran id (step txModule w s) =
    count_timers id w + count_ran id w /\
  count_ran id w <= count_ran id (step txModule w s).
Proof.
  intros Hid Hls. destruct s as [| | |d| |callback delay]; cbn [step].
  - unfold begin. destruct (activeTx w) eqn:E; [auto|].
    unfold count_listeners, count_timers, count_ran in *. cbn. auto.
  - unfold commit. destruct (activeTx w) as [ls|] eqn:E; [|auto].
    destruct (fold_run_runner ls (set_activeTx None w))
      as [_ [Htx [_ [Hnext [_ [Hran [Hcount _]]]]]]].
    unfold count_listeners, count_ran in *. rewrite Htx, Hnext, Hran, Hcount.
    rewrite E in Hls. cbn. unfold count_timers. cbn. repeat split; lia.
  - unfold rollback, count_listeners, count_timers, count_ran in *. cbn. auto.
  - unfold elapse, count_listeners, count_timers, count_ran in *. cbn. auto.
  - unfold turn, count_listeners, count_timers, count_ran in *. cbn.
    rewrite filter_app, length_app, count_ran_map.
    pose proof (filter_split_length (fun t => timer_id t =? id)%nat
                  (expired (clock w)) (timers w)).
    repeat split; auto; lia.
  - destruct (schedule_cases txModule callback delay w)
      as [Hnext [_ [Hran [[ls [Etx [_ [Etx' Htimers]]]] | [_ [Etx' Htimers]]]]]];
      unfold count_listeners, count_timers, count_ran in *;
      rewrite Hnext, Hran, Etx', Htimers.
    + rewrite Etx in Hls. rewrite filter_app, length_app. cbn.
      destruct (Nat.eqb_spec (nextId w) id); [lia|]. cbn. repeat split; lia.
    + rewrite filter_insert_timer. cbn.
      destruct (Nat.eqb_spec (nextId w) id); [lia|]. repeat split; auto; lia.
Qed.

Lemma step_timely txModule (w : World Callback) s id callback t0 :
  id < nextId w -> count_listeners id w = 0 ->
  timely id callback t0 w -> timely id callback t0 (step txModule w s).
Proof.
  intros Hid Hls [Htimers Hran].
  destruct s as [| | |d| |callback' delay]; cbn [step].
  - unfold begin. destruct (activeTx w); split; auto.
  - unfold commit. destruct (activeTx w) as [ls|] eqn:E; [|split; auto].
    destruct (fold_run_runner ls (set_activeTx None w))
      as [_ [_ [_ [_ [_ [Hran' [_ [_ Hin]]]]]]]].
    split.
    + intros t Ht Hidt. destruct (Hin t Ht) as [Hold | [r [Hr Heq]]].
      * now apply Htimers.
      * exfalso. unfold count_listeners in Hls. rewrite E in Hls.
        rewrite filter_length_zero in Hls. specialize (Hls r Hr).
        subst t. cbn in Hidt. apply Nat.eqb_neq in Hls. contradiction.
    + rewrite Hran'. exact Hran.
  - split; auto.
  - split; auto.
  - unfold turn. split; cbn.
    + intros t Ht. apply filter_In in Ht. now apply Htimers.
    + intros r Hr Hidr. apply in_app_or in Hr. destruct Hr as [Hr|Hr]; [auto|].
      apply in_map_iff in Hr. destruct Hr as [t [<- Ht]].
      apply filter_In in Ht. destruct Ht as [Ht Hexp].
      cbn in Hidr |- *. destruct (Htimers t Ht Hidr) as [Hdue Hcb].
      unfold expired in Hexp. apply Nat.leb_le in Hexp. split; [lia | exact Hcb].
  - destruct (schedule_cases txModule callback' delay w)
      as [Hnext [_ [Hran' [[ls [_ [_ [_ Htimers']]]] | [_ [_ Htimers']]]]]];
      split; rewrite ?Htimers', ?Hran'; auto.
    intros t Ht Hidt. apply In_insert_timer in Ht. destruct Ht as [-> | Ht]; [|auto].
    cbn in Hidt. lia.
Qed.

(** The same, along any run. *)
Lemma run_counts txModule steps : forall (w : World Callback) id callback t0,
  id < nextId w -> count_listeners id w = 0 -> timely id callback t0 w ->
  id < nextId (run txModule steps w) /\
  count_listeners id (run txModule steps w) = 0 /\
  timely id callback t0 (run txModule steps w) /\
  count_timers id (run txModule steps w) + count_ran id (run txModule steps w) =
    count_timers id w + count_ran id w /\
  count_ran id w <= count_ran id (run txModule steps w).
Proof.
  induction steps as [|s steps IH]; intros w id callback t0 Hid Hls Ht.
  - cbn. split; [|split; [|split; [|split]]]; auto.
  - destruct (step_counts txModule w s Hid Hls) as [Hid' [Hls' [Hsum Hmono]]].
    pose proof (step_timely txModule s Hid Hls Ht) as Ht'.
    destruct (IH (step txModule w s) id callback t0 Hid' Hls' Ht')
      as [H1 [H2 [H3 [H4 H5]]]].
    unfold run in *. cbn [fold_left].
    split; [|split; [|split; [|split]]]; auto; lia.
Qed.

(** Once its expiry has passed, a turn of the event loop fires a timer. *)
Lemma turn_fires (w : World Callback) id callback t0 :
  timely id callback t0 w -> t0 <= clock w -> count_timers id (turn w) = 0.
Proof.
  intros [Htimers _] Hclock. unfold count_timers, turn. cbn.
  apply filter_length_zero. intros t Ht. apply filter_In in Ht.
  destruct Ht as [Ht Hexp]. destruct (Nat.eqb_spec (timer_id t) id) as [Hid|]; [|reflexivity].
  destruct (Htimers t Ht Hid) as [Hdue _]. unfold expired in Hexp.
  apply negb_true_iff, Nat.leb_gt in Hexp. lia.
Qed.

(** A closure with one timer pending and no run so far runs exactly once:
    along any run it is still pending or has run once, never before its
    expiry; and after a turn of the event loop past its expiry it has run,
    once and for all. *)
Lemma pending_runs_once txModule (w : World Callback) id callback t0 :
  id < nextId w -> count_listeners id w = 0 -> timely id callback t0 w ->
  count_timers id w = 1 -> count_ran id w = 0 ->
  forall steps,
    count_timers id (run txModule steps w) + count_ran id (run txModule steps w) = 1 /\
    (forall r, In r (ran (run txModule steps w)) -> run_id r = id ->
               t0 <= ran_at r /\ run_callback r = callback) /\
    (t0 <= clock (run txModule steps w) ->
     forall more,
       count_ran id (run txModule more (turn (run txModule steps w))) = 1 /\
       count_timers id (run txModule more (turn (run txModule steps w))) = 0).
Proof.
  intros Hid Hls Ht Htimers Hran steps.
  destruct (@run_counts txModule steps w id callback t0 Hid Hls Ht)
    as [Hid1 [Hls1 [Ht1 [Hsum1 _]]]].
  split; [lia|]. split; [apply Ht1|].
  intros Hclock more.
  pose proof (turn_fires Ht1 Hclock) as Hfired.
  destruct (step_counts txModule (run txModule steps w) (Turn Callback) Hid1 Hls1)
    as [Hid2 [Hls2 [Hsum2 _]]].
  pose proof (step_timely txModule (Turn Callback) Hid1 Hls1 Ht1) as Ht2.
  cbn [step] in *.
  destruct (@run_counts txModule more (turn (run txModule steps w)) id callback t0
              Hid2 Hls2 Ht2)
    as [_ [_ [_ [Hsum3 Hmono3]]]].
  lia.
Qed.

(** Closure identities stay fresh: every world reached from the initial
    one satisfies [ids_fresh]. *)
Lemma ids_fresh_initial : ids_fresh (initial_world Callback).
Proof. repeat split; constructor. Qed.

Lemma ids_fresh_step txModule (w : World Callback) s :
  ids_fresh w -> ids_fresh (step txModule w s).
Proof.
  intros [Ht [Hl Hr]]. unfold ids_fresh, listeners_of in *.
  rewrite !Forall_forall in *.
  destruct s as [| | |d| |callback delay]; cbn [step].
  - unfold begin. destruct (activeTx w) eqn:E; cbn; rewrite ?E;
      (split; [exact Ht|]); (split; [|exact Hr]); [exact Hl | intros x []].
  - unfold commit. destruct (activeTx w) as [ls|] eqn:E; [|rewrite E; auto].
    destruct (fold_run_runner ls (set_activeTx None w))
      as [_ [Htx [_ [Hnext [_ [Hran [_ [_ Hfrom]]]]]]]].
    rewrite Htx, Hnext, Hran. cbn. split; [|split; [intros x []| exact Hr]].
    intros t Hin. destruct (Hfrom t Hin) as [Hold | [r [Hrin ->]]]; cbn; auto.
  - unfold rollback. cbn. split; [exact Ht|]. split; [intros x []| exact Hr].
  - unfold elapse. cbn. auto.
  - unfold turn. cbn. split; [|split; [exact Hl|]].
    + intros t Hin. apply filter_In in Hin. now apply Ht.
    + intros r Hin. apply in_app_or in Hin. destruct Hin as [Hin|Hin]; [auto|].
      apply in_map_iff in Hin. destruct Hin as [t [<- Hin]].
      apply filter_In in Hin. cbn. now apply Ht.
  - destruct (schedule_cases txModule callback delay w)
      as [Hnext [_ [Hran [[ls [Etx [_ [Hact Htimers]]]] | [_ [Hact Htimers]]]]]];
      rewrite Hnext, Hran, Hact, Htimers.
    + rewrite Etx in Hl. split; [|split].
      * intros t Hin. specialize (Ht t Hin). lia.
      * intros r Hin. apply in_app_or in Hin.
        destruct Hin as [Hin|[<-|[]]]; [specialize (Hl r Hin); lia | cbn; lia].
      * intros r Hin. specialize (Hr r Hin). lia.
    + split; [|split].
      * intros t Hin. apply In_insert_timer in Hin.
        destruct Hin as [-> | Hin]; [cbn; lia | specialize (Ht t Hin); lia].
      * intros r Hin. specialize (Hl r Hin). lia.
      * intros r Hin. specialize (Hr r Hin). lia.
Qed.

Lemma ids_fresh_run txModule steps : forall (w : World Callback),
  ids_fresh w -> ids_fresh (run txModule steps w).
Proof.
  induction steps as [|s steps IH]; intros w Hw; [exact Hw|].
  unfold run. cbn [fold_left]. apply IH. now apply ids_fresh_step.
Qed.

Lemma ids_fresh_counts (w : World Callback) :
  ids_fresh w ->
  count_timers (nextId w) w = 0 /\ count_listeners (nextId w) w = 0 /\
  count_ran (nextId w) w = 0.
Proof.
  intros [Ht [Hl Hr]]. unfold count_timers, count_listeners, count_ran, listeners_of in *.
  repeat split.
  - now apply filter_none_below.
  - destruct (activeTx w); [now apply filter_none_below | reflexivity].
  - now apply filter_none_below.
Qed.

(** Scheduling inside an open transaction, with the context at hand, puts
    the runner on the commit listeners and nowhere else. *)
Lemma schedule_waits txModule (w : World Callback) callback delay ls :
  ids_fresh w -> activeTx w = Some ls -> ctx_obtainable txModule w ->
  activeTx (scheduleAfterTransaction txModule callback delay w) =
    Some (ls ++ [{| runner_id := nextId w; runner_callback := callback;
                    runner_delay := delay |}]) /\
  timers (scheduleAfterTransaction txModule callback delay w) = timers w /\
  ran (scheduleAfterTransaction txModule callback delay w) = ran w /\
  waiting (nextId w) callback delay (scheduleAfterTransaction txModule callback delay w).
Proof.
  intros Hfresh Etx Hctx.
  destruct (ids_fresh_counts Hfresh) as [Hc1 [Hc2 Hc3]].
  destruct (schedule_cases txModule callback delay w)
    as [Hnext [_ [Hran [[ls' [Etx' [_ [Hact Htimers]]]] | [[Hnone|Hnot] _]]]]];
    [| congruence | contradiction].
  rewrite Etx in Etx'. inversion Etx'; subst ls'.
  split; [exact Hact|]. split; [exact Htimers|]. split; [exact Hran|].
  unfold waiting. split; [lia|].
  split; [unfold count_timers in *; now rewrite Htimers|].
  split; [unfold count_ran in *; now rewrite Hran|].
  unfold count_listeners, listeners_of in *. rewrite Hact. rewrite Etx in Hc2.
  split.
  - rewrite filter_app, length_app, Hc2. cbn. now rewrite Nat.eqb_refl.
  - intros r Hin Hrid. apply in_app_or in Hin.
    destruct Hin as [Hin|[<-|[]]]; [|split; reflexivity].
    exfalso. rewrite filter_length_zero in Hc2. specialize (Hc2 r Hin).
    apply Nat.eqb_neq in Hc2. contradiction.
Qed.

(** While the transaction stays open the runner keeps waiting. *)
Lemma step_waiting txModule (w : World Callback) s id callback delay :
  waiting id callback delay w ->
  match s with Commit _ | Rollback _ => False | _ => True end ->
  waiting id callback delay (step txModule w s).
Proof.
  intros Hw Hs. pose proof Hw as [Hid [Ht [Hr [Hl Hcb]]]].
  assert (Hopen : exists ls, activeTx w = Some ls).
  { unfold count_listeners in Hl. destruct (activeTx w); [eauto | discriminate]. }
  destruct Hopen as [ls Etx].
  destruct s as [| | |d| |callback' delay']; cbn [step]; try contradiction.
  - unfold begin. rewrite Etx. exact Hw.
  - exact Hw.
  - pose proof (filter_split_length (fun t => timer_id t =? id)%nat
                  (expired (clock w)) (timers w)) as Hsplit.
    unfold waiting, turn, count_timers, count_ran, count_listeners, listeners_of in *.
    cbn. rewrite filter_app, length_app, count_ran_map.
    split; [exact Hid|]. split; [lia|]. split; [lia|]. split; [exact Hl | exact Hcb].
  - destruct (schedule_cases txModule callback' delay' w)
      as [Hnext [_ [Hran [[ls' [Etx' [_ [Hact Htimers]]]] | [_ [Hact Htimers]]]]]];
      unfold waiting, count_timers, count_ran, count_listeners, listeners_of in *;
      rewrite Hnext, Hran, Hact, Htimers.
    + rewrite Etx' in *. rewrite filter_app, length_app. cbn.
      destruct (Nat.eqb_spec (nextId w) id); [lia|]. cbn.
      split; [lia|]. split; [exact Ht|]. split; [exact Hr|]. split; [lia|].
      intros r Hin Hrid. apply in_app_or in Hin.
      destruct Hin as [Hin|[<-|[]]]; [auto | cbn in Hrid; lia].
    + rewrite filter_insert_timer. cbn.
      destruct (Nat.eqb_spec (nextId w) id); [lia|].
      split; [lia|]. split; [lia|]. split; [exact Hr|]. split; [exact Hl | exact Hcb].
Qed.

Lemma run_waiting txModule steps : forall (w : World Callback) id callback delay,
  waiting id callback delay w -> keeps_tx_open steps = true ->
  waiting id callback delay (run txModule steps w).
Proof.
  induction steps as [|s steps IH]; intros w id callback delay Hw Hopen; [exact Hw|].
  cbn in Hopen. apply andb_true_iff in Hopen. destruct Hopen as [Hs Hopen].
  unfold run. cbn [fold_left]. apply IH; [|exact Hopen].
  apply step_waiting; [exact Hw|]. destruct s; try discriminate; exact I.
Qed.

(** At commit a waiting runner becomes one timer, expiring [delay] after
    the commit. *)
Lemma commit_waiting (w : World Callback) id callback delay :
  waiting id callback delay w ->
  id < nextId (commit w) /\ count_listeners id (commit w) = 0 /\
  count_timers id (commit w) = 1 /\ count_ran id (commit w) = 0 /\
  timely id callback (clock w + delay) (commit w).
Proof.
  intros [Hid [Ht [Hr [Hl Hcb]]]]. unfold commit.
  unfold count_listeners, listeners_of in *.
  destruct (activeTx w) as [ls|] eqn:Etx; [|discriminate].
  destruct (fold_run_runner ls (set_activeTx None w))
    as [_ [Htx [_ [Hnext [_ [Hran [Hcount [_ Hfrom]]]]]]]].
  assert (Hnot_timer : forall t, In t (timers w) -> timer_id t <> id).
  { intros t Hin. unfold count_timers in Ht. rewrite filter_length_zero in Ht.
    specialize (Ht t Hin). now apply Nat.eqb_neq in Ht. }
  assert (Hnot_ran : forall r, In r (ran w) -> run_id r <> id).
  { intros r Hin. unfold count_ran in Hr. rewrite filter_length_zero in Hr.
    specialize (Hr r Hin). now apply Nat.eqb_neq in Hr. }
  split; [rewrite Hnext; exact Hid|].
  split; [rewrite Htx; reflexivity|].
  split; [rewrite Hcount; unfold count_timers in *; cbn; lia|].
  split; [unfold count_ran in *; rewrite Hran; exact Hr|].
  split.
  - intros t Hin' Hidt. destruct (Hfrom t Hin') as [Hold | [r [Hrin Heq]]].
    + exfalso. exact (Hnot_timer t Hold Hidt).
    + subst t. cbn in *. destruct (Hcb r Hrin Hidt) as [-> ->]. split; reflexivity.
  - intros r Hin' Hidr. rewrite Hran in Hin'. exfalso. exact (Hnot_ran r Hin' Hidr).
Qed.

(** At rollback a waiting runner is gone. *)
Lemma rollback_waiting (w : World Callback) id callback delay :
  waiting id callback delay w ->
  id < nextId (rollback w) /\ count_listeners id (rollback w) = 0 /\
  count_timers id (rollback w) = 0 /\ count_ran id (rollback w) = 0 /\
  timely id callback 0 (rollback w).
Proof.
  intros [Hid [Ht [Hr [Hl Hcb]]]].
  assert (Hnot_timer : forall t, In t (timers w) -> timer_id t <> id).
  { intros t Hin. unfold count_timers in Ht. rewrite filter_length_zero in Ht.
    specialize (Ht t Hin). now apply Nat.eqb_neq in Ht. }
  assert (Hnot_ran : forall r, In r (ran w) -> run_id r <> id).
  { intros r Hin. unfold count_ran in Hr. rewrite filter_length_zero in Hr.
    specialize (Hr r Hin). now apply Nat.eqb_neq in Hr. }
  unfold rollback, count_listeners, count_timers, count_ran, timely in *. cbn.
  split; [exact Hid|]. split; [reflexivity|]. split; [exact Ht|]. split; [exact Hr|].
  split.
  - intros t Hin Hidt. exfalso. exact (Hnot_timer t Hin Hidt).
  - intros r Hin Hidr. exfalso. exact (Hnot_ran r Hin Hidr).
Qed.

(** Without the transaction-context module the scheduler sets a timer,
    whether or not a transaction is open, and caches the fallback. *)
Lemma schedule_fallback (w : World Callback) callback delay :
  transactionCtx w <> Some StoreTxCtx ->
  timers (scheduleAfterTransaction false callback delay w) =
    insert_timer {| due := clock w + delay; timer_id := nextId w;
                    timer_callback := callback |} (timers w) /\
  activeTx (scheduleAfterTransaction false callback delay w) = activeTx w /\
  ran (scheduleAfterTransaction false callback delay w) = ran w /\
  nextId (scheduleAfterTransaction false callback delay w) = S (nextId w) /\
  transactionCtx (scheduleAfterTransaction false callback delay w) = Some NoopTxCtx /\
  console (scheduleAfterTransaction false callback delay w) =
    console w ++ (if ctx_unset w then [tx_warning] else []).
Proof.
  intros Hctx. unfold scheduleAfterTransaction, getTransactionCtx, ctx_unset.
  destruct (transactionCtx w) as [[]|] eqn:Ectx; [congruence | |]; cbn;
    rewrite ?Ectx, ?app_nil_r; repeat split; auto.
Qed.

Lemma step_without_ctx (w : World Callback) s :
  transactionCtx w <> Some StoreTxCtx -> listeners_of w = [] ->
  transactionCtx (step false w s) <> Some StoreTxCtx /\
  listeners_of (step false w s) = [] /\
  List.length (timers (step false w s)) + List.length (ran (step false w s)) =
    List.length (timers w) + List.length (ran w) + count_schedules [s] /\
  console (step false w s) =
    console w ++ (if ctx_unset w && (0 <? count_schedules [s])%nat
                  then [tx_warning] else []) /\
  ctx_unset (step false w s) = ctx_unset w && (count_schedules [s] =? 0)%nat.
Proof.
  intros Hctx Hls. destruct s as [| | |d| |callback delay]; cbn [step].
  - unfold begin, listeners_of, ctx_unset in *.
    destruct (activeTx w) as [ls|] eqn:E; cbn; rewrite ?E;
      rewrite ?andb_false_r, ?andb_true_r, ?app_nil_r; repeat split; auto; lia.
  - unfold commit, listeners_of, ctx_unset in *.
    destruct (activeTx w) as [ls|] eqn:E; [subst ls|]; cbn; rewrite ?E;
      rewrite ?andb_false_r, ?andb_true_r, ?app_nil_r; repeat split; auto; lia.
  - unfold rollback, listeners_of, ctx_unset in *. cbn.
    rewrite ?andb_false_r, ?andb_true_r, ?app_nil_r; repeat split; auto; lia.
  - unfold elapse, listeners_of, ctx_unset in *. cbn.
    rewrite ?andb_false_r, ?andb_true_r, ?app_nil_r; repeat split; auto; lia.
  - pose proof (filter_split_total (expired (clock w)) (timers w)) as Hsplit.
    unfold turn, listeners_of, ctx_unset in *. cbn.
    rewrite length_app, length_map.
    rewrite ?andb_false_r, ?andb_true_r, ?app_nil_r; repeat split; auto; lia.
  - destruct (schedule_fallback w callback delay Hctx)
      as [Ht [Ha [Hr [_ [Hc Hcon]]]]].
    unfold listeners_of, ctx_unset in *. rewrite Ht, Ha, Hr, Hc, Hcon.
    rewrite length_insert_timer. cbn.
    rewrite ?andb_false_r, ?andb_true_r. repeat split; auto; try lia. discriminate.
Qed.

Lemma count_schedules_cons (s : Step Callback) steps :
  count_schedules (s :: steps) = count_schedules [s] + count_schedules steps.
Proof. unfold count_schedules. cbn. destruct s; reflexivity. Qed.

Lemma run_without_ctx steps : forall (w : World Callback),
  transactionCtx w <> Some StoreTxCtx -> listeners_of w = [] ->
  transactionCtx (run false steps w) <> Some StoreTxCtx /\
  listeners_of (run false steps w) = [] /\
  List.length (timers (run false steps w)) + List.length (ran (run false steps w)) =
    List.length (timers w) + List.length (ran w) + count_schedules steps /\
  console (run false steps w) =
    console w ++ (if ctx_unset w && (0 <? count_schedules steps)%nat
                  then [tx_warning] else []).
Proof.
  induction steps as [|s steps IH]; intros w Hctx Hls.
  - cbn. rewrite andb_false_r, app_nil_r. repeat split; auto.
  - destruct (@step_without_ctx w s Hctx Hls) as [Hctx' [Hls' [Hlen [Hcon Hunset]]]].
    destruct (IH (step false w s) Hctx' Hls') as [H1 [H2 [H3 H4]]].
    unfold run in *. cbn [fold_left]. rewrite count_schedules_cons.
    split; [exact H1|]. split; [exact H2|]. split; [lia|].
    rewrite H4, Hcon, Hunset, <- app_assoc. f_equal.
    assert (Hs : count_schedules [s] = 0 \/ count_schedules [s] = 1)
      by (destruct s; cbn; auto).
    destruct Hs as [E | E]; rewrite E; destruct (ctx_unset w); cbn;
      reflexivity.
Qed.
End SchedulerProperties.

(** C2.  A callback scheduled while a transaction is open (and the
    transaction context can be had) is put on that transaction's commit
    listeners and nowhere else: no timer is set and nothing runs, for as
    long as the transaction stays open.  If the transaction rolls back the
    callback never becomes pending and never runs, whatever happens next.
    If it commits, the callback becomes one timer at the commit, expiring
    [delay] after it; from then on it is either still pending or has run
    exactly once, never both and never twice; any run of it is at or after
    commit time plus [delay]; and once the event loop turns at or after
    that time it has run, once and for all. *)
Theorem commit_listener_runs_after_commit_only
        (Callback : Type) (txModule : bool) (w : World Callback)
        (callback : Callback) (delay : nat)
        (listeners : list (Runner Callback))
        (during : list (Step Callback)) (w1 : World Callback) :
  ids_fresh w -> activeTx w = Some listeners -> ctx_obtainable txModule w ->
  keeps_tx_open during = true ->
  w1 = run txModule during (scheduleAfterTransaction txModule callback delay w) ->
  (activeTx (scheduleAfterTransaction txModule callback delay w) =
     Some (listeners ++ [{| runner_id := nextId w; runner_callback := callback;
                            runner_delay := delay |}]) /\
   timers (scheduleAfterTransaction txModule callback delay w) = timers w /\
   ran (scheduleAfterTransaction txModule callback delay w) = ran w) /\
  (count_listeners (nextId w) w1 = 1 /\
   count_timers (nextId w) w1 = 0 /\ count_ran (nextId w) w1 = 0) /\
  (forall after,
      count_timers (nextId w) (run txModule after (rollback w1)) = 0 /\
      count_ran (nextId w) (run txModule after (rollback w1)) = 0) /\
  (count_timers (nextId w) (commit w1) = 1 /\
   count_ran (nextId w) (commit w1) = 0) /\
  (forall after,
      count_timers (nextId w) (run txModule after (commit w1)) +
      count_ran (nextId w) (run txModule after (commit w1)) = 1 /\
      (forall r, In r (ran (run txModule after (commit w1))) ->
                 run_id r = nextId w ->
                 clock w1 + delay <= ran_at r /\ run_callback r = callback) /\
      (clock w1 + delay <= clock (run txModule after (commit w1)) ->
       forall more,
         count_ran (nextId w)
           (run txModule more (turn (run txModule after (commit w1)))) = 1 /\
         count_timers (nextId w)
           (run txModule more (turn (run txModule after (commit w1)))) = 0)).
Proof.
  intros Hfresh Etx Hctx Hopen ->.
  destruct (@schedule_waits Callback txModule w callback delay listeners Hfresh Etx Hctx)
    as [Hact [Htimers [Hran Hwait]]].
  pose proof (@run_waiting Callback txModule during _ _ _ _ Hwait Hopen) as Hw1.
  split; [auto|].
  split; [destruct Hw1 as [_ [H1 [H2 [H3 _]]]]; auto|].
  split; [|split].
  - intros after.
    destruct (rollback_waiting Hw1) as [Hid [Hl [Ht [Hr Htimely]]]].
    destruct (@run_counts Callback txModule after _ _ _ _ Hid Hl Htimely)
      as [_ [_ [_ [Hsum _]]]].
    lia.
  - destruct (commit_waiting Hw1) as [_ [_ [Ht [Hr _]]]]. auto.
  - destruct (commit_waiting Hw1) as [Hid [Hl [Ht [Hr Htimely]]]].
    apply (pending_runs_once txModule Hid Hl Htimely Ht Hr).
Qed.

Lemma commit_listener_runs_after_commit_only_witness :
  count_ran 0 (run true [Elapse string 500; Turn string]
                   (rollback (run true [Elapse string 5]
                                  (scheduleAfterTransaction true "emit" 50
                                                            open_tx_world)))) = 0 /\
  count_ran 0 (commit (run true [Elapse string 5]
                           (scheduleAfterTransaction true "emit" 50
                                                     open_tx_world))) = 0 /\
  count_ran 0 (run true [] (turn (run true [Elapse string 50]
                   (commit (run true [Elapse string 5]
                                (scheduleAfterTransaction true "emit" 50
                                                          open_tx_world)))))) = 1.
Proof.
  assert (Hfresh : ids_fresh open_tx_world) by (repeat split; constructor).
  assert (Hctx : ctx_obtainable true open_tx_world) by (right; split; reflexivity).
  destruct (@commit_listener_runs_after_commit_only string true open_tx_world
              "emit" 50 [] [Elapse string 5] _ Hfresh eq_refl Hctx eq_refl eq_refl)
    as [_ [_ [Hrollback [[_ Hcommit] Hafter]]]].
  split; [apply (Hrollback [Elapse string 500; Turn string])|].
  split; [exact Hcommit|].
  destruct (Hafter [Elapse string 50]) as [_ [_ Hlive]].
  apply (Hlive (Nat.le_refl _) []).
Defined.

(** C6.  With no transaction open, the scheduler sets a timer for the
    callback, expiring [delay] from now, and registers no commit listener;
    the callback is then pending or has run exactly once, never before its
    delay has passed, and has run once the event loop turns after it.
    When the transaction-context module cannot be loaded the same holds
    whether or not a transaction is open: every callback gets its timer.
    Starting before the first access, the warning is written to the
    console exactly once, at the first scheduling, however many follow;
    no commit listener is ever registered; and every callback scheduled
    is accounted for, pending or run. *)
Theorem runs_immediately_without_transaction
        (Callback : Type) (txModule : bool) (w : World Callback)
        (callback : Callback) (delay : nat) :
  (activeTx w = None ->
   timers (scheduleAfterTransaction txModule callback delay w) =
     insert_timer {| due := clock w + delay; timer_id := nextId w;
                     timer_callback := callback |} (timers w) /\
   activeTx (scheduleAfterTransaction txModule callback delay w) = None /\
   ran (scheduleAfterTransaction txModule callback delay w) = ran w) /\
  (ids_fresh w -> activeTx w = None ->
   forall steps,
     count_timers (nextId w)
       (run txModule steps (scheduleAfterTransaction txModule callback delay w)) +
     count_ran (nextId w)
       (run txModule steps (scheduleAfterTransaction txModule callback delay w)) = 1 /\
     (forall r,
         In r (ran (run txModule steps
                        (scheduleAfterTransaction txModule callback delay w))) ->
         run_id r = nextId w ->
         clock w + delay <= ran_at r /\ run_callback r = callback) /\
     (clock w + delay <=
        clock (run txModule steps (scheduleAfterTransaction txModule callback delay w)) ->
      forall more,
        count_ran (nextId w)
          (run txModule more
             (turn (run txModule steps
                        (scheduleAfterTransaction txModule callback delay w)))) = 1 /\
        count_timers (nextId w)
          (run txModule more
             (turn (run txModule steps
                        (scheduleAfterTransaction txModule callback delay w)))) = 0)) /\
  (transactionCtx w <> Some StoreTxCtx ->
   timers (scheduleAfterTransaction false callback delay w) =
     insert_timer {| due := clock w + delay; timer_id := nextId w;
                     timer_callback := callback |} (timers w) /\
   activeTx (scheduleAfterTransaction false callback delay w) = activeTx w /\
   transactionCtx (scheduleAfterTransaction false callback delay w) =
     Some NoopTxCtx) /\
  (ids_fresh w -> transactionCtx w <> Some StoreTxCtx ->
   forall steps,
     count_timers (nextId w)
       (run false steps (scheduleAfterTransaction false callback delay w)) +
     count_ran (nextId w)
       (run false steps (scheduleAfterTransaction false callback delay w)) = 1 /\
     (forall r,
         In r (ran (run false steps
                        (scheduleAfterTransaction false callback delay w))) ->
         run_id r = nextId w ->
         clock w + delay <= ran_at r /\ run_callback r = callback)) /\
  (transactionCtx w = None -> listeners_of w = [] ->
   forall steps,
     console (run false steps w) =
       console w ++ (if (0 <? count_schedules steps)%nat then [tx_warning] else []) /\
     listeners_of (run false steps w) = [] /\
     List.length (timers (run false steps w)) + List.length (ran (run false steps w)) =
       List.length (timers w) + List.length (ran w) + count_schedules steps).
Proof.
  assert (Hpending : forall m,
    ids_fresh w ->
    timers (scheduleAfterTransaction m callback delay w) =
      insert_timer {| due := clock w + delay; timer_id := nextId w;
                      timer_callback := callback |} (timers w) ->
    activeTx (scheduleAfterTransaction m callback delay w) = activeTx w ->
    nextId w < nextId (scheduleAfterTransaction m callback delay w) /\
    count_listeners (nextId w) (scheduleAfterTransaction m callback delay w) = 0 /\
    timely (nextId w) callback (clock w + delay)
           (scheduleAfterTransaction m callback delay w) /\
    count_timers (nextId w) (scheduleAfterTransaction m callback delay w) = 1 /\
    count_ran (nextId w) (scheduleAfterTransaction m callback delay w) = 0).
  { intros m Hfresh Htimers Hact.
    destruct (ids_fresh_counts Hfresh) as [Hc1 [Hc2 Hc3]].
    destruct (schedule_cases m callback delay w) as [Hnext [_ [Hran _]]].
    unfold count_listeners, count_timers, count_ran, timely in *.
    rewrite Hnext, Hact, Htimers, Hran, filter_insert_timer. cbn.
    rewrite Nat.eqb_refl.
    split; [lia|]. split; [exact Hc2|]. split; [|split; [lia | exact Hc3]].
    split.
    - intros t Hin Hid. apply In_insert_timer in Hin.
      destruct Hin as [-> | Hin]; [split; reflexivity|].
      exfalso. rewrite filter_length_zero in Hc1. specialize (Hc1 t Hin).
      apply Nat.eqb_neq in Hc1. contradiction.
    - intros r Hin Hid. exfalso. rewrite filter_length_zero in Hc3.
      specialize (Hc3 r Hin). apply Nat.eqb_neq in Hc3. contradiction. }
  assert (Hnone : activeTx w = None ->
    timers (scheduleAfterTransaction txModule callback delay w) =
      insert_timer {| due := clock w + delay; timer_id := nextId w;
                      timer_callback := callback |} (timers w) /\
    activeTx (scheduleAfterTransaction txModule callback delay w) = None /\
    ran (scheduleAfterTransaction txModule callback delay w) = ran w).
  { intros Etx.
    destruct (schedule_cases txModule callback delay w)
      as [_ [_ [Hran [[ls [Etx' _]] | [_ [Hact Htimers]]]]]]; [congruence|].
    rewrite Hact, Etx. auto. }
  split; [exact Hnone|]. split; [|split; [|split]].
  - intros Hfresh Etx steps. destruct (Hnone Etx) as [Htimers [Hact _]].
    rewrite <- Etx in Hact.
    destruct (Hpending txModule Hfresh Htimers Hact) as [Hid [Hl [Ht [Hc Hr]]]].
    apply (pending_runs_once txModule Hid Hl Ht Hc Hr).
  - intros Hctx. destruct (schedule_fallback w callback delay Hctx)
      as [Ht [Ha [_ [_ [Hc _]]]]]. auto.
  - intros Hfresh Hctx steps.
    destruct (schedule_fallback w callback delay Hctx) as [Htimers [Hact _]].
    destruct (Hpending false Hfresh Htimers Hact) as [Hid [Hl [Ht [Hc Hr]]]].
    destruct (pending_runs_once false Hid Hl Ht Hc Hr steps) as [H1 [H2 _]].
    split; assumption.
  - intros Hunset Hls steps.
    assert (Hctx : transactionCtx w <> Some StoreTxCtx) by congruence.
    destruct (@run_without_ctx Callback steps w Hctx Hls) as [_ [H2 [H3 H4]]].
    unfold ctx_unset in H4. rewrite Hunset in H4. cbn in H4. auto.
Qed.

Lemma runs_immediately_without_transaction_witness :
  timers (scheduleAfterTransaction true "emit" 50 (initial_world string)) =
    [{| due := 50; timer_id := 0; timer_callback := "emit" |}] /\
  count_ran 0 (run true [] (turn (run true [Elapse string 50]
                 (scheduleAfterTransaction true "emit" 50 (initial_world string))))) = 1 /\
  timers (scheduleAfterTransaction false "emit" 50 open_tx_world) =
    [{| due := 50; timer_id := 0; timer_callback := "emit" |}] /\
  count_timers 0 (run false [Commit string]
                      (scheduleAfterTransaction false "emit" 50 open_tx_world)) +
  count_ran 0 (run false [Commit string]
                   (scheduleAfterTransaction false "emit" 50 open_tx_world)) = 1 /\
  console (run false [Begin string; Schedule "a" 0; Schedule "b" 50; Commit string]
               (initial_world string)) = [tx_warning] /\
  List.length (timers (run false [Begin string; Schedule "a" 0; Schedule "b" 50;
                                  Commit string] (initial_world string))) +
  List.length (ran (run false [Begin string; Schedule "a" 0; Schedule "b" 50;
                               Commit string] (initial_world string))) = 2.
Proof.
  assert (Hopen : ids_fresh open_tx_world) by (repeat split; constructor).
  destruct (@runs_immediately_without_transaction string true (initial_world string)
              "emit" 50) as [Hnone [Honce [_ [_ Hfallback]]]].
  destruct (@runs_immediately_without_transaction string false open_tx_world
              "emit" 50) as [_ [_ [Hdegraded [Hkept _]]]].
  split; [apply (Hnone eq_refl)|].
  split.
  { destruct (Honce (ids_fresh_initial string) eq_refl [Elapse string 50])
      as [_ [_ Hlive]].
    apply (Hlive (Nat.le_refl _) []). }
  split; [apply Hdegraded; discriminate|].
  split; [apply (Hkept Hopen); discriminate|].
  destruct (Hfallback eq_refl eq_refl
              [Begin string; Schedule "a" 0; Schedule "b" 50; Commit string])
    as [Hconsole [_ Hlen]].
  split; [exact Hconsole | exact Hlen].
Defined.

(** ** Handlers and the scheduler *)

(** A handler touches the scheduler through one call of
    [scheduleAfterTransaction] at most; every read and every publication
    is inside the callback it schedules. *)
Lemma handlers_defer_to_scheduler h uid populateConfig event w :
  Forall (fun handler : Handler =>
            world_after (handler event w) = w \/
            exists t delay,
              world_after (handler event w) =
              scheduleAfterTransaction (txModule h) t delay w)
         [afterCreate h uid populateConfig; afterCreateMany h uid populateConfig;
          afterUpdate h uid populateConfig; beforeUpdateMany h uid populateConfig;
          afterUpdateMany h uid populateConfig; afterDelete h uid populateConfig].
Proof.
  repeat (apply Forall_cons;
          [ unfold afterCreate, afterCreateMany, afterUpdate, beforeUpdateMany,
              afterUpdateMany, afterDelete;
            repeat match goal with
                   | |- context [match ?c with _ => _ end] => destruct c
                   end;
            unfold scheduled, skipped, rejected; cbn [world_after];
            first [left; reflexivity | right; do 2 eexists; reflexivity]
          | ]).
  apply Forall_nil.
Qed.

(** Publication waits for the commit: a handler that schedules its
    callback inside an open transaction publishes nothing before
    returning and leaves the callback on the commit listeners, where the
    results on [waiting] above apply. *)
Lemma scheduled_waits_for_commit h event (w : World Task) t delay listeners :
  ids_fresh w -> activeTx w = Some listeners -> ctx_obtainable (txModule h) w ->
  calls (immediate (scheduled h event w t delay)) = [] /\
  completion (scheduled h event w t delay) = Normal tt /\
  waiting (nextId w) t delay (world_after (scheduled h event w t delay)).
Proof.
  intros Hfresh Etx Hctx. split; [reflexivity|]. split; [reflexivity|].
  unfold scheduled. cbn [world_after].
  now destruct (@schedule_waits Task (txModule h) w t delay listeners Hfresh Etx Hctx)
    as [_ [_ [_ Hwait]]].
Qed.

(* ===================================================================== *)
(** * Further properties                                                   *)
(* ===================================================================== *)

(** ** Property lists *)

Lemma existsb_eqb_In k (l : list string) :
  existsb (String.eqb k) l = true <-> In k l.
Proof.
  rewrite existsb_exists. split.
  - intros [x [Hx E]]. apply String.eqb_eq in E. now subst.
  - intros H. exists k. split; [exact H | apply String.eqb_refl].
Qed.

Lemma NoDupb_NoDup (l : list string) : NoDupb l = true <-> NoDup l.
Proof.
  induction l as [|x l IH]; simpl.
  - split; [constructor | reflexivity].
  - rewrite andb_true_iff, negb_true_iff, IH. split.
    + intros [Hx Hl]. constructor; [|exact Hl].
      intros Hin. apply existsb_eqb_In in Hin. congruence.
    + intros H. inversion H as [|? ? Hx Hl]; subst. split; [|exact Hl].
      destruct (existsb (String.eqb x) l) eqn:E; [|reflexivity].
      apply existsb_eqb_In in E. contradiction.
Qed.

Lemma assign_prop_fresh k v props :
  ~ In k (map fst props) -> assign_prop k v props = props ++ [(k, v)].
Proof.
  induction props as [|[k' v'] rest IH]; simpl; intros Hk; [reflexivity|].
  destruct (String.eqb_spec k' k) as [->|Hne]; [exfalso; auto|].
  rewrite IH; [reflexivity | intros H; apply Hk; now right].
Qed.

Lemma keys_assign_prop k v props x :
  In x (map fst (assign_prop k v props)) -> x = k \/ In x (map fst props).
Proof.
  induction props as [|[k' v'] rest IH]; simpl.
  - intros [<-|[]]. now left.
  - destruct (String.eqb_spec k' k) as [->|Hne]; simpl.
    + intros [<-|H]; auto.
    + intros [<-|H]; [right; now left|]. destruct (IH H); auto.
Qed.

Lemma NoDup_assign_prop k v props :
  NoDup (map fst props) -> NoDup (map fst (assign_prop k v props)).
Proof.
  induction props as [|[k' v'] rest IH]; simpl; intros Hnd.
  - constructor; [intros [] | constructor].
  - inversion Hnd as [|? ? Hk' Hrest]; subst.
    destruct (String.eqb_spec k' k) as [->|Hne]; simpl.
    + constructor; assumption.
    + constructor; [|auto]. intros Hin.
      destruct (keys_assign_prop _ _ _ _ Hin); [congruence | contradiction].
Qed.

Lemma NoDup_set_prop k v props :
  NoDup (map fst props) -> NoDup (map fst (set_prop k v props)).
Proof.
  unfold set_prop. destruct (k =? "__proto__"); auto using NoDup_assign_prop.
Qed.

Lemma Forall_set_prop_own (Q : string * JSValue -> Prop) k v props :
  Forall Q props -> (k <> "__proto__" -> Q (k, v)) -> Forall Q (set_prop k v props).
Proof.
  intros HF HQ. unfold set_prop.
  destruct (String.eqb_spec k "__proto__"); [exact HF|].
  apply Forall_assign_prop; auto.
Qed.

(** ** Sanitizer: fixed points, composition, entry points *)

Section SanitizerFurther.
Variable toLowerCase : string -> string.

(** Keys the loop of [removeSensitiveFields] lets through. *)
Lemma fold_sanitize_entry_tidy fields props : forall acc,
  NoDup (map fst acc) ->
  Forall (fun kv => is_sensitive toLowerCase (fst kv) fields = false /\
                    fst kv <> "__proto__" /\
                    clean toLowerCase fields (snd kv) = true) acc ->
  Forall (fun kv => clean toLowerCase fields
                      (removeSensitiveFields toLowerCase (snd kv) fields) = true)
         props ->
  NoDup (map fst (fold_left (sanitize_entry toLowerCase fields) props acc)) /\
  Forall (fun kv => is_sensitive toLowerCase (fst kv) fields = false /\
                    fst kv <> "__proto__" /\
                    clean toLowerCase fields (snd kv) = true)
         (fold_left (sanitize_entry toLowerCase fields) props acc).
Proof.
  induction props as [|kv rest IH]; intros acc Hnd Hacc Hprops; simpl; [auto|].
  inversion Hprops as [|? ? Hkv Hrest]; subst.
  rewrite sanitize_entry_eq.
  destruct (is_sensitive toLowerCase (fst kv) fields) eqn:E; [now apply IH|].
  apply IH; [now apply NoDup_set_prop | | exact Hrest].
  apply Forall_set_prop_own; [exact Hacc|]. intros Hproto. cbn. auto.
Qed.

(** The output of the sanitizer is clean. *)
Lemma sanitize_is_clean fields P :
  clean toLowerCase fields (removeSensitiveFields toLowerCase P fields) = true.
Proof.
  induction P as [| | | | |items IH|props IH] using JSValue_deep_ind;
    try (rewrite sanitize_primitive by reflexivity; reflexivity).
  - rewrite sanitize_arr. cbn. rewrite forallb_forall. intros x Hx.
    apply in_map_iff in Hx. destruct Hx as [y [<- Hy]].
    rewrite Forall_forall in IH. now apply IH.
  - rewrite sanitize_obj. cbn.
    destruct (@fold_sanitize_entry_tidy fields props [])
      as [Hnd HF]; [constructor | constructor | exact IH |].
    apply andb_true_iff. split; [now apply NoDupb_NoDup|].
    rewrite forallb_forall. rewrite Forall_forall in HF.
    intros kv Hkv. destruct (HF kv Hkv) as [H1 [H2 H3]].
    rewrite H1, H3. cbn. rewrite andb_true_r. apply negb_true_iff.
    destruct (String.eqb_spec (fst kv) "__proto__"); [contradiction | reflexivity].
Qed.

(** On an object with distinct keys the loop is a filter followed by the
    recursive calls. *)
Lemma fold_sanitize_entry_filter fields props : forall acc,
  NoDup (map fst props) ->
  (forall k, In k (map fst props) -> ~ In k (map fst acc)) ->
  fold_left (sanitize_entry toLowerCase fields) props acc =
  acc ++ map (fun kv => (fst kv, removeSensitiveFields toLowerCase (snd kv) fields))
             (filter (fun kv => negb (is_sensitive toLowerCase (fst kv) fields)
                                && negb (fst kv =? "__proto__")) props).
Proof.
  induction props as [|[k0 v0] rest IH]; intros acc Hnd Hdisj; simpl.
  - now rewrite app_nil_r.
  - inversion Hnd as [|? ? Hk0 Hrest]; subst.
    rewrite sanitize_entry_eq. cbn [fst snd].
    destruct (is_sensitive toLowerCase k0 fields); cbn [negb andb].
    + apply IH; [exact Hrest|]. intros k Hk. apply Hdisj. now right.
    + unfold set_prop. destruct (String.eqb_spec k0 "__proto__") as [E|E]; cbn [negb].
      * apply IH; [exact Hrest|]. intros k Hk. apply Hdisj. now right.
      * rewrite assign_prop_fresh by (apply Hdisj; now left).
        rewrite IH; [|exact Hrest|].
        -- cbn [map]. now rewrite <- app_assoc.
        -- intros k Hk. rewrite map_app, in_app_iff. cbn.
           intros [Hin|[<-|[]]]; [|contradiction].
           revert Hin. apply Hdisj. now right.
Qed.

Lemma sanitize_obj_filter fields props :
  NoDupb (map fst props) = true ->
  removeSensitiveFields toLowerCase (JObj props) fields =
  JObj (map (fun kv => (fst kv, removeSensitiveFields toLowerCase (snd kv) fields))
            (filter (fun kv => negb (is_sensitive toLowerCase (fst kv) fields)
                               && negb (fst kv =? "__proto__")) props)).
Proof.
  intros Hnd. rewrite sanitize_obj.
  rewrite (@fold_sanitize_entry_filter fields props []); [reflexivity | |auto].
  now apply NoDupb_NoDup.
Qed.

(** A clean value is returned as it is. *)
Lemma sanitize_clean_fixed fields P :
  clean toLowerCase fields P = true ->
  removeSensitiveFields toLowerCase P fields = P.
Proof.
  induction P as [| | | | |items IH|props IH] using JSValue_deep_ind;
    intros Hc; try (apply sanitize_primitive; reflexivity).
  - rewrite sanitize_arr. f_equal. cbn in Hc. rewrite forallb_forall in Hc.
    rewrite Forall_forall in IH.
    rewrite <- (map_id items) at 2. apply map_ext_in. intros x Hx. auto.
  - cbn in Hc. apply andb_true_iff in Hc. destruct Hc as [Hnd Hall].
    rewrite (sanitize_obj_filter fields props Hnd). f_equal.
    rewrite forallb_forall in Hall. rewrite Forall_forall in IH.
    assert (Hfilter : filter (fun kv => negb (is_sensitive toLowerCase (fst kv) fields)
                                        && negb (fst kv =? "__proto__")) props = props).
    { apply forallb_filter_id. rewrite forallb_forall. intros kv Hkv.
      specialize (Hall kv Hkv). apply andb_true_iff in Hall. tauto. }
    rewrite Hfilter. rewrite <- (map_id props) at 2. apply map_ext_in.
    intros [k v] Hkv. cbn. f_equal. apply (IH (k, v) Hkv).
    specialize (Hall (k, v) Hkv). apply andb_true_iff in Hall. tauto.
Qed.
End SanitizerFurther.

Lemma NoDup_keys_filter (f : string * JSValue -> bool) props :
  NoDup (map fst props) -> NoDup (map fst (filter f props)).
Proof.
  induction props as [|kv rest IH]; simpl; intros Hnd; [constructor|].
  inversion Hnd as [|? ? Hk Hrest]; subst.
  destruct (f kv); simpl; [|auto].
  constructor; [|auto]. intros Hin. apply Hk.
  apply in_map_iff in Hin. destruct Hin as [x [Hx Hin]].
  apply filter_In in Hin. apply in_map_iff. exists x. tauto.
Qed.

Lemma filter_map_keys (f : string -> bool) (g : JSValue -> JSValue) props :
  filter (fun kv => f (fst kv)) (map (fun kv => (fst kv, g (snd kv))) props) =
  map (fun kv => (fst kv, g (snd kv))) (filter (fun kv => f (fst kv)) props).
Proof.
  induction props as [|kv rest IH]; simpl; [reflexivity|].
  destruct (f (fst kv)); simpl; now rewrite IH.
Qed.

Lemma filter_twice (A : Type) (f g : A -> bool) (l : list A) :
  filter f (filter g l) = filter (fun x => f x && g x) l.
Proof.
  induction l as [|x l IH]; simpl; [reflexivity|].
  destruct (g x); simpl; [destruct (f x); simpl; now rewrite IH|].
  now rewrite andb_false_r.
Qed.

Lemma is_sensitive_app toLowerCase k f1 f2 :
  is_sensitive toLowerCase k (f1 ++ f2) =
  is_sensitive toLowerCase k f1 || is_sensitive toLowerCase k f2.
Proof. unfold is_sensitive. apply existsb_app. Qed.

Lemma includes_empty s : includes s EmptyString = true.
Proof. destruct s; reflexivity. Qed.

(** Nothing the sanitizer returns has a key its input did not have. *)
Lemma sanitize_keys_from_input toLowerCase fields K P :
  has_key K (removeSensitiveFields toLowerCase P fields) = true ->
  has_key K P = true.
Proof.
  induction P as [| | | | |items IH|props IH] using JSValue_deep_ind;
    try (rewrite sanitize_primitive by reflexivity; auto).
  - rewrite sanitize_arr. cbn. rewrite !existsb_exists.
    intros [x [Hx HK]]. apply in_map_iff in Hx. destruct Hx as [y [<- Hy]].
    exists y. split; [exact Hy|]. rewrite Forall_forall in IH. now apply IH.
  - rewrite sanitize_obj. cbn. intros Hout.
    assert (HF : Forall (fun kv => (fst kv =? K) || has_key K (snd kv) = true ->
                                   existsb (fun kv => (fst kv =? K) || has_key K (snd kv))
                                           props = true)
                        (fold_left (sanitize_entry toLowerCase fields) props [])).
    { apply fold_sanitize_entry_Forall; [constructor|].
      rewrite Forall_forall in *. intros kv Hkv _ Hhit. cbn in Hhit.
      apply existsb_exists. exists kv. split; [exact Hkv|].
      apply orb_true_iff in Hhit. apply orb_true_iff.
      destruct Hhit as [Hk|Hv]; [now left | right; now apply IH]. }
    apply existsb_exists in Hout. destruct Hout as [kv [Hkv Hhit]].
    rewrite Forall_forall in HF. now apply (HF kv Hkv).
Qed.

(** X1.  Sanitizing twice is sanitizing once, for every payload and every
    field list. *)
Theorem removeSensitiveFields_idempotent
        (toLowerCase : string -> string) (fields : list string) (P : JSValue) :
  removeSensitiveFields toLowerCase
    (removeSensitiveFields toLowerCase P fields) fields =
  removeSensitiveFields toLowerCase P fields.
Proof. apply sanitize_clean_fixed, sanitize_is_clean. Qed.

(** X2.  A payload whose objects have distinct keys, none of them
    sensitive and none of them [__proto__], is returned exactly as it
    is. *)
Theorem removeSensitiveFields_keeps_clean_payload
        (toLowerCase : string -> string) (fields : list string) (P : JSValue) :
  clean toLowerCase fields P = true ->
  removeSensitiveFields toLowerCase P fields = P.
Proof. apply sanitize_clean_fixed. Qed.

Lemma removeSensitiveFields_keeps_clean_payload_witness :
  removeSensitiveFields ascii_toLowerCase (JArr article_rows) sample_fields =
  JArr article_rows.
Proof.
  apply removeSensitiveFields_keeps_clean_payload. vm_compute. reflexivity.
Defined.

(** X3.  Sanitizing with two field lists at once is sanitizing with the
    first and then with the second: on a payload whose objects have
    distinct keys, [removeSensitiveFields P (f1 ++ f2)] equals
    [removeSensitiveFields (removeSensitiveFields P f1) f2].  In particular
    the effective list of [getSensitiveFields], defaults then configured
    fragments, acts as the defaults followed by the configured ones. *)
Theorem removeSensitiveFields_append
        (toLowerCase : string -> string) (f1 f2 : list string) (P : JSValue) :
  well_formed P = true ->
  removeSensitiveFields toLowerCase P (f1 ++ f2) =
  removeSensitiveFields toLowerCase (removeSensitiveFields toLowerCase P f1) f2.
Proof.
  induction P as [| | | | |items IH|props IH] using JSValue_deep_ind;
    intros Hwf;
    try (match goal with
         | |- _ = removeSensitiveFields _ (removeSensitiveFields _ ?v _) _ =>
             rewrite !(fun f => @sanitize_primitive toLowerCase f v eq_refl);
             reflexivity
         end).
  - rewrite !sanitize_arr, map_map. f_equal. apply map_ext_in.
    intros x Hx. cbn in Hwf. rewrite forallb_forall in Hwf.
    rewrite Forall_forall in IH. auto.
  - cbn in Hwf. apply andb_true_iff in Hwf. destruct Hwf as [Hnd Hall].
    rewrite forallb_forall in Hall. rewrite Forall_forall in IH.
    rewrite (sanitize_obj_filter toLowerCase (f1 ++ f2) props Hnd).
    rewrite (sanitize_obj_filter toLowerCase f1 props Hnd).
    rewrite sanitize_obj_filter.
    + f_equal.
      rewrite (filter_map_keys
                 (fun k => negb (is_sensitive toLowerCase k f2) && negb (k =? "__proto__"))
                 (fun v => removeSensitiveFields toLowerCase v f1)).
      rewrite map_map. cbn [fst snd].
      rewrite filter_twice.
      assert (Hf : filter (fun kv => negb (is_sensitive toLowerCase (fst kv) (f1 ++ f2))
                                     && negb (fst kv =? "__proto__")) props =
                   filter (fun kv => (negb (is_sensitive toLowerCase (fst kv) f2)
                                      && negb (fst kv =? "__proto__"))
                                     && (negb (is_sensitive toLowerCase (fst kv) f1)
                                         && negb (fst kv =? "__proto__"))) props).
      { apply filter_ext. intros kv. rewrite is_sensitive_app.
        destruct (is_sensitive toLowerCase (fst kv) f1),
                 (is_sensitive toLowerCase (fst kv) f2),
                 (fst kv =? "__proto__"); reflexivity. }
      rewrite Hf. apply map_ext_in. intros kv Hkv. apply filter_In in Hkv.
      destruct Hkv as [Hkv _]. f_equal. apply (IH kv Hkv). apply (Hall kv Hkv).
    + apply NoDupb_NoDup. rewrite map_map. cbn [fst].
      apply NoDup_keys_filter. now apply NoDupb_NoDup.
Qed.

Lemma removeSensitiveFields_append_witness :
  sanitizeRaw ascii_toLowerCase ["ssn"] sample_payload =
  removeSensitiveFields ascii_toLowerCase
    (removeSensitiveFields ascii_toLowerCase sample_payload DEFAULT_SENSITIVE_FIELDS)
    ["ssn"].
Proof.
  unfold sanitizeRaw, getSensitiveFields.
  apply removeSensitiveFields_append. reflexivity.
Defined.

(** X4.  The sanitizer only removes: every key found in its output, at
    any depth, is a key of its input. *)
Theorem removeSensitiveFields_adds_no_key
        (toLowerCase : string -> string) (fields : list string)
        (K : string) (P : JSValue) :
  has_key K (removeSensitiveFields toLowerCase P fields) = true ->
  has_key K P = true.
Proof. apply sanitize_keys_from_input. Qed.

Lemma removeSensitiveFields_adds_no_key_witness :
  has_key "name" sample_payload = true.
Proof.
  apply (@removeSensitiveFields_adds_no_key ascii_toLowerCase sample_fields).
  reflexivity.
Defined.

(** X5.  An empty string among the sensitive fields matches every key:
    (for a case mapping that leaves the empty string empty) the output has
    no key at all, at any depth. *)
Theorem empty_fragment_removes_every_key
        (toLowerCase : string -> string) (fields : list string)
        (K : string) (P : JSValue) :
  toLowerCase EmptyString = EmptyString ->
  In EmptyString fields ->
  has_key K (removeSensitiveFields toLowerCase P fields) = false.
Proof.
  intros Hlower Hin. apply sanitize_removes.
  unfold is_sensitive. apply existsb_exists. exists EmptyString.
  split; [exact Hin|]. rewrite Hlower, includes_empty. apply orb_true_r.
Qed.

Lemma empty_fragment_removes_every_key_witness :
  removeSensitiveFields ascii_toLowerCase sample_payload [EmptyString] = JObj [] /\
  has_key "id" (removeSensitiveFields ascii_toLowerCase sample_payload [EmptyString])
  = false.
Proof.
  split; [reflexivity|].
  apply empty_fragment_removes_every_key; [reflexivity | now left].
Defined.

(** X6.  Both entry points of the sanitize service remove every key that
    matches a default or a configured fragment, whatever the content-API
    sanitizer does.  [output] uses the content-API sanitizer's answer when
    there is one; when that sanitizer is missing or throws, [output]
    returns what [sanitizeRaw] returns on the original data, logging the
    failure at debug level in the second case. *)
Theorem sanitize_service_entry_points
        (toLowerCase : string -> string)
        (contentAPI : option (JSValue -> JSValue -> JSValue -> Completion JSValue))
        (customFields : list string) (schema data options : JSValue) :
  (forall F K,
      In F DEFAULT_SENSITIVE_FIELDS \/ In F customFields ->
      (toLowerCase K = toLowerCase F \/
       exists pre post, toLowerCase K = (pre ++ toLowerCase F ++ post)%string) ->
      has_key K (snd (output toLowerCase contentAPI customFields schema data options))
      = false /\
      has_key K (sanitizeRaw toLowerCase customFields data) = false) /\
  (contentAPI = None ->
   output toLowerCase contentAPI customFields schema data options =
   ([], sanitizeRaw toLowerCase customFields data)) /\
  (forall sanitizer error,
      contentAPI = Some sanitizer -> sanitizer data schema options = Throw error ->
      output toLowerCase contentAPI customFields schema data options =
      ([Logged {| level := Debug;
                  text := "[socket.io] Content API sanitization failed: "
                          ++ message error;
                  detail := None |}],
       sanitizeRaw toLowerCase customFields data)) /\
  (forall sanitizer sanitizedData,
      contentAPI = Some sanitizer ->
      sanitizer data schema options = Normal sanitizedData ->
      output toLowerCase contentAPI customFields schema data options =
      ([], sanitizeRaw toLowerCase customFields sanitizedData)).
Proof.
  split; [|split; [|split]].
  - intros F K HF HK.
    assert (Hs : is_sensitive toLowerCase K (getSensitiveFields customFields) = true).
    { apply is_sensitive_intro with (F := F); [|exact HK].
      unfold getSensitiveFields. apply in_or_app. exact HF. }
    split; apply sanitize_removes; exact Hs.
  - intros ->. reflexivity.
  - intros sanitizer error -> Hthrow. unfold output. rewrite Hthrow. reflexivity.
  - intros sanitizer sanitizedData -> Hok. unfold output. rewrite Hok. reflexivity.
Qed.

Lemma sanitize_service_entry_points_witness :
  has_key "password"
    (snd (output ascii_toLowerCase (Some failing_contentAPI) ["ssn"]
                 JNull article_result JUndefined)) = false /\
  fst (output ascii_toLowerCase (Some failing_contentAPI) ["ssn"]
              JNull article_result JUndefined) =
    [Logged {| level := Debug;
               text := "[socket.io] Content API sanitization failed: no schema";
               detail := None |}] /\
  output ascii_toLowerCase None ["ssn"] JNull article_result JUndefined =
    ([], sanitizeRaw ascii_toLowerCase ["ssn"] article_result) /\
  output ascii_toLowerCase (Some (fun d _ _ => Normal d)) ["ssn"]
         JNull article_result JUndefined =
    ([], sanitizeRaw ascii_toLowerCase ["ssn"] article_result).
Proof.
  destruct (@sanitize_service_entry_points ascii_toLowerCase
              (Some failing_contentAPI) ["ssn"] JNull article_result JUndefined)
    as [Hremoved [_ [Hthrow _]]].
  destruct (@sanitize_service_entry_points ascii_toLowerCase
              None ["ssn"] JNull article_result JUndefined)
    as [_ [Hnone _]].
  destruct (@sanitize_service_entry_points ascii_toLowerCase
              (Some (fun d _ _ => Normal d)) ["ssn"] JNull article_result JUndefined)
    as [_ [_ [_ Hok]]].
  split; [|split; [|split]].
  - apply (Hremoved "password" "password"); [left; now left | now left].
  - rewrite (Hthrow failing_contentAPI _ eq_refl eq_refl). reflexivity.
  - apply Hnone. reflexivity.
  - apply (Hok _ article_result eq_refl eq_refl).
Defined.

(** ** Populate normalizer: range, arrays of any values, accepted values *)

(** [String] on numbers: in full up to [2^53], the nearest double's
    shortest decimal beyond, exponent notation from 21 digits on. *)
Lemma number_to_string_samples :
  number_to_string 42 = "42" /\
  number_to_string (-7) = "-7" /\
  number_to_string 9007199254740991 = "9007199254740991" /\
  number_to_string 9007199254740993 = "9007199254740992" /\
  number_to_string (2 ^ 67) = "147573952589676410000" /\
  number_to_string 999999999999999999999 = "1e+21" /\
  number_to_string (10 ^ 21) = "1e+21" /\
  number_to_string (2 ^ 70) = "1.1805916207174113e+21" /\
  number_to_string (- 10 ^ 22) = "-1e+22" /\
  number_to_string (2 ^ 1024) = "Infinity".
Proof. vm_compute. repeat split. Qed.

Lemma normalizePopulate_string s :
  normalizePopulate (JStr s) = if s =? "*" then JStr "*" else JUndefined.
Proof.
  destruct (String.eqb_spec s "*") as [->|Hne]; [reflexivity|].
  unfold normalizePopulate.
  destruct s as [|c s]; [reflexivity|].
  destruct s as [|c' s].
  - destruct (Ascii.ascii_dec c "*"%char) as [->|Hc]; [congruence|].
    destruct c as [[] [] [] [] [] [] [] []]; try reflexivity. congruence.
  - destruct c as [[] [] [] [] [] [] [] []]; reflexivity.
Qed.

Lemma length_assign_prop k v props :
  List.length (assign_prop k v props) <= S (List.length props).
Proof.
  induction props as [|[k' v'] rest IH]; simpl; [lia|].
  destruct (k' =? k); simpl; lia.
Qed.

(** The reducer of [normalizePopulate], over any array. *)
Lemma populate_reduce_any items : forall acc,
  NoDup (map fst acc) ->
  Forall (fun kv => snd kv = JBool true) acc ->
  NoDup (map fst (fold_left (fun acc field => set_prop (to_string field) (JBool true) acc)
                            items acc)) /\
  Forall (fun kv => snd kv = JBool true)
         (fold_left (fun acc field => set_prop (to_string field) (JBool true) acc)
                    items acc) /\
  List.length (fold_left (fun acc field => set_prop (to_string field) (JBool true) acc)
                         items acc) <= List.length acc + List.length items /\
  (forall k, In k (map fst (fold_left (fun acc field =>
                                         set_prop (to_string field) (JBool true) acc)
                                      items acc)) ->
             In k (map fst acc) \/ exists x, In x items /\ k = to_string x) /\
  (forall k, k <> "__proto__" ->
             (In k (map fst acc) \/ exists x, In x items /\ k = to_string x) ->
             In k (map fst (fold_left (fun acc field =>
                                         set_prop (to_string field) (JBool true) acc)
                                      items acc))).
Proof.
  induction items as [|x items IH]; intros acc Hnd Hacc; simpl.
  - split; [exact Hnd|]. split; [exact Hacc|]. split; [lia|]. split; [auto|].
    intros k _ [H|[y [[] _]]]. exact H.
  - destruct (IH (set_prop (to_string x) (JBool true) acc))
      as [H1 [H2 [H3 [H4 H5]]]].
    + now apply NoDup_set_prop.
    + apply Forall_set_prop; [exact Hacc | reflexivity].
    + split; [exact H1|]. split; [exact H2|]. split; [|split].
      * assert (List.length (set_prop (to_string x) (JBool true) acc)
                <= S (List.length acc)).
        { unfold set_prop. destruct (to_string x =? "__proto__");
            [lia | apply length_assign_prop]. }
        lia.
      * intros k Hk. destruct (H4 k Hk) as [Hin | [y [Hy ->]]].
        -- unfold set_prop in Hin. destruct (to_string x =? "__proto__"); [now left|].
           destruct (keys_assign_prop _ _ _ _ Hin) as [-> | Hin']; [|now left].
           right. exists x. split; [now left | reflexivity].
        -- right. exists y. split; [now right | reflexivity].
      * intros k Hk Hsrc. apply H5; [exact Hk|].
        destruct Hsrc as [Hin | [y [[<- | Hy] ->]]].
        -- left. apply in_map_iff in Hin. destruct Hin as [[k' v'] [<- Hin]].
           destruct (String.eqb_spec (to_string x) k') as [->|Hne].
           ++ assert (E : own_prop k' (set_prop k' (JBool true) acc) = Some (JBool true))
                by now apply own_prop_set_prop_same.
              apply own_prop_In in E. apply in_map_iff. now exists (k', JBool true).
           ++ assert (E : own_prop k' (set_prop (to_string x) (JBool true) acc)
                          = own_prop k' acc)
                by now apply own_prop_set_prop_other.
              destruct (own_prop k' acc) as [v0|] eqn:E0.
              ** apply own_prop_In in E. apply in_map_iff. now exists (k', v0).
              ** exfalso. clear - Hin E0.
                 induction acc as [|[k0 v0] rest IHa]; [destruct Hin|].
                 simpl in E0. destruct (String.eqb_spec k0 k'); [discriminate|].
                 destruct Hin as [Hin|Hin]; [inversion Hin; congruence | auto].
        -- left.
           assert (E : own_prop (to_string x) (set_prop (to_string x) (JBool true) acc)
                       = Some (JBool true)) by now apply own_prop_set_prop_same.
           apply own_prop_In in E. apply in_map_iff.
           now exists (to_string x, JBool true).
        -- right. exists y. split; [exact Hy | reflexivity].
Qed.

(** X7.  [normalizePopulate] only ever returns the wildcard ['*'], an
    object, or [undefined], and normalizing an already normalized value
    changes nothing. *)
Theorem normalizePopulate_range_idempotent (config : JSValue) :
  (normalizePopulate config = JStr "*" \/
   (exists props, normalizePopulate config = JObj props) \/
   normalizePopulate config = JUndefined) /\
  normalizePopulate (normalizePopulate config) = normalizePopulate config.
Proof.
  destruct config as [| |b|n|s|items|props];
    try solve [split; [auto | reflexivity]].
  - destruct b; split; auto.
  - rewrite normalizePopulate_string. destruct (s =? "*"); split; auto.
  - split; [right; left; eexists; reflexivity | reflexivity].
  - split; [right; left; eexists; reflexivity | reflexivity].
Qed.



(** X9.  Every populate value the configuration schema accepts counts as
    configured ([populateConfig !== undefined]) and normalizes to the
    wildcard or to an object, never to [undefined]; for an accepted array
    the object has exactly the listed relation names as keys. *)
Theorem accepted_populate_normalizes (config : JSValue) :
  PopulateConfig config = true ->
  hasPopulate config = true /\
  (normalizePopulate config = JStr "*" \/
   exists props, normalizePopulate config = JObj props) /\
  (forall names, config = JArr (map JStr names) ->
     exists props, normalizePopulate config = JObj props /\
                   forall k, In k (map fst props) -> In k names).
Proof.
  intros Hok. split; [|split].
  - destruct config; try reflexivity; discriminate.
  - destruct config as [| |b|n|s|items|props]; try discriminate.
    + destruct b; [now left | discriminate].
    + cbn in Hok. rewrite normalizePopulate_string, Hok. now left.
    + right. eexists. reflexivity.
    + right. eexists. reflexivity.
  - intros names ->.
    destruct (@populate_reduce_any (map JStr names) []) as [_ [_ [_ [Hkeys _]]]];
      [constructor | constructor |].
    eexists. split; [reflexivity|]. intros k Hk.
    destruct (Hkeys k Hk) as [[] | [x [Hx ->]]].
    apply in_map_iff in Hx. destruct Hx as [n [<- Hn]]. exact Hn.
Qed.

Lemma accepted_populate_normalizes_witness :
  hasPopulate (JArr [JStr "author"]) = true /\
  (normalizePopulate (JArr [JStr "author"]) = JStr "*" \/
   exists props, normalizePopulate (JArr [JStr "author"]) = JObj props).
Proof.
  destruct (@accepted_populate_normalizes (JArr [JStr "author"]) eq_refl)
    as [H1 [H2 _]].
  split; assumption.
Defined.

(** ** Registration: which content types fail, which hooks are set *)

Lemma get_not_nullish v k : nullish v = false -> get v k = Normal (get_opt v k).
Proof. destruct v; intros H; try reflexivity; discriminate. Qed.

Lemma action_enabled_throws actions name :
  is_throw (action_enabled actions name) =
  truthy actions && negb (isArray actions) && negb (z_string actions).
Proof.
  unfold action_enabled. destruct actions as [| |b|n|s|items|props]; cbn;
    try reflexivity.
  - destruct b; reflexivity.
  - destruct (n =? 0)%Z; reflexivity.
  - destruct (s =? EmptyString); reflexivity.
Qed.

(** When the body of the [forEach] throws. *)
Lemma subscriber_for_throws h ct :
  is_throw (subscriber_for h ct) =
  nullish ct ||
  (truthy (get_opt ct "actions") && negb (isArray (get_opt ct "actions"))
   && negb (z_string (get_opt ct "actions"))).
Proof.
  destruct (nullish ct) eqn:Hn.
  - destruct ct; try discriminate; reflexivity.
  - unfold subscriber_for. rewrite !(get_not_nullish _ _ Hn). cbn [cbind orb].
    pose proof (action_enabled_throws (get_opt ct "actions") "create") as Hc.
    pose proof (action_enabled_throws (get_opt ct "actions") "update") as Hu.
    pose proof (action_enabled_throws (get_opt ct "actions") "delete") as Hd.
    destruct (action_enabled (get_opt ct "actions") "create") as [c|];
      cbn [cbind is_throw] in *; [|exact Hc].
    destruct (action_enabled (get_opt ct "actions") "update") as [u|];
      cbn [cbind is_throw] in *; [|exact Hu].
    destruct (action_enabled (get_opt ct "actions") "delete") as [d|];
      cbn [cbind is_throw] in *; [exact Hc | exact Hd].
Qed.

Lemma bootstrap_all_good h contentTypes :
  (forall ct, In ct contentTypes -> is_throw (subscriber_for h ct) = false) ->
  snd (bootstrapLifecycles h contentTypes) = Normal tt /\
  List.length (fst (bootstrapLifecycles h contentTypes)) = List.length contentTypes.
Proof.
  induction contentTypes as [|ct rest IH]; intros Hgood; cbn; [auto|].
  pose proof (Hgood ct (or_introl eq_refl)) as Hct.
  destruct (subscriber_for h ct) as [s|e]; [|discriminate].
  destruct IH as [H1 H2]; [intros; apply Hgood; now right|].
  destruct (bootstrapLifecycles h rest) as [subs c]. cbn in *. subst. auto.
Qed.

Lemma schema_accepts_no_throw h ct :
  z_string ct || ContentType ct = true -> is_throw (subscriber_for h ct) = false.
Proof.
  intros Hok. rewrite subscriber_for_throws.
  destruct ct as [| |b|n|s|items|props]; try discriminate; [reflexivity|].
  cbn [z_string orb ContentType] in Hok.
  apply andb_true_iff in Hok. destruct Hok as [Hok _].
  apply andb_true_iff in Hok. destruct Hok as [_ Hact].
  cbn [nullish orb].
  destruct (get_opt (JObj props) "actions"); try discriminate; reflexivity.
Qed.

(** X10.  For a [contentTypes] list the configuration schema accepts,
    [bootstrapLifecycles] registers one subscriber per entry and does not
    throw. *)
Theorem valid_contentTypes_all_registered (h : Host) (contentTypes : list JSValue) :
  contentTypes_schema contentTypes = true ->
  snd (bootstrapLifecycles h contentTypes) = Normal tt /\
  List.length (fst (bootstrapLifecycles h contentTypes)) = List.length contentTypes.
Proof.
  intros Hok. apply bootstrap_all_good. intros ct Hct.
  apply schema_accepts_no_throw.
  unfold contentTypes_schema in Hok. rewrite forallb_forall in Hok. now apply Hok.
Qed.

Lemma valid_contentTypes_all_registered_witness :
  snd (bootstrapLifecycles sample_host
         [JStr "api::tag.tag"; delete_only_content_type]) = Normal tt /\
  List.length (fst (bootstrapLifecycles sample_host
                      [JStr "api::tag.tag"; delete_only_content_type])) = 2.
Proof.
  apply (@valid_contentTypes_all_registered sample_host
           [JStr "api::tag.tag"; delete_only_content_type]).
  reflexivity.
Defined.

(** X11.  Registering a content type throws exactly when the entry is
    [null] or [undefined], or its [actions] is a truthy value that is
    neither an array nor a string (there is no [includes] to call).  The
    [forEach] stops there: the entries before the failing one have been
    subscribed, the failing one and those after it have not, and
    [bootstrapLifecycles] rejects. *)
Theorem bootstrapLifecycles_stops_at_bad_entry
        (h : Host) (good rest : list JSValue) (bad : JSValue) :
  (is_throw (subscriber_for h bad) =
   nullish bad ||
   (truthy (get_opt bad "actions") && negb (isArray (get_opt bad "actions"))
    && negb (z_string (get_opt bad "actions")))) /\
  ((forall ct, In ct good -> is_throw (subscriber_for h ct) = false) ->
   is_throw (subscriber_for h bad) = true ->
   is_throw (snd (bootstrapLifecycles h (good ++ bad :: rest))) = true /\
   fst (bootstrapLifecycles h (good ++ bad :: rest)) =
   fst (bootstrapLifecycles h good)).
Proof.
  split; [apply subscriber_for_throws|].
  induction good as [|ct good IH]; intros Hgood Hbad; cbn.
  - destruct (subscriber_for h bad); [discriminate | auto].
  - pose proof (Hgood ct (or_introl eq_refl)) as Hct.
    destruct (subscriber_for h ct) as [s|e]; [|discriminate].
    destruct IH as [H1 H2]; [intros; apply Hgood; now right | exact Hbad |].
    destruct (bootstrapLifecycles h (good ++ bad :: rest)) as [subs c].
    destruct (bootstrapLifecycles h good) as [subs' c'].
    cbn in *. subst. auto.
Qed.

Lemma bootstrapLifecycles_stops_at_bad_entry_witness :
  is_throw (snd (bootstrapLifecycles sample_host
                   [JStr "api::tag.tag";
                    JObj [("uid", JStr "api::article.article"); ("actions", JNum 1)];
                    delete_only_content_type])) = true /\
  fst (bootstrapLifecycles sample_host
         [JStr "api::tag.tag";
          JObj [("uid", JStr "api::article.article"); ("actions", JNum 1)];
          delete_only_content_type]) =
  fst (bootstrapLifecycles sample_host [JStr "api::tag.tag"]).
Proof.
  destruct (@bootstrapLifecycles_stops_at_bad_entry sample_host
              [JStr "api::tag.tag"] [delete_only_content_type]
              (JObj [("uid", JStr "api::article.article"); ("actions", JNum 1)]))
    as [_ Hstop].
  apply Hstop; [|reflexivity].
  intros ct [<-|[]]. reflexivity.
Defined.

Lemma action_listed items name :
  existsb (fun x => match x with JStr s => s =? name | _ => false end) items = true
  <-> In (JStr name) items.
Proof.
  rewrite existsb_exists. split.
  - intros [x [Hx E]]. destruct x; try discriminate.
    apply String.eqb_eq in E. now subst.
  - intros H. exists (JStr name). split; [exact H | apply String.eqb_refl].
Qed.

Lemma hook_names_by_flag (c u d : bool) :
  (In "afterCreate"
      ((if c then ["afterCreate"; "afterCreateMany"] else []) ++
       (if u then ["afterUpdate"; "beforeUpdateMany"; "afterUpdateMany"] else []) ++
       (if d then ["afterDelete"] else [])) <-> c = true) /\
  (In "afterCreateMany"
      ((if c then ["afterCreate"; "afterCreateMany"] else []) ++
       (if u then ["afterUpdate"; "beforeUpdateMany"; "afterUpdateMany"] else []) ++
       (if d then ["afterDelete"] else [])) <-> c = true) /\
  (In "afterUpdate"
      ((if c then ["afterCreate"; "afterCreateMany"] else []) ++
       (if u then ["afterUpdate"; "beforeUpdateMany"; "afterUpdateMany"] else []) ++
       (if d then ["afterDelete"] else [])) <-> u = true) /\
  (In "beforeUpdateMany"
      ((if c then ["afterCreate"; "afterCreateMany"] else []) ++
       (if u then ["afterUpdate"; "beforeUpdateMany"; "afterUpdateMany"] else []) ++
       (if d then ["afterDelete"] else [])) <-> u = true) /\
  (In "afterUpdateMany"
      ((if c then ["afterCreate"; "afterCreateMany"] else []) ++
       (if u then ["afterUpdate"; "beforeUpdateMany"; "afterUpdateMany"] else []) ++
       (if d then ["afterDelete"] else [])) <-> u = true) /\
  (In "afterDelete"
      ((if c then ["afterCreate"; "afterCreateMany"] else []) ++
       (if u then ["afterUpdate"; "beforeUpdateMany"; "afterUpdateMany"] else []) ++
       (if d then ["afterDelete"] else [])) <-> d = true).
Proof.
  destruct c, u, d; cbn [app In];
    repeat split; intros H; auto 10;
    try discriminate;
    repeat (destruct H as [H|H]; try discriminate; try contradiction).
Qed.

(** X12.  The handlers a subscriber gets follow the entry's [actions].
    With no [actions] (a plain string entry included) all six handlers are
    set.  With an array, [afterCreate] and [afterCreateMany] are set
    exactly when it lists ['create'], [afterUpdate], [beforeUpdateMany] and
    [afterUpdateMany] exactly when it lists ['update'], [afterDelete]
    exactly when it lists ['delete']; an empty array sets none.  The
    subscriber listens to [ct.uid], or to the entry itself when [ct.uid]
    is falsy. *)
Theorem hooks_follow_actions (h : Host) (ct : JSValue) (s : Subscriber) :
  subscriber_for h ct = Normal s ->
  models s = [if truthy (get_opt ct "uid") then get_opt ct "uid" else ct] /\
  (truthy (get_opt ct "actions") = false ->
   map fst (hooks s) =
   ["afterCreate"; "afterCreateMany"; "afterUpdate"; "beforeUpdateMany";
    "afterUpdateMany"; "afterDelete"]) /\
  (forall items, get_opt ct "actions" = JArr items ->
     (In "afterCreate" (map fst (hooks s)) <-> In (JStr "create") items) /\
     (In "afterCreateMany" (map fst (hooks s)) <-> In (JStr "create") items) /\
     (In "afterUpdate" (map fst (hooks s)) <-> In (JStr "update") items) /\
     (In "beforeUpdateMany" (map fst (hooks s)) <-> In (JStr "update") items) /\
     (In "afterUpdateMany" (map fst (hooks s)) <-> In (JStr "update") items) /\
     (In "afterDelete" (map fst (hooks s)) <-> In (JStr "delete") items) /\
     (items = [] -> hooks s = [])).
Proof.
  intros Hs.
  assert (Hn : nullish ct = false).
  { destruct ct; try reflexivity; discriminate. }
  unfold subscriber_for in Hs. rewrite !(get_not_nullish _ _ Hn) in Hs.
  cbn [cbind] in Hs.
  split; [|split].
  - destruct (action_enabled (get_opt ct "actions") "create") as [c|]; [|discriminate].
    destruct (action_enabled (get_opt ct "actions") "update") as [u|]; [|discriminate].
    destruct (action_enabled (get_opt ct "actions") "delete") as [d|]; [|discriminate].
    cbn [cbind] in Hs. inversion Hs. reflexivity.
  - intros Hfalsy. unfold action_enabled in Hs. rewrite Hfalsy in Hs.
    cbn in Hs. inversion Hs. reflexivity.
  - intros items Hitems. rewrite Hitems in Hs. unfold action_enabled in Hs.
    cbn [truthy negb cbind] in Hs.
    remember (existsb (fun x => match x with JStr s0 => s0 =? "create" | _ => false end)
                      items) as c eqn:Ec.
    remember (existsb (fun x => match x with JStr s0 => s0 =? "update" | _ => false end)
                      items) as u eqn:Eu.
    remember (existsb (fun x => match x with JStr s0 => s0 =? "delete" | _ => false end)
                      items) as d eqn:Ed.
    assert (Hnames : map fst (hooks s) =
              (if c then ["afterCreate"; "afterCreateMany"] else []) ++
              (if u then ["afterUpdate"; "beforeUpdateMany"; "afterUpdateMany"] else []) ++
              (if d then ["afterDelete"] else [])).
    { inversion Hs. destruct c, u, d; reflexivity. }
    rewrite Hnames.
    destruct (hook_names_by_flag c u d) as [H1 [H2 [H3 [H4 [H5 H6]]]]].
    rewrite H1, H2, H3, H4, H5, H6, Ec, Eu, Ed, !action_listed.
    repeat split; try tauto.
    intros ->. cbn in Ec, Eu, Ed. subst c u d. inversion Hs. reflexivity.
Qed.

Lemma hooks_follow_actions_witness :
  exists s,
    subscriber_for sample_host delete_only_content_type = Normal s /\
    models s = [JStr "api::article.article"] /\
    (In "afterDelete" (map fst (hooks s)) <-> In (JStr "delete") [JStr "delete"]) /\
    (In "afterCreate" (map fst (hooks s)) <-> In (JStr "create") [JStr "delete"]).
Proof.
  eexists. split; [reflexivity|].
  destruct (@hooks_follow_actions sample_host delete_only_content_type _ eq_refl)
    as [Hmodels [_ Hitems]].
  destruct (Hitems [JStr "delete"] eq_refl) as [Hc [_ [_ [_ [_ [Hd _]]]]]].
  split; [exact Hmodels|]. split; [exact Hd | exact Hc].
Defined.

(** ** Query builder: when it throws; bulk create without ids *)

(** X13.  [buildEventQuery] throws exactly when [event.params] is [null]
    or [undefined], or the action is ['afterCreateMany'] and
    [event.result] is [null] or [undefined]; in every other case it
    returns an object. *)
Theorem buildEventQuery_throws_exactly (event : Event) :
  is_throw (buildEventQuery event) =
  nullish (params event) ||
  ((action event =? "afterCreateMany") && nullish (result event)) /\
  (is_throw (buildEventQuery event) = false ->
   exists q, buildEventQuery event = Normal (JObj q)).
Proof.
  split.
  - unfold buildEventQuery.
    destruct (nullish (params event)) eqn:Hp.
    + destruct (params event); try discriminate; reflexivity.
    + rewrite !(get_not_nullish _ _ Hp). cbn [cbind orb].
      destruct (truthy (get_opt (result event) "count")); cbn [cbind];
        [|destruct (truthy (get_opt (params event) "limit"))];
        (destruct (action event =? "afterCreateMany"); cbn [andb];
         [destruct (result event); reflexivity
         |destruct (action event =? "beforeUpdate"); reflexivity]).
  - intros Hok. destruct (buildEventQuery event) as [query|e] eqn:E; [|discriminate].
    destruct (buildEventQuery_object event E) as [q ->]. now exists q.
Qed.

Lemma afterCreateMany_query event :
  action event = "afterCreateMany" ->
  nullish (params event) = false -> nullish (result event) = false ->
  exists q,
    buildEventQuery event = Normal (JObj q) /\
    own_prop "filters" q = Some (JObj [("id", get_opt (result event) "ids")]) /\
    (forall k, k <> "filters" -> k <> "limit" -> own_prop k q = None) /\
    NoDup (map fst q).
Proof.
  intros Ha Hp Hr. unfold buildEventQuery.
  rewrite !(get_not_nullish _ _ Hp), Ha, (get_not_nullish _ _ Hr). cbn [cbind].
  rewrite String.eqb_refl.
  destruct (truthy (get_opt (params event) "where"));
    destruct (truthy (get_opt (result event) "count")); cbn [cbind];
    try destruct (truthy (get_opt (params event) "limit"));
    eexists; (split; [reflexivity|]); (split; [reflexivity|]);
    (split; [intros k H1 H2; rewrite ?own_prop_set_prop_other by congruence; reflexivity|]);
    repeat apply NoDup_set_prop; constructor.
Qed.

Lemma own_prop_jsonify k props :
  NoDup (map fst props) ->
  own_prop k (flat_map (fun kv => match snd kv with
                                  | JUndefined => []
                                  | _ => [(fst kv, jsonify (snd kv))]
                                  end) props) =
  match own_prop k props with
  | Some JUndefined => None
  | Some v => Some (jsonify v)
  | None => None
  end.
Proof.
  induction props as [|[k0 v0] rest IH]; intros Hnd; [reflexivity|].
  inversion Hnd as [|? ? Hk0 Hrest]; subst. cbn [flat_map fst snd own_prop].
  destruct (String.eqb_spec k0 k) as [->|Hne].
  - destruct v0; cbn [app own_prop]; rewrite ?String.eqb_refl; try reflexivity.
    rewrite (IH Hrest).
    destruct (own_prop k rest) eqn:E; [|reflexivity].
    exfalso. apply Hk0. apply own_prop_In in E.
    apply in_map_iff. now exists (k, j).
  - destruct v0; cbn [app own_prop];
      try (destruct (String.eqb_spec k0 k); [congruence|]); now apply IH.
Qed.

(** X14.  For a bulk create whose params and result are there, the
    handler always schedules the read-back, 50 ms after commit, whatever
    [where] the caller passed: the issued filters are the JSON clone of
    [{ id: result.ids }] and the caller's [where] is not used.  When the
    result carries no [ids] the issued filters are the empty object, so
    the read-back is not restricted to the created rows.  The issued limit
    is the JSON clone of the truthy [result.count], else of the truthy
    [params.limit], else absent. *)
Theorem afterCreateMany_read_back_filters
        (h : Host) (uid populateConfig : JSValue) (event : Event) (w : World Task) :
  action event = "afterCreateMany" ->
  nullish (params event) = false -> nullish (result event) = false ->
  exists issued,
    afterCreateMany h uid populateConfig event w =
      scheduled h event w (CreateManyTask uid (JObj issued) (modelInfo_of event)) 50 /\
    own_prop "filters" issued =
      Some (jsonify (JObj [("id", get_opt (result event) "ids")])) /\
    (get_opt (result event) "ids" = JUndefined ->
     own_prop "filters" issued = Some (JObj [])) /\
    (forall k, k <> "filters" -> k <> "limit" -> k <> "populate" ->
               own_prop k issued = None).
Proof.
  intros Ha Hp Hr.
  destruct (afterCreateMany_query event Ha Hp Hr) as [q [Hq [Hf [Hother Hnd]]]].
  unfold afterCreateMany. rewrite Hq.
  change (get (JObj q) "filters") with (Normal (get_opt (JObj q) "filters")).
  cbv beta iota. cbn [get_opt]. rewrite Hf. cbn [truthy].
  change (json_clone (JObj q)) with (Normal (jsonify (JObj q))).
  cbv beta iota.
  assert (Hfilters : forall l,
             own_prop "filters" (flat_map (fun kv => match snd kv with
                                                     | JUndefined => []
                                                     | _ => [(fst kv, jsonify (snd kv))]
                                                     end) q) = l ->
             l = Some (jsonify (JObj [("id", get_opt (result event) "ids")]))).
  { intros l <-. rewrite (own_prop_jsonify "filters" q Hnd), Hf. reflexivity. }
  assert (Hrest : forall k, k <> "filters" -> k <> "limit" ->
             own_prop k (flat_map (fun kv => match snd kv with
                                             | JUndefined => []
                                             | _ => [(fst kv, jsonify (snd kv))]
                                             end) q) = None).
  { intros k H1 H2. rewrite (own_prop_jsonify k q Hnd), (Hother k H1 H2). reflexivity. }
  cbn [jsonify].
  destruct (hasPopulate populateConfig); cbn [put]; eexists;
    (split; [reflexivity|]);
    rewrite ?own_prop_set_prop_other by discriminate;
    (split; [apply Hfilters; reflexivity|]);
    (split; [intros Hids; rewrite (Hfilters _ eq_refl), Hids; reflexivity|]);
    intros k H1 H2 H3; rewrite ?own_prop_set_prop_other by congruence;
    now apply Hrest.
Qed.

Lemma afterCreateMany_read_back_filters_witness :
  exists issued,
    afterCreateMany sample_host (JStr "api::article.article") JUndefined
                    count_only_create_event (initial_world Task) =
      scheduled sample_host count_only_create_event (initial_world Task)
        (CreateManyTask (JStr "api::article.article") (JObj issued) article) 50 /\
    own_prop "filters" issued = Some (JObj []).
Proof.
  destruct (@afterCreateMany_read_back_filters sample_host
              (JStr "api::article.article") JUndefined count_only_create_event
              (initial_world Task) eq_refl eq_refl eq_refl)
    as [issued [Hsched [_ [Hempty _]]]].
  exists issued. split; [exact Hsched | apply Hempty; reflexivity].
Defined.

(** ** Re-fetch and single-record callbacks *)

Lemma jsonify_is_json_data v : json_data (jsonify v) = true.
Proof.
  induction v as [| | | | |items IH|props IH] using JSValue_deep_ind;
    try reflexivity.
  - cbn. rewrite forallb_forall. intros x Hx. apply in_map_iff in Hx.
    destruct Hx as [y [<- Hy]]. rewrite Forall_forall in IH. now apply IH.
  - cbn. rewrite forallb_forall. intros kv Hkv. apply in_flat_map in Hkv.
    destruct Hkv as [[k v] [Hin Hkv]]. rewrite Forall_forall in IH.
    specialize (IH (k, v) Hin). cbn in *.
    destruct v; cbn in Hkv; try contradiction;
      destruct Hkv as [<-|[]]; exact IH.
Qed.

(** X15.  [fetchWithPopulate] never throws.  Without a document id it
    does not touch the store: it logs once at debug level and returns
    [null].  With one it makes exactly one [findOne] call, with the
    document id and the normalized populate, and returns the store's
    answer, or [null] (after a debug log carrying the error's message)
    when the store throws. *)
Theorem fetchWithPopulate_behaviour
        (h : Host) (uid documentId populateConfig : JSValue) :
  is_throw (snd (fetchWithPopulate h uid documentId populateConfig)) = false /\
  (truthy documentId = false ->
   fetchWithPopulate h uid documentId populateConfig =
   ([Logged {| level := Debug;
               text := "[socket.io] Cannot fetch without documentId for "
                       ++ to_string uid;
               detail := None |}],
    Normal JNull)) /\
  (truthy documentId = true ->
   calls (fst (fetchWithPopulate h uid documentId populateConfig)) =
     [FindOne uid documentId (normalizePopulate populateConfig)] /\
   (forall v, findOne h uid documentId (normalizePopulate populateConfig) = Normal v ->
      fetchWithPopulate h uid documentId populateConfig =
      ([FindOne uid documentId (normalizePopulate populateConfig)], Normal v)) /\
   (forall e, findOne h uid documentId (normalizePopulate populateConfig) = Throw e ->
      fetchWithPopulate h uid documentId populateConfig =
      ([FindOne uid documentId (normalizePopulate populateConfig);
        Logged {| level := Debug;
                  text := "[socket.io] Error fetching with populate for "
                          ++ to_string uid ++ ":";
                  detail := Some (message e) |}],
       Normal JNull))).
Proof.
  unfold fetchWithPopulate, try_catch, bind, call, ret, log.
  destruct (truthy documentId); cbn [negb].
  - destruct (findOne h uid documentId (normalizePopulate populateConfig)) as [v|e];
      cbn; (split; [reflexivity|]); (split; [discriminate|]); intros _;
      (split; [reflexivity|]); split; intros x Hx; inversion Hx; reflexivity.
  - cbn. split; [reflexivity|]. split; [reflexivity | discriminate].
Qed.

Lemma fetchWithPopulate_behaviour_witness :
  fetchWithPopulate sample_host (JStr "api::article.article") JUndefined (JStr "*") =
    ([Logged {| level := Debug;
                text := "[socket.io] Cannot fetch without documentId for api::article.article";
                detail := None |}],
     Normal JNull) /\
  fetchWithPopulate picky_host (JStr "api::article.article") (JStr "d11") (JStr "*") =
    ([FindOne (JStr "api::article.article") (JStr "d11") (JStr "*")],
     Normal article_result) /\
  snd (fetchWithPopulate sample_host (JStr "api::article.article") (JStr "d11")
                         (JStr "*")) = Normal JNull.
Proof.
  destruct (fetchWithPopulate_behaviour sample_host (JStr "api::article.article")
              JUndefined (JStr "*")) as [_ [Hnone _]].
  destruct (fetchWithPopulate_behaviour picky_host (JStr "api::article.article")
              (JStr "d11") (JStr "*")) as [_ [_ Hsome]].
  destruct (fetchWithPopulate_behaviour sample_host (JStr "api::article.article")
              (JStr "d11") (JStr "*")) as [_ [_ Hfail]].
  split; [apply Hnone; reflexivity|]. split.
  - destruct (Hsome eq_refl) as [_ [Hok _]]. apply Hok. reflexivity.
  - destruct (Hfail eq_refl) as [_ [_ Hthrow]].
    rewrite (Hthrow _ eq_refl). reflexivity.
Defined.

(** What the [try] block of a single-record callback does on each path. *)
Lemma emit_single_snapshot h eventType uid populateConfig documentId modelInfo event :
  hasPopulate populateConfig && truthy documentId = false ->
  emit_single h eventType uid populateConfig documentId modelInfo event =
  match json_clone (later_result h event) with
  | Normal data =>
      ([Emit {| env_event := eventType; env_schema := modelInfo; env_data := data |}],
       io_emit h {| env_event := eventType; env_schema := modelInfo;
                    env_data := data |})
  | Throw e => ([], Throw e)
  end.
Proof.
  intros Hno. unfold emit_single. rewrite Hno.
  destruct (json_clone (later_result h event)); reflexivity.
Qed.

Lemma emit_single_refetched h eventType uid populateConfig documentId modelInfo event v :
  hasPopulate populateConfig = true -> truthy documentId = true ->
  findOne h uid documentId (normalizePopulate populateConfig) = Normal v ->
  truthy v = true ->
  emit_single h eventType uid populateConfig documentId modelInfo event =
  ([FindOne uid documentId (normalizePopulate populateConfig);
    Emit {| env_event := eventType; env_schema := modelInfo; env_data := v |}],
   io_emit h {| env_event := eventType; env_schema := modelInfo; env_data := v |}).
Proof.
  intros Hpop Hdoc Hfind Hv. unfold emit_single, fetchWithPopulate.
  rewrite Hpop, Hdoc. cbn [andb negb].
  unfold try_catch, bind, call, ret, lift. rewrite Hfind. cbn. rewrite Hv. cbn.
  destruct (io_emit h _); reflexivity.
Qed.

(** X16.  With result data and either no populate configured or no
    document id in the result, [afterCreate] and [afterUpdate] schedule a
    callback (0 ms without a populate configuration, 50 ms with one) that
    reads nothing back.  The callback clones [event.result] when it runs:
    its single call is [emit], with the JSON clone of [event.result] as it
    is then, which holds no [undefined]; that is the result the hook
    received when the store has not written to the event since.  When the
    store has left [undefined] in [event.result], the callback makes no
    call at all. *)
Theorem single_record_without_refetch
        (h : Host) (uid populateConfig : JSValue) (event : Event) (w : World Task) :
  truthy (result event) = true ->
  hasPopulate populateConfig
  && truthy (get_opt (result event) "documentId") = false ->
  afterCreate h uid populateConfig event w =
    scheduled h event w
      (CreateTask uid populateConfig (get_opt (result event) "documentId")
                  (modelInfo_of event) event)
      (if hasPopulate populateConfig then 50 else 0) /\
  afterUpdate h uid populateConfig event w =
    scheduled h event w
      (UpdateTask uid populateConfig (get_opt (result event) "documentId")
                  (modelInfo_of event) event)
      (if hasPopulate populateConfig then 50 else 0) /\
  (later_result h event <> JUndefined ->
   calls (run_task h (CreateTask uid populateConfig
                                 (get_opt (result event) "documentId")
                                 (modelInfo_of event) event)) =
     [Emit {| env_event := "create"; env_schema := modelInfo_of event;
              env_data := jsonify (later_result h event) |}] /\
   calls (run_task h (UpdateTask uid populateConfig
                                 (get_opt (result event) "documentId")
                                 (modelInfo_of event) event)) =
     [Emit {| env_event := "update"; env_schema := modelInfo_of event;
              env_data := jsonify (later_result h event) |}]) /\
  (later_result h event = result event ->
   calls (run_task h (CreateTask uid populateConfig
                                 (get_opt (result event) "documentId")
                                 (modelInfo_of event) event)) =
     [Emit {| env_event := "create"; env_schema := modelInfo_of event;
              env_data := jsonify (result event) |}] /\
   calls (run_task h (UpdateTask uid populateConfig
                                 (get_opt (result event) "documentId")
                                 (modelInfo_of event) event)) =
     [Emit {| env_event := "update"; env_schema := modelInfo_of event;
              env_data := jsonify (result event) |}]) /\
  (later_result h event = JUndefined ->
   calls (run_task h (CreateTask uid populateConfig
                                 (get_opt (result event) "documentId")
                                 (modelInfo_of event) event)) = [] /\
   calls (run_task h (UpdateTask uid populateConfig
                                 (get_opt (result event) "documentId")
                                 (modelInfo_of event) event)) = []) /\
  json_data (jsonify (later_result h event)) = true.
Proof.
  intros Hres Hno.
  assert (Hthere : later_result h event <> JUndefined ->
            calls (run_task h (CreateTask uid populateConfig
                                 (get_opt (result event) "documentId")
                                 (modelInfo_of event) event)) =
              [Emit {| env_event := "create"; env_schema := modelInfo_of event;
                       env_data := jsonify (later_result h event) |}] /\
            calls (run_task h (UpdateTask uid populateConfig
                                 (get_opt (result event) "documentId")
                                 (modelInfo_of event) event)) =
              [Emit {| env_event := "update"; env_schema := modelInfo_of event;
                       env_data := jsonify (later_result h event) |}]).
  { intros Hthere. unfold run_task, task_body.
    rewrite !(emit_single_snapshot h _ uid _ _ (modelInfo_of event) event Hno).
    assert (Hclone : json_clone (later_result h event) =
                     Normal (jsonify (later_result h event)))
      by (destruct (later_result h event); try reflexivity; now elim Hthere).
    rewrite Hclone. unfold try_catch, log.
    split; destruct (io_emit h _); reflexivity. }
  split; [unfold afterCreate; rewrite Hres; reflexivity|].
  split; [unfold afterUpdate; rewrite Hres; reflexivity|].
  split; [exact Hthere|].
  split.
  { intros Hsame.
    assert (Hn : later_result h event <> JUndefined)
      by (rewrite Hsame; intros Hgone; rewrite Hgone in Hres; discriminate Hres).
    destruct (Hthere Hn) as [Hcreate Hupdate].
    rewrite Hsame in Hcreate, Hupdate. split; assumption. }
  split; [|apply jsonify_is_json_data].
  intros Hgone. unfold run_task, task_body.
  rewrite !(emit_single_snapshot h _ uid _ _ (modelInfo_of event) event Hno).
  rewrite Hgone. split; reflexivity.
Qed.

Lemma single_record_without_refetch_witness :
  calls (run_task sample_host
           (UpdateTask (JStr "api::article.article") JUndefined (JStr "d11")
                       article update_event)) =
    [Emit {| env_event := "update"; env_schema := article;
             env_data := article_result |}] /\
  calls (run_task rewriting_host
           (UpdateTask (JStr "api::article.article") JUndefined (JStr "d11")
                       article update_event)) =
    [Emit {| env_event := "update"; env_schema := article;
             env_data := rewritten_result |}].
Proof.
  destruct (@single_record_without_refetch sample_host (JStr "api::article.article")
              JUndefined update_event (initial_world Task) eq_refl eq_refl)
    as [_ [_ [_ [Hsame _]]]].
  destruct (@single_record_without_refetch rewriting_host (JStr "api::article.article")
              JUndefined update_event (initial_world Task) eq_refl eq_refl)
    as [_ [_ [Hlater _]]].
  split; [exact (proj2 (Hsame eq_refl))|].
  apply Hlater. discriminate.
Defined.

(** X17.  With result data, a populate configuration and a document id,
    when the re-fetch answers a record the callback publishes that record
    as the store returned it, not the captured result: its calls are
    [findOne] then [emit] with the fetched record. *)
Theorem single_record_refetch_published
        (h : Host) (uid populateConfig : JSValue) (event : Event) (v : JSValue) :
  hasPopulate populateConfig = true ->
  truthy (get_opt (result event) "documentId") = true ->
  findOne h uid (get_opt (result event) "documentId")
          (normalizePopulate populateConfig) = Normal v ->
  truthy v = true ->
  calls (run_task h (CreateTask uid populateConfig
                                (get_opt (result event) "documentId")
                                (modelInfo_of event) event)) =
    [FindOne uid (get_opt (result event) "documentId")
             (normalizePopulate populateConfig);
     Emit {| env_event := "create"; env_schema := modelInfo_of event;
             env_data := v |}] /\
  calls (run_task h (UpdateTask uid populateConfig
                                (get_opt (result event) "documentId")
                                (modelInfo_of event) event)) =
    [FindOne uid (get_opt (result event) "documentId")
             (normalizePopulate populateConfig);
     Emit {| env_event := "update"; env_schema := modelInfo_of event;
             env_data := v |}].
Proof.
  intros Hpop Hdoc Hfind Hv.
  split; unfold run_task, task_body;
    rewrite (emit_single_refetched h _ uid _ _ (modelInfo_of event) event
               Hpop Hdoc Hfind Hv);
    unfold try_catch, log; destruct (io_emit h _); reflexivity.
Qed.

Lemma single_record_refetch_published_witness :
  calls (run_task picky_host
           (UpdateTask (JStr "api::article.article") (JStr "*") (JStr "d11")
                       article update_event)) =
    [FindOne (JStr "api::article.article") (JStr "d11") (JStr "*");
     Emit {| env_event := "update"; env_schema := article;
             env_data := article_result |}].
Proof.
  destruct (@single_record_refetch_published picky_host (JStr "api::article.article")
              (JStr "*") update_event article_result eq_refl eq_refl eq_refl eq_refl)
    as [_ Hupdate].
  exact Hupdate.
Defined.

Lemma emitted_none_not_In effects envelope :
  emitted effects = [] -> ~ In (Emit envelope) effects.
Proof.
  induction effects as [|x effects IH]; intros Hnone Hin; [destruct Hin|].
  destruct Hin as [->|Hin]; [discriminate Hnone|].
  apply IH; [|exact Hin]. destruct x; cbn in Hnone; try exact Hnone. discriminate.
Qed.

(** Before it publishes, a single-record callback has handed nothing to
    the channel. *)
Lemma emit_single_publish_throws h eventType uid populateConfig documentId modelInfo
      event l msg envelope error :
  In (Emit envelope)
     (fst (try_catch
             (emit_single h eventType uid populateConfig documentId modelInfo event)
             (fun error => log l msg (Some (message error))))) ->
  io_emit h envelope = Throw error ->
  exists before,
    try_catch (emit_single h eventType uid populateConfig documentId modelInfo event)
              (fun error => log l msg (Some (message error))) =
    (before ++ [Emit envelope;
                Logged {| level := l; text := msg; detail := Some (message error) |}],
     Normal tt) /\
    emitted before = [] /\
    env_event envelope = eventType /\ env_schema envelope = modelInfo.
Proof.
  unfold emit_single.
  set (data := if hasPopulate populateConfig && truthy documentId
               then bind (fetchWithPopulate h uid documentId populateConfig)
                         (fun data => if negb (truthy data)
                                      then lift (json_clone (later_result h event))
                                      else ret data)
               else lift (json_clone (later_result h event))).
  assert (Hquiet : emitted (fst data) = []).
  { unfold data, fetchWithPopulate, try_catch, bind, call, ret, lift, log.
    destruct (hasPopulate populateConfig && truthy documentId); cbn [fst];
      [|reflexivity].
    destruct (truthy documentId); cbn [negb];
      [destruct (findOne h uid documentId (normalizePopulate populateConfig))
         as [v|e]; cbn|cbn];
      try (destruct (truthy v); cbn);
      destruct (json_clone (later_result h event)); reflexivity. }
  destruct data as [before [d|e]]; cbn [fst] in Hquiet; unfold bind, call, try_catch.
  - destruct (io_emit h {| env_event := eventType; env_schema := modelInfo;
                           env_data := d |}) as [[]|e] eqn:Hemit; cbn [fst log];
      intros Hin Hthrow.
    + apply in_app_or in Hin. destruct Hin as [Hin|[Hin|[]]].
      * now elim (@emitted_none_not_In _ _ Hquiet Hin).
      * inversion Hin; subst envelope. rewrite Hemit in Hthrow. discriminate Hthrow.
    + apply in_app_or in Hin. destruct Hin as [Hin|[Hin|[]]]; [|discriminate Hin].
      apply in_app_or in Hin. destruct Hin as [Hin|[Hin|[]]].
      * now elim (@emitted_none_not_In _ _ Hquiet Hin).
      * inversion Hin; subst envelope. rewrite Hemit in Hthrow.
        inversion Hthrow; subst e.
        exists before. rewrite <- app_assoc. cbn. auto.
  - cbn [fst log]. intros Hin _. apply in_app_or in Hin.
    destruct Hin as [Hin|[Hin|[]]]; [|discriminate Hin].
    now elim (@emitted_none_not_In _ _ Hquiet Hin).
Qed.

(** X18.  A publish that throws stays inside the callback.  Whatever a
    single-record callback did before, with or without a re-fetch: when
    the envelope it hands to [emit] makes [emit] throw, that attempt is its
    only publish, one log entry with the error's message follows, and the
    callback resolves.  The same holds for [raw] in the delete callback.
    The entry is at error level for a create and for a delete, at debug
    level for an update. *)
Theorem publish_failure_is_logged
        (h : Host) (uid populateConfig documentId deleteData : JSValue)
        (modelInfo : ModelInfo) (event : Event) (error : JSError) :
  (forall envelope,
      In (Emit envelope)
         (run_task h (CreateTask uid populateConfig documentId modelInfo event)) ->
      io_emit h envelope = Throw error ->
      exists before,
        task_body h (CreateTask uid populateConfig documentId modelInfo event) =
        (before ++
         [Emit envelope;
          Logged {| level := Error;
                    text := "[socket.io] Could not emit create event for "
                            ++ to_string uid ++ ":";
                    detail := Some (message error) |}],
         Normal tt) /\
        emitted before = []) /\
  (forall envelope,
      In (Emit envelope)
         (run_task h (UpdateTask uid populateConfig documentId modelInfo event)) ->
      io_emit h envelope = Throw error ->
      exists before,
        task_body h (UpdateTask uid populateConfig documentId modelInfo event) =
        (before ++
         [Emit envelope;
          Logged {| level := Debug;
                    text := "[socket.io] Could not emit update event for "
                            ++ to_string uid ++ ":";
                    detail := Some (message error) |}],
         Normal tt) /\
        emitted before = []) /\
  (io_raw h {| raw_event := (singularName modelInfo ++ ":delete")%string;
               raw_data := deleteData |} = Throw error ->
   task_body h (DeleteTask uid deleteData modelInfo) =
   ([Raw {| raw_event := (singularName modelInfo ++ ":delete")%string;
            raw_data := deleteData |};
     Logged {| level := Error;
               text := "[socket.io] Could not emit delete event for "
                       ++ to_string uid ++ ":";
               detail := Some (message error) |}],
    Normal tt)).
Proof.
  split; [|split].
  - intros envelope Hin Hthrow. unfold run_task, task_body in *.
    destruct (@emit_single_publish_throws _ _ _ _ _ _ _ _ _ _ _ Hin Hthrow)
      as [before [Hrun [Hquiet _]]].
    exists before. split; [exact Hrun | exact Hquiet].
  - intros envelope Hin Hthrow. unfold run_task, task_body in *.
    destruct (@emit_single_publish_throws _ _ _ _ _ _ _ _ _ _ _ Hin Hthrow)
      as [before [Hrun [Hquiet _]]].
    exists before. split; [exact Hrun | exact Hquiet].
  - intros Hthrow. unfold task_body, call, try_catch, log.
    cbv zeta.
    change (":" ++ "delete")%string with ":delete".
    rewrite Hthrow. reflexivity.
Qed.

Lemma publish_failure_is_logged_witness :
  (exists before,
      task_body rewriting_picky_host
        (CreateTask (JStr "api::article.article") (JArr [JStr "author"]) (JStr "d11")
                    article update_event) =
      (before ++
       [Emit {| env_event := "create"; env_schema := article;
                env_data := article_result |};
        Logged {| level := Error;
                  text := "[socket.io] Could not emit create event for "
                          ++ "api::article.article" ++ ":";
                  detail := Some "closed" |}],
       Normal tt) /\
      emitted before = []) /\
  (exists before,
      task_body rejecting_host
        (UpdateTask (JStr "api::article.article") JUndefined (JStr "d11")
                    article update_event) =
      (before ++
       [Emit {| env_event := "update"; env_schema := article;
                env_data := article_result |};
        Logged {| level := Debug;
                  text := "[socket.io] Could not emit update event for "
                          ++ "api::article.article" ++ ":";
                  detail := Some "closed" |}],
       Normal tt) /\
      emitted before = []) /\
  task_body rejecting_host
    (DeleteTask (JStr "api::article.article") (JObj [("id", JNum 11)]) article) =
  ([Raw {| raw_event := "article:delete"; raw_data := JObj [("id", JNum 11)] |};
    Logged {| level := Error;
              text := "[socket.io] Could not emit delete event for api::article.article:";
              detail := Some "closed" |}],
   Normal tt).
Proof.
  destruct (@publish_failure_is_logged rewriting_picky_host
              (JStr "api::article.article") (JArr [JStr "author"]) (JStr "d11")
              (JObj [("id", JNum 11)]) article update_event
              {| kind := HostError; message := "closed" |})
    as [Hcreate _].
  destruct (@publish_failure_is_logged rejecting_host (JStr "api::article.article")
              JUndefined (JStr "d11") (JObj [("id", JNum 11)]) article update_event
              {| kind := HostError; message := "closed" |})
    as [_ [Hupdate Hdelete]].
  split; [|split].
  - apply (Hcreate {| env_event := "create"; env_schema := article;
                      env_data := article_result |});
      [cbn; auto | reflexivity].
  - apply (Hupdate {| env_event := "update"; env_schema := article;
                      env_data := article_result |});
      [cbn; auto | reflexivity].
  - apply Hdelete. reflexivity.
Defined.

(** ** Bulk callbacks: failed reads, failing publishes; bulk-update hand-off *)

Lemma for_each_emit_stops h eventType modelInfo pre r post error :
  (forall x, In x pre ->
     io_emit h {| env_event := eventType; env_schema := modelInfo; env_data := x |}
     = Normal tt) ->
  io_emit h {| env_event := eventType; env_schema := modelInfo; env_data := r |}
  = Throw error ->
  for_each (pre ++ r :: post)
    (fun x => call (Emit {| env_event := eventType; env_schema := modelInfo;
                            env_data := x |})
                   (io_emit h {| env_event := eventType; env_schema := modelInfo;
                                 env_data := x |})) =
  (map (fun x => Emit {| env_event := eventType; env_schema := modelInfo;
                         env_data := x |}) (pre ++ [r]),
   Throw error).
Proof.
  intros Hok Hthrow. induction pre as [|x pre IH]; cbn [app for_each map].
  - unfold bind, call at 1. rewrite Hthrow. reflexivity.
  - unfold bind, call at 1. rewrite (Hok x (or_introl eq_refl)).
    rewrite IH by (intros; apply Hok; now right). reflexivity.
Qed.

(** X19.  When the bulk read-back throws, or answers something that is
    not an array, the bulk callbacks publish nothing: the only call made
    is [findMany], one entry is logged at debug level, and the callback
    resolves. *)
Theorem bulk_read_failure_publishes_nothing
        (h : Host) (uid query : JSValue) (modelInfo : ModelInfo) :
  match findMany h uid query with Normal (JArr _) => False | _ => True end ->
  (exists entry,
      task_body h (CreateManyTask uid query modelInfo) =
      ([FindMany uid query; Logged entry], Normal tt) /\
      level entry = Debug /\
      text entry = ("[socket.io] Could not fetch records in afterCreateMany for "
                    ++ to_string uid ++ ":")%string) /\
  (exists entry,
      task_body h (UpdateManyTask uid query modelInfo) =
      ([FindMany uid query; Logged entry], Normal tt) /\
      level entry = Debug /\
      text entry = ("[socket.io] Could not fetch records in afterUpdateMany for "
                    ++ to_string uid ++ ":")%string) /\
  emitted (run_task h (CreateManyTask uid query modelInfo)) = [] /\
  emitted (run_task h (UpdateManyTask uid query modelInfo)) = [].
Proof.
  intros Hfail.
  unfold run_task, task_body, emit_many, try_catch, bind, call, lift, log.
  destruct (findMany h uid query) as [v|e]; [destruct v; try contradiction|];
    repeat split; eexists; repeat split.
Qed.

Lemma bulk_read_failure_publishes_nothing_witness :
  emitted (run_task offline_host
             (UpdateManyTask (JStr "api::article.article")
                             (JObj [("filters", JObj [])]) article)) = [] /\
  exists entry,
    task_body offline_host
      (CreateManyTask (JStr "api::article.article") (JObj [("filters", JObj [])])
                      article) =
    ([FindMany (JStr "api::article.article") (JObj [("filters", JObj [])]);
      Logged entry], Normal tt) /\
    level entry = Debug.
Proof.
  destruct (@bulk_read_failure_publishes_nothing offline_host
              (JStr "api::article.article") (JObj [("filters", JObj [])]) article I)
    as [[entry [Hrun [Hlevel _]]] [_ [_ Hnone]]].
  split; [exact Hnone|]. exists entry. split; assumption.
Defined.

(** X20.  In a bulk callback a publish that throws ends the batch: the
    rows before the failing one have been published, the failing row has
    been attempted, the rows after it are never published; the error is
    logged once at debug level and the callback resolves. *)
Theorem bulk_publish_stops_at_first_failure
        (h : Host) (uid query : JSValue) (sn mu : string)
        (pre post : list JSValue) (r : JSValue) (error : JSError) :
  findMany h uid query = Normal (JArr (pre ++ r :: post)) ->
  (forall eventType x, In x pre ->
     io_emit h {| env_event := eventType;
                  env_schema := {| singularName := sn; model_uid := mu |};
                  env_data := x |} = Normal tt) ->
  (forall eventType,
     io_emit h {| env_event := eventType;
                  env_schema := {| singularName := sn; model_uid := mu |};
                  env_data := r |} = Throw error) ->
  task_body h (UpdateManyTask uid query {| singularName := sn; model_uid := mu |}) =
  (FindMany uid query ::
     map (fun x => Emit {| env_event := "update";
                           env_schema := {| singularName := sn; model_uid := mu |};
                           env_data := x |}) (pre ++ [r]) ++
     [Logged {| level := Debug;
                text := "[socket.io] Could not fetch records in afterUpdateMany for "
                        ++ to_string uid ++ ":";
                detail := Some (message error) |}],
   Normal tt) /\
  task_body h (CreateManyTask uid query {| singularName := sn; model_uid := mu |}) =
  (FindMany uid query ::
     map (fun x => Emit {| env_event := "create";
                           env_schema := {| singularName := sn; model_uid := mu |};
                           env_data := x |}) (pre ++ [r]) ++
     [Logged {| level := Debug;
                text := "[socket.io] Could not fetch records in afterCreateMany for "
                        ++ to_string uid ++ ":";
                detail := Some (message error) |}],
   Normal tt).
Proof.
  intros Hfind Hok Hthrow.
  split; unfold task_body, emit_many, bind, call at 1;
    rewrite Hfind; cbn [singularName model_uid].
  - rewrite (@for_each_emit_stops h "update" {| singularName := sn; model_uid := mu |}
               pre r post error (Hok "update") (Hthrow "update")).
    reflexivity.
  - rewrite (@for_each_emit_stops h "create" {| singularName := sn; model_uid := mu |}
               pre r post error (Hok "create") (Hthrow "create")).
    reflexivity.
Qed.

Lemma bulk_publish_stops_at_first_failure_witness :
  emitted (run_task picky_host
             (UpdateManyTask (JStr "api::article.article")
                             (JObj [("filters", JObj [])]) article)) =
  map (fun x => {| env_event := "update"; env_schema := article; env_data := x |})
      article_rows /\
  emitted (run_task picky_host
             (UpdateManyTask (JStr "api::article.article")
                             (JObj [("filters", JObj [])]) article)) =
  emitted (run_task (host_answering (article_rows ++ article_rows))
             (UpdateManyTask (JStr "api::article.article")
                             (JObj [("filters", JObj [])]) article)).
Proof.
  assert (Hpre : forall h', io_emit h' = io_emit picky_host ->
            forall (eventType : string) x,
            In x [JObj [("id", JNum 11); ("documentId", JStr "d11");
                        ("title", JStr "a")]] ->
            io_emit h' {| env_event := eventType;
                          env_schema := {| singularName := "article";
                                           model_uid := "api::article.article" |};
                          env_data := x |} = Normal tt).
  { intros h' -> eventType x [<-|[]]. reflexivity. }
  destruct (@bulk_publish_stops_at_first_failure picky_host
              (JStr "api::article.article") (JObj [("filters", JObj [])])
              "article" "api::article.article"
              [JObj [("id", JNum 11); ("documentId", JStr "d11"); ("title", JStr "a")]]
              []
              (JObj [("id", JNum 12); ("documentId", JStr "d12"); ("title", JStr "b")])
              {| kind := HostError; message := "closed" |}
              eq_refl (Hpre _ eq_refl) (fun _ => eq_refl)) as [Hshort _].
  destruct (@bulk_publish_stops_at_first_failure
              (host_answering (article_rows ++ article_rows))
              (JStr "api::article.article") (JObj [("filters", JObj [])])
              "article" "api::article.article"
              [JObj [("id", JNum 11); ("documentId", JStr "d11"); ("title", JStr "a")]]
              article_rows
              (JObj [("id", JNum 12); ("documentId", JStr "d12"); ("title", JStr "b")])
              {| kind := HostError; message := "closed" |}
              eq_refl (Hpre _ eq_refl) (fun _ => eq_refl)) as [Hlong _].
  unfold run_task, article.
  rewrite Hshort, Hlong.
  split; reflexivity.
Defined.



(** X22.  [afterUpdateMany] does nothing at all (no log, nothing
    scheduled) when the captured params hold no truthy [where].  So a bulk
    update called without a [where] publishes nothing, and neither does
    one for which [beforeUpdateMany] did not run. *)
Theorem updateMany_without_where_is_silent
        (h : Host) (uid populateConfig : JSValue) (event : Event)
        (w w' : World Task) :
  (truthy (get_opt (get_opt (get_opt (JObj (state event)) "io") "params") "where")
   = false ->
   afterUpdateMany h uid populateConfig event w = skipped event w []) /\
  (own_prop "io" (state event) = None ->
   afterUpdateMany h uid populateConfig event w = skipped event w []) /\
  (own_prop "io" (state event) = None ->
   truthy (get_opt (params event) "where") = false ->
   afterUpdateMany h uid populateConfig
     (with_state event
        (state_after (beforeUpdateMany h uid populateConfig event w))) w' =
   skipped (with_state event
              (state_after (beforeUpdateMany h uid populateConfig event w))) w' []).
Proof.
  assert (Hsilent : forall e x,
            truthy (get_opt (get_opt (get_opt (JObj (state e)) "io") "params") "where")
            = false ->
            afterUpdateMany h uid populateConfig e x = skipped e x []).
  { intros e x Hw. unfold afterUpdateMany. rewrite Hw.
    cbn [negb]. rewrite orb_true_r. reflexivity. }
  split; [apply Hsilent|]. split.
  - intros Hio. apply Hsilent. cbn [get_opt]. rewrite Hio. reflexivity.
  - intros Hio Hwhere. apply Hsilent.
    unfold beforeUpdateMany, with_state. cbn [get_opt state]. rewrite Hio.
    cbn [truthy negb]. rewrite own_prop_set_prop_same by discriminate.
    cbn [put state_after get_opt].
    rewrite !own_prop_set_prop_same by discriminate. exact Hwhere.
Qed.

Lemma updateMany_without_where_is_silent_witness :
  afterUpdateMany sample_host (JStr "api::article.article") JUndefined
    (with_state update_event
       (state_after (beforeUpdateMany sample_host (JStr "api::article.article")
                       JUndefined update_event (initial_world Task))))
    (initial_world Task) =
  skipped (with_state update_event
             (state_after (beforeUpdateMany sample_host (JStr "api::article.article")
                             JUndefined update_event (initial_world Task))))
          (initial_world Task) [].
Proof.
  destruct (@updateMany_without_where_is_silent sample_host
              (JStr "api::article.article") JUndefined update_event
              (initial_world Task) (initial_world Task)) as [_ [_ Hcomposed]].
  apply Hcomposed; reflexivity.
Defined.

(** ** Scheduler: accounting, and the cached fallback *)

(** X23.  Whatever the state of the scheduler, a call of
    [scheduleAfterTransaction] never runs the callback itself and never
    loses it: nothing is added to what has run, the clock does not move,
    and commit listeners plus timers grow by exactly one entry, which is
    the new closure. *)
Theorem scheduleAfterTransaction_accounts_once
        (Callback : Type) (txModule : bool) (callback : Callback) (delay : nat)
        (w : World Callback) :
  ran (scheduleAfterTransaction txModule callback delay w) = ran w /\
  clock (scheduleAfterTransaction txModule callback delay w) = clock w /\
  List.length (timers (scheduleAfterTransaction txModule callback delay w)) +
  List.length (listeners_of (scheduleAfterTransaction txModule callback delay w)) =
    List.length (timers w) + List.length (listeners_of w) + 1 /\
  (In {| due := clock w + delay; timer_id := nextId w; timer_callback := callback |}
      (timers (scheduleAfterTransaction txModule callback delay w)) \/
   In {| runner_id := nextId w; runner_callback := callback; runner_delay := delay |}
      (listeners_of (scheduleAfterTransaction txModule callback delay w))).
Proof.
  destruct (schedule_cases txModule callback delay w)
    as [_ [Hclock [Hran [[ls [Etx [_ [Hact Htimers]]]] | [_ [Hact Htimers]]]]]];
    unfold listeners_of; rewrite Hact, Htimers.
  - rewrite Etx, length_app. cbn.
    repeat split; auto; try lia. right. apply in_or_app. right. now left.
  - rewrite length_insert_timer.
    repeat split; auto; try lia. left. apply In_insert_timer. now left.
Qed.

Lemma step_with_fallback (Callback : Type) txModule (w : World Callback) s :
  transactionCtx w = Some NoopTxCtx ->
  transactionCtx (step txModule w s) = Some NoopTxCtx /\
  console (step txModule w s) = console w /\
  List.length (listeners_of (step txModule w s)) <= List.length (listeners_of w).
Proof.
  intros Hctx. destruct s as [| | |d| |callback delay]; cbn [step].
  - unfold begin, listeners_of. destruct (activeTx w) eqn:E; cbn; rewrite ?E; auto.
  - unfold commit, listeners_of. destruct (activeTx w) as [ls|] eqn:E; [|rewrite E; auto].
    destruct (fold_run_runner ls (set_activeTx None w))
      as [H1 [H2 [_ [_ [H5 _]]]]].
    rewrite H1, H2, H5. cbn. repeat split; auto. lia.
  - unfold rollback, listeners_of. cbn. repeat split; auto. lia.
  - unfold elapse, listeners_of. cbn. auto.
  - unfold turn, listeners_of. cbn. auto.
  - unfold scheduleAfterTransaction, getTransactionCtx, listeners_of. cbn.
    rewrite Hctx. cbn. rewrite Hctx. auto.
Qed.

(** X24.  Once the no-op fallback is cached it stays, even if the
    transaction-context module could be loaded later: the module is not
    looked for again, no further warning is written, no commit listener is
    ever added, and every callback gets its timer at once, inside an open
    transaction as well. *)
Theorem cached_fallback_is_permanent
        (Callback : Type) (txModule : bool) (w : World Callback) :
  transactionCtx w = Some NoopTxCtx ->
  (forall callback delay,
      timers (scheduleAfterTransaction txModule callback delay w) =
        insert_timer {| due := clock w + delay; timer_id := nextId w;
                        timer_callback := callback |} (timers w) /\
      activeTx (scheduleAfterTransaction txModule callback delay w) = activeTx w) /\
  (forall steps,
      transactionCtx (run txModule steps w) = Some NoopTxCtx /\
      console (run txModule steps w) = console w /\
      List.length (listeners_of (run txModule steps w))
      <= List.length (listeners_of w)).
Proof.
  intros Hctx. split.
  - intros callback delay.
    unfold scheduleAfterTransaction, getTransactionCtx. cbn. rewrite Hctx. cbn. auto.
  - intros steps. revert w Hctx.
    induction steps as [|s steps IH]; intros w Hctx; [cbn; auto|].
    destruct (@step_with_fallback Callback txModule w s Hctx) as [H1 [H2 H3]].
    destruct (IH _ H1) as [H4 [H5 H6]].
    unfold run in *. cbn [fold_left]. rewrite H5, H2. repeat split; auto. lia.
Qed.

Lemma cached_fallback_is_permanent_witness :
  console (run true [Begin string; Schedule "b" 0; Commit string]
               (scheduleAfterTransaction false "a" 0 (initial_world string))) =
    [tx_warning] /\
  timers (scheduleAfterTransaction true "b" 50
            (begin (scheduleAfterTransaction false "a" 0 (initial_world string)))) =
    [{| due := 0; timer_id := 0; timer_callback := "a" |};
     {| due := 50; timer_id := 1; timer_callback := "b" |}].
Proof.
  destruct (@cached_fallback_is_permanent string true
              (scheduleAfterTransaction false "a" 0 (initial_world string)) eq_refl)
    as [_ Hrun].
  destruct (@cached_fallback_is_permanent string true
              (begin (scheduleAfterTransaction false "a" 0 (initial_world string)))
              eq_refl)
    as [Hsched _].
  split.
  - destruct (Hrun [Begin string; Schedule "b" 0; Commit string]) as [_ [Hconsole _]].
    exact Hconsole.
  - destruct (Hsched "b" 50) as [Htimers _]. exact Htimers.
Defined.

(** ** Delete payload and the default sensitive fields *)

(** X25.  The payload [afterDelete] builds passes the raw sanitizer
    untouched when no extra fragment is configured: neither [id] nor
    [documentId] matches a default fragment.  A configured fragment [id]
    matches both keys and empties the payload. *)
Theorem delete_payload_and_sensitive_fields (idv docv : JSValue) :
  is_primitive idv = true -> is_primitive docv = true ->
  sanitizeRaw ascii_toLowerCase [] (JObj [("id", idv); ("documentId", docv)]) =
    JObj [("id", idv); ("documentId", docv)] /\
  sanitizeRaw ascii_toLowerCase ["id"] (JObj [("id", idv); ("documentId", docv)]) =
    JObj [].
Proof.
  intros Hid Hdoc.
  assert (H1 : is_sensitive ascii_toLowerCase "id" (getSensitiveFields []) = false)
    by (vm_compute; reflexivity).
  assert (H2 : is_sensitive ascii_toLowerCase "documentId" (getSensitiveFields []) = false)
    by (vm_compute; reflexivity).
  assert (H3 : is_sensitive ascii_toLowerCase "id" (getSensitiveFields ["id"]) = true)
    by (vm_compute; reflexivity).
  assert (H4 : is_sensitive ascii_toLowerCase "documentId" (getSensitiveFields ["id"]) = true)
    by (vm_compute; reflexivity).
  unfold sanitizeRaw. rewrite !sanitize_obj_filter by reflexivity.
  cbn [filter fst snd]. rewrite H1, H2, H3, H4. cbn.
  rewrite !sanitize_primitive by assumption.
  split; reflexivity.
Qed.

Lemma delete_payload_and_sensitive_fields_witness :
  sanitizeRaw ascii_toLowerCase [] (JObj [("id", JNum 11); ("documentId", JStr "d11")]) =
    JObj [("id", JNum 11); ("documentId", JStr "d11")].
Proof.
  destruct (@delete_payload_and_sensitive_fields (JNum 11) (JStr "d11") eq_refl eq_refl)
    as [Hkept _].
  exact Hkept.
Defined.
